(** * Block comment toggling: a shallow embedding of
    [src/vs/editor/contrib/comment/common/blockCommentCommand.ts]

    The development follows the source file top to bottom: the strings and
    numbers of the host language, the editor's core value types, the
    substring matcher, the two plan builders, the classification of a
    selection, the command's two phases, and finally a small model of the
    edit harness on which the round trip is stated. *)

From Stdlib Require Import ZArith List Bool Lia Ascii String.
Import ListNotations.

Open Scope Z_scope.

(** ** Strings of the host language

    A string is its sequence of code units; [charCodeAt] is the only way
    the source looks at a code unit, and it answers with a number, so code
    units are kept as integers.  [NaN], the answer of [charCodeAt] outside
    the string, is [None]. *)

Abbreviation JSString := (list Z).

Definition str (s : string) : JSString :=
  map (fun a => Z.of_N (N_of_ascii a)) (list_ascii_of_string s).

Definition strlen (s : JSString) : Z := Z.of_nat (List.length s).

Definition charCodeAt (s : JSString) (pos : Z) : option Z :=
  if pos <? 0 then None else nth_error s (Z.to_nat pos).

(** [a === b] and [a !== b] on numbers: [NaN] is different from everything,
    itself included. *)
Definition strictEq (a b : option Z) : bool :=
  match a, b with
  | Some x, Some y => x =? y
  | _, _ => false
  end.

Definition strictNeq (a b : option Z) : bool := negb (strictEq a b).

(** A string used as a condition is true unless it is absent or empty. *)
Definition truthy (s : option JSString) : bool :=
  match s with
  | Some (_ :: _) => true
  | _ => false
  end.

(** [search] is a prefix of [s]. *)
Fixpoint startsWith (search s : JSString) : bool :=
  match search, s with
  | [], _ => true
  | a :: search', b :: s' => (a =? b) && startsWith search' s'
  | _ :: _, [] => false
  end.

(** The largest [j <= k] at which [search] occurs in [s]. *)
Fixpoint lastIndexDown (s search : JSString) (k : nat) : option nat :=
  if startsWith search (skipn k s) then Some k
  else match k with
       | O => None
       | S k' => lastIndexDown s search k'
       end.

(** The smallest offset at which [search] occurs in the suffix [s], which
    itself starts at offset [k] of the whole string. *)
Fixpoint firstIndexUp (search s : JSString) (k : nat) : option nat :=
  if startsWith search s then Some k
  else match s with
       | [] => None
       | _ :: s' => firstIndexUp search s' (S k)
       end.

Definition clampStart (s : JSString) (position : Z) : nat :=
  Z.to_nat (Z.min (Z.max position 0) (strlen s)).

Definition indexResult (r : option nat) : Z :=
  match r with
  | Some k => Z.of_nat k
  | None => -1
  end.

(** [s.lastIndexOf(search, position)] *)
Definition lastIndexOf (s search : JSString) (position : Z) : Z :=
  indexResult (lastIndexDown s search (clampStart s position)).

(** [s.indexOf(search, position)] *)
Definition indexOf (s search : JSString) (position : Z) : Z :=
  let start := clampStart s position in
  indexResult (firstIndexUp search (skipn start s) start).

(** Modelled from the spec: the enumeration [CharCode] is absent from the
    sources at hand; [CharCode.Space] is the character code of a space. *)
Definition CharCode_Space : Z := 32.

Definition SPACE : JSString := [CharCode_Space].

(** ** The substring matcher *)

(** The body of the [for] loop of [_haystackHasNeedleAtOffset]; [fuel] is
    the number of iterations left, [needleLength - i]. *)
Fixpoint _haystackHasNeedleAtOffset_loop
    (haystack needle : JSString) (offset i : Z) (fuel : nat) : bool :=
  match fuel with
  | O => true
  | S fuel' =>
      if strictNeq (charCodeAt haystack (offset + i)) (charCodeAt needle i)
      then false
      else _haystackHasNeedleAtOffset_loop haystack needle offset (i + 1) fuel'
  end.

Definition _haystackHasNeedleAtOffset
    (haystack needle : JSString) (offset : Z) : bool :=
  if offset <? 0 then false
  else
    let needleLength := strlen needle in
    let haystackLength := strlen haystack in
    if offset + needleLength >? haystackLength then false
    else _haystackHasNeedleAtOffset_loop haystack needle offset 0
           (Z.to_nat needleLength).

(** ** Core value types of the editor

    [Position], [Range], [Selection] and [EditOperation] live in
    [vs/editor/common/core], outside the file embedded here. *)

(** Modelled from the spec: [Position] is absent from the sources at hand;
    it is a point (line, column), both counted from 1. *)
Record Position := mkPosition {
  lineNumber : Z;
  column : Z
}.

(** Modelled from the spec: [Range] is absent from the sources at hand; it
    is (startLine, startColumn, endLine, endColumn), counted from 1. *)
Record Range := mkRange {
  startLineNumber : Z;
  startColumn : Z;
  endLineNumber : Z;
  endColumn : Z
}.

(** The start of a range does not lie after its end. *)
Definition ordered (l1 c1 l2 c2 : Z) : Prop :=
  l1 < l2 \/ (l1 = l2 /\ c1 <= c2).

Definition orderedb (l1 c1 l2 c2 : Z) : bool :=
  (l1 <? l2) || ((l1 =? l2) && (c1 <=? c2)).

Definition Range_ordered (r : Range) : Prop :=
  ordered (startLineNumber r) (startColumn r) (endLineNumber r) (endColumn r).

(** [new Range(l1, c1, l2, c2)].  What the constructor does with end points
    given in the wrong order is not visible from the file embedded here, so
    the constructor is a parameter of the development; all that is assumed
    is that end points given in order are stored as given. *)
Class RangeConstructor := {
  newRange : Z -> Z -> Z -> Z -> Range;
  newRange_ordered :
    forall l1 c1 l2 c2,
      ordered l1 c1 l2 c2 -> newRange l1 c1 l2 c2 = mkRange l1 c1 l2 c2
}.

(** Two constructors that fit: one stores the four numbers as they come,
    the other swaps end points given in the wrong order. *)
Definition plainRange : RangeConstructor :=
  {| newRange := mkRange;
     newRange_ordered := fun l1 c1 l2 c2 _ => eq_refl |}.

Definition swappingNewRange (l1 c1 l2 c2 : Z) : Range :=
  if orderedb l1 c1 l2 c2 then mkRange l1 c1 l2 c2 else mkRange l2 c2 l1 c1.

Definition orderedb_true l1 c1 l2 c2 (H : ordered l1 c1 l2 c2)
    : orderedb l1 c1 l2 c2 = true.
Proof.
  unfold ordered in H. unfold orderedb. destruct H as [H | [H1 H2]].
  - apply Z.ltb_lt in H. rewrite H. reflexivity.
  - apply Z.eqb_eq in H1. apply Z.leb_le in H2. rewrite H1, H2.
    apply orb_true_r.
Defined.

Definition swappingNewRange_ordered l1 c1 l2 c2 (H : ordered l1 c1 l2 c2)
    : swappingNewRange l1 c1 l2 c2 = mkRange l1 c1 l2 c2.
Proof.
  unfold swappingNewRange. rewrite (orderedb_true _ _ _ _ H). reflexivity.
Defined.

Definition swappingRange : RangeConstructor :=
  {| newRange := swappingNewRange;
     newRange_ordered := swappingNewRange_ordered |}.

(** Modelled from the spec: [Range.isEmpty] is absent from the sources at
    hand; a range is collapsed when its start and its end are the same
    position. *)
Definition Range_isEmpty (r : Range) : bool :=
  (startLineNumber r =? endLineNumber r) && (startColumn r =? endColumn r).

(** Modelled from the spec: [Selection] is absent from the sources at hand;
    it is a range that also remembers which of its ends is the anchor
    (where the selection started) and which the active end (the position of
    the cursor).  [new Selection(a, b, c, d)] keeps (a, b) as the anchor and
    (c, d) as the active end, and builds its range from the same numbers. *)
Record Selection := mkSelection {
  selectionRange : Range;
  selectionStartLineNumber : Z;
  selectionStartColumn : Z;
  positionLineNumber : Z;
  positionColumn : Z
}.

Definition newSelection `{RC : RangeConstructor} (a b c d : Z) : Selection :=
  {| selectionRange := newRange a b c d;
     selectionStartLineNumber := a;
     selectionStartColumn := b;
     positionLineNumber := c;
     positionColumn := d |}.

(** Modelled from the spec: [EditOperation] is absent from the sources at
    hand; an edit operation is a range to replace and the replacement
    string.  A deletion replaces its range by the empty string, an insertion
    replaces the empty range at a position. *)
Record IIdentifiedSingleEditOperation := mkEdit {
  range : Range;
  text : JSString
}.

Definition EditOperation_insert `{RC : RangeConstructor}
    (position : Position) (text : JSString) : IIdentifiedSingleEditOperation :=
  {| range := newRange (lineNumber position) (column position)
                       (lineNumber position) (column position);
     text := text |}.

Definition EditOperation_delete (range : Range)
    : IIdentifiedSingleEditOperation :=
  {| range := range; text := [] |}.

Definition EditOperation_replace (range : Range) (text : JSString)
    : IIdentifiedSingleEditOperation :=
  {| range := range; text := text |}.

(** ** What the command consumes from its host *)

Definition LanguageId := Z.

(** Modelled from the spec: [ICommentsConfiguration] is declared outside
    the sources at hand; it holds the comment tokens of a language, each of
    which may be absent. *)
Record ICommentsConfiguration := mkComments {
  lineCommentToken : option JSString;
  blockCommentStartToken : option JSString;
  blockCommentEndToken : option JSString
}.

(** Modelled from the spec: [LanguageConfigurationRegistry.getComments] is
    absent from the sources at hand; it looks a language up, and a language
    may have no comment configuration at all. *)
Definition CommentsRegistry := LanguageId -> option ICommentsConfiguration.

(** Modelled from the spec: [ITokenizedModel] is declared outside the
    sources at hand; these are the three capabilities the command uses.
    [tokenizeIfCheap] acts on the model, so it hands back the model to go on
    with. *)
Class ITokenizedModel (M : Type) := {
  getLineContent : M -> Z -> JSString;
  tokenizeIfCheap : M -> Z -> M;
  getLanguageIdAtPosition : M -> Z -> Z -> LanguageId
}.

(** Modelled from the spec: [IEditOperationBuilder] is declared outside the
    sources at hand; it is the ordered sequence of the operations tracked so
    far, oldest first. *)
Definition IEditOperationBuilder := list (Range * JSString).

Definition addTrackedEditOperation
    (builder : IEditOperationBuilder) (range : Range) (text : JSString)
    : IEditOperationBuilder :=
  builder ++ [(range, text)].

(** ** The command *)

Record BlockCommentCommand := mkCommand {
  _selection : Selection;
  _usedEndToken : option JSString
}.

(** [new BlockCommentCommand(selection)] *)
Definition newBlockCommentCommand (selection : Selection)
    : BlockCommentCommand :=
  {| _selection := selection; _usedEndToken := None |}.

Section Builders.
Context `{RC : RangeConstructor}.

Definition _createRemoveBlockCommentOperations
    (r : Range) (startToken endToken : JSString)
    : list IIdentifiedSingleEditOperation :=
  if negb (Range_isEmpty r) then
    [ EditOperation_delete
        (newRange (startLineNumber r) (startColumn r - strlen startToken)
                  (startLineNumber r) (startColumn r));
      EditOperation_delete
        (newRange (endLineNumber r) (endColumn r)
                  (endLineNumber r) (endColumn r + strlen endToken)) ]
  else
    [ EditOperation_delete
        (newRange (startLineNumber r) (startColumn r - strlen startToken)
                  (endLineNumber r) (endColumn r + strlen endToken)) ].

Definition _createAddBlockCommentOperations
    (r : Range) (startToken endToken : JSString)
    : list IIdentifiedSingleEditOperation :=
  if negb (Range_isEmpty r) then
    [ EditOperation_insert
        (mkPosition (startLineNumber r) (startColumn r))
        (startToken ++ SPACE);
      EditOperation_insert
        (mkPosition (endLineNumber r) (endColumn r))
        (SPACE ++ endToken) ]
  else
    [ EditOperation_replace
        (newRange (startLineNumber r) (startColumn r)
                  (endLineNumber r) (endColumn r))
        (startToken ++ SPACE ++ SPACE ++ endToken) ].

End Builders.

Section Command.
Context `{RC : RangeConstructor}.
Context {M : Type} `{TM : ITokenizedModel M}.

(** The loop that hands the operations to the builder. *)
Definition submitAll (ops : list IIdentifiedSingleEditOperation)
    (builder : IEditOperationBuilder) : IEditOperationBuilder :=
  fold_left (fun b op => addTrackedEditOperation b (range op) (text op))
            ops builder.

(** [this._usedEndToken = ops.length === 1 ? endToken : null] *)
Definition recordUsedEndToken (this : BlockCommentCommand)
    (ops : list IIdentifiedSingleEditOperation) (endToken : JSString)
    : BlockCommentCommand :=
  {| _selection := _selection this;
     _usedEndToken :=
       if Z.of_nat (List.length ops) =? 1 then Some endToken else None |}.

(** The result is [None] where the source would stop with a type error:
    a token of the configuration that is absent has no length. *)
Definition _createOperationsForBlockComment
    (this : BlockCommentCommand) (selection : Range)
    (config : ICommentsConfiguration) (model : M)
    (builder : IEditOperationBuilder)
    : option (BlockCommentCommand * IEditOperationBuilder) :=
  let startLineNumber := startLineNumber selection in
  let startColumn := startColumn selection in
  let endLineNumber := endLineNumber selection in
  let endColumn := endColumn selection in
  match blockCommentStartToken config, blockCommentEndToken config with
  | Some startToken, Some endToken =>
      let startTokenIndex :=
        lastIndexOf (getLineContent model startLineNumber) startToken
                    (startColumn - 1 + strlen startToken) in
      let endTokenIndex :=
        indexOf (getLineContent model endLineNumber) endToken
                (endColumn - 1 - strlen endToken) in
      let '(this, ops) :=
        if negb (startTokenIndex =? -1) && negb (endTokenIndex =? -1) then
          let endTokenBeforeCursorIndex :=
            lastIndexOf (getLineContent model startLineNumber) endToken
                        (startColumn - 1 + strlen endToken) in
          if endTokenBeforeCursorIndex >? startTokenIndex + strlen startToken - 1
          then
            let ops :=
              _createAddBlockCommentOperations selection startToken endToken in
            (recordUsedEndToken this ops endToken, ops)
          else
            let startToken :=
              if strictEq (charCodeAt (getLineContent model startLineNumber)
                                      (startTokenIndex + strlen startToken))
                          (Some CharCode_Space)
              then startToken ++ SPACE else startToken in
            let '(endToken, endTokenIndex) :=
              if strictEq (charCodeAt (getLineContent model endLineNumber)
                                      (endTokenIndex - 1))
                          (Some CharCode_Space)
              then (SPACE ++ endToken, endTokenIndex - 1)
              else (endToken, endTokenIndex) in
            (this,
             _createRemoveBlockCommentOperations
               (newRange startLineNumber
                         (startTokenIndex + 1 + strlen startToken)
                         endLineNumber (endTokenIndex + 1))
               startToken endToken)
        else
          let ops :=
            _createAddBlockCommentOperations selection startToken endToken in
          (recordUsedEndToken this ops endToken, ops)
      in
      Some (this, submitAll ops builder)
  | _, _ => None
  end.

Definition getEditOperations
    (this : BlockCommentCommand) (model : M)
    (builder : IEditOperationBuilder) (registry : CommentsRegistry)
    : option (BlockCommentCommand * IEditOperationBuilder) :=
  let startLineNumber := startLineNumber (selectionRange (_selection this)) in
  let startColumn := startColumn (selectionRange (_selection this)) in
  let model := tokenizeIfCheap model startLineNumber in
  let languageId := getLanguageIdAtPosition model startLineNumber startColumn in
  match registry languageId with
  | None => Some (this, builder)
  | Some config =>
      if negb (truthy (blockCommentStartToken config))
         || negb (truthy (blockCommentEndToken config))
      then Some (this, builder)
      else _createOperationsForBlockComment
             this (selectionRange (_selection this)) config model builder
  end.

(** [helper.getInverseEditOperations()] is the list handed in.  The result
    is [None] where the source would stop with a type error: the first of
    no operations has no range. *)
Definition computeCursorState
    (this : BlockCommentCommand) (model : M)
    (inverseEditOperations : list IIdentifiedSingleEditOperation)
    : option Selection :=
  match inverseEditOperations with
  | [startTokenEditOperation; endTokenEditOperation] =>
      Some (newSelection
              (endLineNumber (range startTokenEditOperation))
              (endColumn (range startTokenEditOperation))
              (startLineNumber (range endTokenEditOperation))
              (startColumn (range endTokenEditOperation)))
  | [] => None
  | first :: _ =>
      let srcRange := range first in
      let deltaColumn :=
        match _usedEndToken this with
        | Some (c :: usedEndToken) => - strlen (c :: usedEndToken) - 1
        | _ => 0
        end in
      Some (newSelection
              (endLineNumber srcRange) (endColumn srcRange + deltaColumn)
              (endLineNumber srcRange) (endColumn srcRange + deltaColumn))
  end.

End Command.

(** ** The host: a text buffer and the edit harness

    The buffer and the harness that applies a batch of tracked operations
    are collaborators of the command; their sources are not at hand. *)

(** Modelled from the spec: the text model is absent from the sources at
    hand; it gives the text of a line by its number, counted from 1, and the
    language at a position.  A buffer in one language is enough here.  A
    line number the buffer cannot resolve is answered with the empty line;
    every statement about a buffer below keeps its positions inside the
    buffer. *)
Record TextBuffer := mkBuffer {
  bufferLines : list JSString;
  bufferLanguage : LanguageId
}.

Definition lineAt (lines : list JSString) (n : Z) : JSString :=
  if n <? 1 then [] else nth (Z.to_nat (n - 1)) lines [].

#[export] Instance TextBuffer_model : ITokenizedModel TextBuffer := {
  getLineContent := fun b n => lineAt (bufferLines b) n;
  tokenizeIfCheap := fun b _ => b;
  getLanguageIdAtPosition := fun b _ _ => bufferLanguage b
}.

Definition isLineBreak (c : Z) : bool := (c =? 10) || (c =? 13).

Definition noLineBreak (s : JSString) : bool :=
  forallb (fun c => negb (isLineBreak c)) s.

(** Modelled from the spec: the edit harness is absent from the sources at
    hand; it replaces the range of each operation by the operation's text.
    The model covers what this command submits: operations that stay on one
    line, whose text has no line break, handed over in the order in which
    they lie in the text and without overlap.  All ranges are read in the
    coordinates of the text before the batch.  Anything else is outside the
    model and answered with [None]. *)
Definition replaceInLine (line : JSString) (c1 c2 : Z) (t : JSString)
    : JSString :=
  firstn (Z.to_nat (c1 - 1)) line ++ t ++ skipn (Z.to_nat (c2 - 1)) line.

Fixpoint updateLine (lines : list JSString) (n : nat)
    (f : JSString -> JSString) : list JSString :=
  match lines, n with
  | [], _ => []
  | l :: ls, O => f l :: ls
  | l :: ls, S n' => l :: updateLine ls n' f
  end.

Definition validOperation (lines : list JSString) (op : Range * JSString)
    : bool :=
  let r := fst op in
  (startLineNumber r =? endLineNumber r)
  && (1 <=? startLineNumber r)
  && (startLineNumber r <=? Z.of_nat (List.length lines))
  && (1 <=? startColumn r)
  && (startColumn r <=? endColumn r)
  && (endColumn r <=? strlen (lineAt lines (startLineNumber r)) + 1)
  && noLineBreak (snd op).

Fixpoint inTextOrder (ops : list (Range * JSString)) : bool :=
  match ops with
  | op1 :: ((op2 :: _) as rest) =>
      orderedb (endLineNumber (fst op1)) (endColumn (fst op1))
               (startLineNumber (fst op2)) (startColumn (fst op2))
      && inTextOrder rest
  | _ => true
  end.

Definition applyOperation (op : Range * JSString) (lines : list JSString)
    : list JSString :=
  let r := fst op in
  updateLine lines (Z.to_nat (startLineNumber r - 1))
    (fun line => replaceInLine line (startColumn r) (endColumn r) (snd op)).

Definition applyEdits (lines : list JSString) (ops : list (Range * JSString))
    : option (list JSString) :=
  if forallb (validOperation lines) ops && inTextOrder ops
  then Some (fold_right applyOperation lines ops)
  else None.

(** How far the operations in [earlier] move a column of line [l] that lies
    behind them. *)
Definition columnShift (earlier : list (Range * JSString)) (l : Z) : Z :=
  fold_right
    (fun op acc =>
       if startLineNumber (fst op) =? l
       then acc + strlen (snd op) - (endColumn (fst op) - startColumn (fst op))
       else acc)
    0 earlier.

(** Modelled from the spec: the inverse of a tracked operation is the range
    its text occupies once the whole batch is applied, together with the
    text it replaced; inverses come in the order of submission. *)
Fixpoint inverseEditOperationsFrom (lines : list JSString)
    (earlier ops : list (Range * JSString))
    : list IIdentifiedSingleEditOperation :=
  match ops with
  | [] => []
  | op :: rest =>
      let r := fst op in
      let l := startLineNumber r in
      let c := startColumn r + columnShift earlier l in
      {| range := mkRange l c l (c + strlen (snd op));
         text := firstn (Z.to_nat (endColumn r - startColumn r))
                   (skipn (Z.to_nat (startColumn r - 1)) (lineAt lines l)) |}
      :: inverseEditOperationsFrom lines (earlier ++ [op]) rest
  end.

Definition inverseEditOperations (lines : list JSString)
    (ops : list (Range * JSString)) : list IIdentifiedSingleEditOperation :=
  inverseEditOperationsFrom lines [] ops.

Section Harness.
Context `{RC : RangeConstructor}.

(** Modelled from the spec: the life cycle of a command.  The operations
    it submitted are applied; when there are none the selection stays as
    it is and the cursor is not recomputed; otherwise the command is asked
    once for the selection, with the inverses of its operations. *)
Definition settle (cmd : BlockCommentCommand) (buf : TextBuffer)
    (ops : IEditOperationBuilder) : option (TextBuffer * Selection) :=
  match applyEdits (bufferLines buf) ops with
  | None => None
  | Some lines' =>
      let buf' := mkBuffer lines' (bufferLanguage buf) in
      match ops with
      | [] => Some (buf', _selection cmd)
      | _ :: _ =>
          match computeCursorState cmd buf'
                  (inverseEditOperations (bufferLines buf) ops) with
          | Some s => Some (buf', s)
          | None => None
          end
      end
  end.

(** One run of the command on a buffer: a fresh command for the selection,
    its edit operations, the harness, the new selection. *)
Definition executeCommand (registry : CommentsRegistry) (buf : TextBuffer)
    (sel : Selection) : option (TextBuffer * Selection) :=
  match getEditOperations (newBlockCommentCommand sel) buf [] registry with
  | None => None
  | Some (cmd, ops) => settle cmd buf ops
  end.

(** The same run with the add plan taken without asking the buffer whether
    the selection is commented. *)
Definition executeAdd (startToken endToken : JSString) (buf : TextBuffer)
    (sel : Selection) : option (TextBuffer * Selection) :=
  let ops :=
    _createAddBlockCommentOperations (selectionRange sel)
                                     startToken endToken in
  settle (recordUsedEndToken (newBlockCommentCommand sel) ops endToken)
         buf (submitAll ops []).

End Harness.

(** A registry that knows one language. *)
Definition oneLanguage (lang : LanguageId) (startToken endToken : JSString)
    : CommentsRegistry :=
  fun l => if l =? lang
           then Some (mkComments None (Some startToken) (Some endToken))
           else None.

(** ** Vocabulary for the statements

    An occurrence of a token at an offset is what the matcher of the source
    recognises.  The last occurrence at or before a bound and the first
    occurrence at or after a bound are what the searches of the
    classification look for. *)

Definition lastOccurrence (s tok : JSString) (bound k : Z) : Prop :=
  _haystackHasNeedleAtOffset s tok k = true /\ k <= bound /\
  forall j, k < j <= bound -> _haystackHasNeedleAtOffset s tok j = false.

Definition firstOccurrence (s tok : JSString) (bound k : Z) : Prop :=
  _haystackHasNeedleAtOffset s tok k = true /\ bound <= k /\
  forall j, bound <= j < k -> _haystackHasNeedleAtOffset s tok j = false.

(** No occurrence of [tok] in [s] begins at an offset from [lo] to [hi]. *)
Definition noOccurrence (s tok : JSString) (lo hi : Z) : Prop :=
  forall j, lo <= j <= hi -> _haystackHasNeedleAtOffset s tok j = false.

(** The operations of a plan as the builder holds them once submitted. *)
Definition tracked (ops : list IIdentifiedSingleEditOperation)
    : IEditOperationBuilder :=
  map (fun op => (range op, text op)) ops.

(** A token of the configuration that cannot be used: absent, or empty. *)
Definition absentOrEmpty (token : option JSString) : Prop :=
  token = None \/ token = Some [].

(** The character code of [line] at [pos] is that of a space. *)
Definition isSpaceAt (line : JSString) (pos : Z) : bool :=
  strictEq (charCodeAt line pos) (Some CharCode_Space).

Definition spaceIf (b : bool) : JSString := if b then SPACE else [].

Section Outcomes.
Context `{RC : RangeConstructor}.

(** What [_createOperationsForBlockComment] answers when it takes the add
    plan: the plan is submitted and the used end token recorded. *)
Definition addOutcome (this : BlockCommentCommand) (selection : Range)
    (startToken endToken : JSString) (builder : IEditOperationBuilder)
    : option (BlockCommentCommand * IEditOperationBuilder) :=
  let ops := _createAddBlockCommentOperations selection startToken endToken in
  Some (recordUsedEndToken this ops endToken, submitAll ops builder).

(** What it answers when it takes the remove plan for a content range and
    a pair of tokens: the plan is submitted, the command left as it is. *)
Definition removeOutcome (this : BlockCommentCommand) (content : Range)
    (startToken endToken : JSString) (builder : IEditOperationBuilder)
    : option (BlockCommentCommand * IEditOperationBuilder) :=
  Some (this,
        submitAll
          (_createRemoveBlockCommentOperations content startToken endToken)
          builder).

Definition isRemoveOutcome (this : BlockCommentCommand)
    (builder : IEditOperationBuilder)
    (outcome : option (BlockCommentCommand * IEditOperationBuilder)) : Prop :=
  exists content startToken endToken,
    outcome = removeOutcome this content startToken endToken builder.

End Outcomes.

(** An end token closes a comment on [line] before the selection begins:
    the last occurrence of [endToken] at or before
    [startColumn - 1 + strlen endToken] begins behind the last character of
    the start token found at [startTokenIndex]. *)
Definition closedBeforeSelection (line startToken endToken : JSString)
    (startColumn startTokenIndex : Z) : Prop :=
  exists k,
    lastOccurrence line endToken (startColumn - 1 + strlen endToken) k /\
    startTokenIndex + strlen startToken - 1 < k.

(** How far the cursor moves from the end of the single inverse range: left
    by the end token and the space before it when an end token was recorded
    as used, not at all otherwise. *)
Definition cursorShift (this : BlockCommentCommand) : Z :=
  match _usedEndToken this with
  | Some usedEndToken => - (strlen usedEndToken + 1)
  | None => 0
  end.

(** A range lies inside a text: its lines exist, its ends are in order and
    each column is on its line or right behind the last character. *)
Definition validRange (lines : list JSString) (r : Range) : bool :=
  (1 <=? startLineNumber r)
  && (endLineNumber r <=? Z.of_nat (List.length lines))
  && orderedb (startLineNumber r) (startColumn r)
              (endLineNumber r) (endColumn r)
  && (1 <=? startColumn r)
  && (startColumn r <=? strlen (lineAt lines (startLineNumber r)) + 1)
  && (1 <=? endColumn r)
  && (endColumn r <=? strlen (lineAt lines (endLineNumber r)) + 1).

(** [noOccurrence], decided by running the matcher over the offsets from
    [lo] on, [count] of them. *)
Fixpoint noOccurrenceFrom (s tok : JSString) (lo : Z) (count : nat) : bool :=
  match count with
  | O => true
  | S count' =>
      negb (_haystackHasNeedleAtOffset s tok lo)
      && noOccurrenceFrom s tok (lo + 1) count'
  end.

Definition noOccurrenceb (s tok : JSString) (lo hi : Z) : bool :=
  noOccurrenceFrom s tok lo (Z.to_nat (hi - lo + 1)).

(** ** Vocabulary for the further properties *)

(** A language offers no block comment: it has no comment configuration, or
    one of the two tokens is absent or empty. *)
Definition unsupportedLanguage (registry : CommentsRegistry)
    (languageId : LanguageId) : Prop :=
  registry languageId = None \/
  exists config,
    registry languageId = Some config /\
    (absentOrEmpty (blockCommentStartToken config) \/
     absentOrEmpty (blockCommentEndToken config)).

(** A range stays on one line and does not run backwards. *)
Definition singleLine (r : Range) : Prop :=
  startLineNumber r = endLineNumber r /\ startColumn r <= endColumn r.

(** The characters of [line] from column [c1] up to, not including, column
    [c2]. *)
Definition textInLine (line : JSString) (c1 c2 : Z) : JSString :=
  firstn (Z.to_nat (c2 - c1)) (skipn (Z.to_nat (c1 - 1)) line).

Section FurtherVocabulary.
Context {M : Type} `{TM : ITokenizedModel M}.

(** The language [getEditOperations] resolves for a command. *)
Definition resolvedLanguage (this : BlockCommentCommand) (model : M)
    : LanguageId :=
  let startLineNumber := startLineNumber (selectionRange (_selection this)) in
  let startColumn := startColumn (selectionRange (_selection this)) in
  getLanguageIdAtPosition (tokenizeIfCheap model startLineNumber)
                          startLineNumber startColumn.

(** What the operations of a plan delete from the text of [model], one
    operation after the other.  Each operation is read on the line its range
    starts on. *)
Definition deletedText (model : M) (ops : IEditOperationBuilder) : JSString :=
  List.concat
    (map (fun op =>
            textInLine (getLineContent model (startLineNumber (fst op)))
                       (startColumn (fst op)) (endColumn (fst op)))
         ops).

End FurtherVocabulary.

(** * Properties *)

(** ** Strings *)

Lemma strlen_nonneg s : 0 <= strlen s.
Proof. unfold strlen. lia. Qed.

Lemma strlen_app s t : strlen (s ++ t) = strlen s + strlen t.
Proof. unfold strlen. rewrite length_app. lia. Qed.

Lemma strlen_cons c s : strlen (c :: s) = 1 + strlen s.
Proof. unfold strlen. simpl List.length. lia. Qed.

Lemma strlen_SPACE : strlen SPACE = 1.
Proof. reflexivity. Qed.

Lemma charCodeAt_in_range s p :
  0 <= p < strlen s -> exists c, charCodeAt s p = Some c.
Proof.
  intros Hp. unfold charCodeAt.
  destruct (Z.ltb_spec p 0) as [Hn | _]; [lia |].
  destruct (nth_error s (Z.to_nat p)) as [c |] eqn:E.
  - exists c. reflexivity.
  - apply nth_error_None in E. unfold strlen in Hp. lia.
Qed.


Lemma charCodeAt_nat s (k : nat) : charCodeAt s (Z.of_nat k) = nth_error s k.
Proof.
  unfold charCodeAt.
  destruct (Z.ltb_spec (Z.of_nat k) 0) as [Hn | _]; [lia |].
  rewrite Nat2Z.id. reflexivity.
Qed.




Lemma strictEq_true a b : strictEq a b = true -> a = b.
Proof.
  destruct a as [x |], b as [y |]; simpl; try discriminate.
  intros H. apply Z.eqb_eq in H. congruence.
Qed.

Lemma startsWith_app search rest : startsWith search (search ++ rest) = true.
Proof.
  induction search as [| a search IH]; simpl; [reflexivity |].
  rewrite Z.eqb_refl. exact IH.
Qed.

Lemma startsWith_true search s :
  startsWith search s = true <-> exists rest, s = search ++ rest.
Proof.
  split.
  - revert s. induction search as [| a search IH]; intros s H.
    + exists s. reflexivity.
    + destruct s as [| b s]; simpl in H; [discriminate |].
      apply andb_true_iff in H. destruct H as [Hab H].
      apply Z.eqb_eq in Hab. destruct (IH _ H) as [rest ->].
      exists rest. subst b. reflexivity.
  - intros [rest ->]. apply startsWith_app.
Qed.

Lemma startsWith_length search s :
  startsWith search s = true -> (List.length search <= List.length s)%nat.
Proof.
  intros H. apply startsWith_true in H. destruct H as [rest ->].
  rewrite length_app. lia.
Qed.

Lemma startsWith_nth search s :
  startsWith search s = true <->
  (List.length search <= List.length s)%nat /\
  forall i, (i < List.length search)%nat -> nth_error s i = nth_error search i.
Proof.
  revert s. induction search as [| a search IH]; intros s; simpl.
  - split; [| reflexivity]. intros _. split; [lia |]. intros i Hi. lia.
  - destruct s as [| b s]; simpl.
    + split; [discriminate |]. intros [H _]. lia.
    + rewrite andb_true_iff, Z.eqb_eq, IH. split.
      * intros [-> [Hl Hn]]. split; [lia |].
        intros [| i] Hi; simpl; [reflexivity |]. apply Hn. lia.
      * intros [Hl Hn]. split; [| split; [lia |]].
        -- specialize (Hn O ltac:(lia)). simpl in Hn. congruence.
        -- intros i Hi. apply (Hn (S i)). lia.
Qed.

(** [lastIndexDown] finds the largest occurrence not behind [k]. *)
Lemma lastIndexDown_Some s search k j :
  lastIndexDown s search k = Some j <->
  (j <= k)%nat /\ startsWith search (skipn j s) = true /\
  forall i, (j < i <= k)%nat -> startsWith search (skipn i s) = false.
Proof.
  induction k as [| k IH]; cbn [lastIndexDown].
  - destruct (startsWith search (skipn 0 s)) eqn:E.
    + split.
      * intros [= Hjk]; subst j. split; [lia |]. split; [exact E |]. intros i Hi. lia.
      * intros [Hj _]. f_equal. lia.
    + split; [discriminate |]. intros [Hj [Hs _]].
      assert (j = O) by lia. subst j. congruence.
  - destruct (startsWith search (skipn (S k) s)) eqn:E.
    + split.
      * intros [= Hjk]; subst j. split; [lia |]. split; [exact E |]. intros i Hi. lia.
      * intros [Hj [Hs Hno]]. f_equal.
        destruct (Nat.eq_dec j (S k)) as [-> | Hne]; [reflexivity |].
        rewrite (Hno (S k)) in E by lia. discriminate.
    + rewrite IH. split.
      * intros [Hj [Hs Hno]]. split; [lia |]. split; [exact Hs |].
        intros i Hi. destruct (Nat.eq_dec i (S k)) as [-> | Hne]; [exact E |].
        apply Hno. lia.
      * intros [Hj [Hs Hno]].
        assert (j <> S k) by (intros ->; congruence).
        split; [lia |]. split; [exact Hs |]. intros i Hi. apply Hno. lia.
Qed.

Lemma lastIndexDown_None s search k :
  lastIndexDown s search k = None <->
  forall i, (i <= k)%nat -> startsWith search (skipn i s) = false.
Proof.
  induction k as [| k IH]; cbn [lastIndexDown].
  - destruct (startsWith search (skipn 0 s)) eqn:E.
    + split; [discriminate |]. intros H. rewrite (H O) in E by lia. discriminate.
    + split; [| reflexivity]. intros _ i Hi.
      assert (i = O) by lia. subst i. exact E.
  - destruct (startsWith search (skipn (S k) s)) eqn:E.
    + split; [discriminate |]. intros H. rewrite (H (S k)) in E by lia.
      discriminate.
    + rewrite IH. split.
      * intros H i Hi. destruct (Nat.eq_dec i (S k)) as [-> | Hne]; [exact E |].
        apply H. lia.
      * intros H i Hi. apply H. lia.
Qed.

(** [firstIndexUp] finds the smallest occurrence in the suffix it is given. *)
Lemma firstIndexUp_Some search s k j :
  firstIndexUp search s k = Some j <->
  (k <= j <= k + List.length s)%nat /\
  startsWith search (skipn (j - k) s) = true /\
  forall i, (k <= i < j)%nat -> startsWith search (skipn (i - k) s) = false.
Proof.
  revert k. induction s as [| c s IH]; intros k; cbn [firstIndexUp].
  - destruct (startsWith search []) eqn:E.
    + split.
      * intros [= Hjk]; subst j. simpl. split; [lia |]. rewrite skipn_nil.
        split; [exact E |]. intros i Hi. lia.
      * intros [Hj _]. simpl in Hj. f_equal. lia.
    + split; [discriminate |]. intros [_ [Hs _]].
      rewrite skipn_nil in Hs. congruence.
  - destruct (startsWith search (c :: s)) eqn:E.
    + split.
      * intros [= Hjk]; subst j. simpl List.length. split; [lia |].
        rewrite Nat.sub_diag. split; [exact E |]. intros i Hi. lia.
      * intros [Hj [Hs Hno]]. f_equal.
        destruct (Nat.eq_dec j k) as [-> | Hne]; [reflexivity |].
        specialize (Hno k ltac:(lia)). rewrite Nat.sub_diag in Hno.
        simpl in Hno. congruence.
    + rewrite IH. simpl List.length. split.
      * intros [Hj [Hs Hno]]. split; [lia |]. split.
        -- replace (j - k)%nat with (S (j - S k)) by lia. exact Hs.
        -- intros i Hi. destruct (Nat.eq_dec i k) as [-> | Hne].
           ++ rewrite Nat.sub_diag. exact E.
           ++ replace (i - k)%nat with (S (i - S k)) by lia.
              apply Hno. lia.
      * intros [Hj [Hs Hno]].
        assert (j <> k).
        { intros ->. rewrite Nat.sub_diag in Hs. simpl in Hs. congruence. }
        split; [lia |]. split.
        -- replace (j - k)%nat with (S (j - S k)) in Hs by lia. exact Hs.
        -- intros i Hi. specialize (Hno i ltac:(lia)).
           replace (i - k)%nat with (S (i - S k)) in Hno by lia. exact Hno.
Qed.

Lemma firstIndexUp_None search s k :
  firstIndexUp search s k = None <->
  forall i, (i <= List.length s)%nat -> startsWith search (skipn i s) = false.
Proof.
  revert k. induction s as [| c s IH]; intros k; cbn [firstIndexUp].
  - destruct (startsWith search []) eqn:E.
    + split; [discriminate |]. intros H. specialize (H O ltac:(simpl; lia)).
      simpl in H. congruence.
    + split; [| reflexivity]. intros _ i _. rewrite skipn_nil. exact E.
  - destruct (startsWith search (c :: s)) eqn:E.
    + split; [discriminate |]. intros H. specialize (H O ltac:(lia)).
      simpl in H. congruence.
    + rewrite IH. simpl List.length. split.
      * intros H [| i] Hi; [exact E |]. simpl. apply H. lia.
      * intros H i Hi. apply (H (S i)). lia.
Qed.

(** ** The substring matcher *)

Lemma haystackHasNeedleAtOffset_loop_true haystack needle offset fuel :
  forall i,
    _haystackHasNeedleAtOffset_loop haystack needle offset i fuel = true <->
    forall j, i <= j < i + Z.of_nat fuel ->
      strictEq (charCodeAt haystack (offset + j)) (charCodeAt needle j) = true.
Proof.
  induction fuel as [| fuel IH]; intros i; cbn [_haystackHasNeedleAtOffset_loop].
  - split; [| reflexivity]. intros _ j Hj. lia.
  - unfold strictNeq.
    destruct (strictEq (charCodeAt haystack (offset + i)) (charCodeAt needle i))
      eqn:E; cbn [negb].
    + rewrite IH. split.
      * intros H j Hj. destruct (Z.eq_dec j i) as [-> | Hne]; [exact E |].
        apply H. lia.
      * intros H j Hj. apply H. lia.
    + split; [discriminate |]. intros H.
      rewrite (H i) in E by lia. discriminate.
Qed.

Lemma haystackHasNeedleAtOffset_spec (haystack needle : JSString) (offset : Z) :
  (offset < 0 \/ offset + strlen needle > strlen haystack ->
   _haystackHasNeedleAtOffset haystack needle offset = false) /\
  (0 <= offset /\ offset + strlen needle <= strlen haystack ->
   (_haystackHasNeedleAtOffset haystack needle offset = true <->
    forall i, 0 <= i < strlen needle ->
      charCodeAt haystack (offset + i) = charCodeAt needle i)).
Proof.
  unfold _haystackHasNeedleAtOffset. split.
  - intros [Hneg | Hlong].
    + destruct (Z.ltb_spec offset 0); [reflexivity | lia].
    + destruct (Z.ltb_spec offset 0); [reflexivity |].
      destruct (Z.gtb_spec (offset + strlen needle) (strlen haystack));
        [reflexivity | lia].
  - intros [Hoff Hfit].
    destruct (Z.ltb_spec offset 0); [lia |].
    destruct (Z.gtb_spec (offset + strlen needle) (strlen haystack)); [lia |].
    rewrite haystackHasNeedleAtOffset_loop_true.
    pose proof (strlen_nonneg needle) as Hn.
    rewrite Z2Nat.id by exact Hn. split.
    + intros Hall i Hi. apply strictEq_true. apply Hall. lia.
    + intros Hall i Hi. rewrite Hall by lia.
      destruct (charCodeAt_in_range needle i ltac:(lia)) as [c ->].
      simpl. apply Z.eqb_refl.
Qed.

(** C9.  The matcher is a total function to booleans, so it never fails.
    It answers false when the offset is negative or when the needle would
    run past the end of the haystack; in every other case it answers true
    exactly when each character code of the needle is the character code of
    the haystack at the corresponding position. *)
Theorem haystackHasNeedleAtOffset_correct (haystack needle : JSString) (offset : Z) :
  (offset < 0 \/ offset + strlen needle > strlen haystack ->
   _haystackHasNeedleAtOffset haystack needle offset = false) /\
  (0 <= offset /\ offset + strlen needle <= strlen haystack ->
   (_haystackHasNeedleAtOffset haystack needle offset = true <->
    forall i, 0 <= i < strlen needle ->
      charCodeAt haystack (offset + i) = charCodeAt needle i)).
Proof. exact (haystackHasNeedleAtOffset_spec haystack needle offset). Qed.

Lemma haystackHasNeedleAtOffset_correct_witness :
  _haystackHasNeedleAtOffset (str "a /* b") (str "/*") (-1) = false /\
  (_haystackHasNeedleAtOffset (str "a /* b") (str "/*") 2 = true <->
   forall i, 0 <= i < strlen (str "/*") ->
     charCodeAt (str "a /* b") (2 + i) = charCodeAt (str "/*") i).
Proof.
  split.
  - apply (proj1 (haystackHasNeedleAtOffset_correct
                    (str "a /* b") (str "/*") (-1))).
    left. lia.
  - apply (proj2 (haystackHasNeedleAtOffset_correct
                    (str "a /* b") (str "/*") 2)).
    vm_compute. split; discriminate.
Defined.

Lemma nth_error_skipn {A} (l : list A) k i :
  nth_error (skipn k l) i = nth_error l (k + i).
Proof.
  revert l. induction k as [| k IH]; intros l; [reflexivity |].
  destruct l as [| a l]; simpl.
  - destruct i; reflexivity.
  - apply IH.
Qed.

(** The matcher and [startsWith] see the same occurrences. *)
Lemma haystackHasNeedleAtOffset_startsWith haystack needle (k : nat) :
  _haystackHasNeedleAtOffset haystack needle (Z.of_nat k) = true <->
  (k <= List.length haystack)%nat /\ startsWith needle (skipn k haystack) = true.
Proof.
  pose proof (haystackHasNeedleAtOffset_spec haystack needle (Z.of_nat k))
    as [Hout Hin].
  rewrite startsWith_nth, length_skipn.
  destruct (Z_le_gt_dec (Z.of_nat k + strlen needle) (strlen haystack))
    as [Hfit | Hlong].
  - rewrite (Hin (conj (Nat2Z.is_nonneg k) Hfit)). unfold strlen in *. split.
    + intros H. split; [lia |]. split; [lia |].
      intros i Hi. rewrite nth_error_skipn.
      specialize (H (Z.of_nat i) ltac:(lia)).
      rewrite <- Nat2Z.inj_add, !charCodeAt_nat in H. exact H.
    + intros [_ [_ H]] i Hi.
      specialize (H (Z.to_nat i) ltac:(lia)). rewrite nth_error_skipn in H.
      replace (Z.of_nat k + i) with (Z.of_nat (k + Z.to_nat i)) by lia.
      replace i with (Z.of_nat (Z.to_nat i)) at 2 by lia.
      rewrite !charCodeAt_nat. exact H.
  - rewrite (Hout (or_intror Hlong)). unfold strlen in *.
    split; [discriminate |]. intros [H1 [H2 _]]. lia.
Qed.

Lemma haystackHasNeedleAtOffset_bounds haystack needle k :
  _haystackHasNeedleAtOffset haystack needle k = true ->
  0 <= k /\ k + strlen needle <= strlen haystack.
Proof.
  intros H.
  pose proof (haystackHasNeedleAtOffset_spec haystack needle k) as [Hout _].
  destruct (Z_lt_le_dec k 0) as [Hn | Hn].
  { rewrite Hout in H by (left; exact Hn). discriminate. }
  destruct (Z_le_gt_dec (k + strlen needle) (strlen haystack)) as [Hf | Hf].
  { split; assumption. }
  rewrite Hout in H by (right; exact Hf). discriminate.
Qed.


(** ** The two searches, in terms of occurrences *)

Lemma haystackHasNeedleAtOffset_nat_false haystack needle j :
  (forall i : nat, Z.of_nat i = j -> (i <= List.length haystack)%nat ->
     startsWith needle (skipn i haystack) = false) ->
  _haystackHasNeedleAtOffset haystack needle j = false.
Proof.
  intros Hno.
  destruct (_haystackHasNeedleAtOffset haystack needle j) eqn:E;
    [| reflexivity].
  pose proof (haystackHasNeedleAtOffset_bounds _ _ _ E) as [Hj _].
  replace j with (Z.of_nat (Z.to_nat j)) in E by lia.
  apply haystackHasNeedleAtOffset_startsWith in E. destruct E as [Hle Hs].
  rewrite (Hno (Z.to_nat j)) in Hs by lia. discriminate.
Qed.

Lemma lastIndexOf_spec s tok bound :
  0 <= bound ->
  match lastIndexDown s tok (clampStart s bound) with
  | Some k => lastOccurrence s tok bound (Z.of_nat k)
  | None => forall j, j <= bound -> _haystackHasNeedleAtOffset s tok j = false
  end.
Proof.
  intros Hb. pose proof (strlen_nonneg s) as Hlen.
  assert (Hc : Z.of_nat (clampStart s bound) = Z.min bound (strlen s)).
  { unfold clampStart. lia. }
  destruct (lastIndexDown s tok (clampStart s bound)) as [k |] eqn:E.
  - apply lastIndexDown_Some in E. destruct E as [Hk [Hs Hno]].
    unfold strlen in *. split; [| split].
    + apply haystackHasNeedleAtOffset_startsWith. split; [lia | exact Hs].
    + lia.
    + intros j Hj. apply haystackHasNeedleAtOffset_nat_false.
      intros i Hi Hle. apply Hno. lia.
  - intros j Hj. apply haystackHasNeedleAtOffset_nat_false.
    intros i Hi Hle. unfold strlen in *.
    apply (proj1 (lastIndexDown_None _ _ _) E). lia.
Qed.

Lemma indexOf_spec s tok bound :
  tok <> [] ->
  match firstIndexUp tok (skipn (clampStart s bound) s) (clampStart s bound) with
  | Some k => firstOccurrence s tok bound (Z.of_nat k)
  | None => forall j, bound <= j -> _haystackHasNeedleAtOffset s tok j = false
  end.
Proof.
  intros Htok. pose proof (strlen_nonneg s) as Hlen.
  set (c := clampStart s bound).
  assert (Hc : Z.of_nat c = Z.min (Z.max bound 0) (strlen s)).
  { unfold c, clampStart. lia. }
  unfold strlen in *.
  destruct (firstIndexUp tok (skipn c s) c) as [k |] eqn:E.
  - apply firstIndexUp_Some in E. destruct E as [Hk [Hs Hno]].
    rewrite length_skipn in Hk. rewrite skipn_skipn in Hs.
    replace (k - c + c)%nat with k in Hs by lia.
    assert (Hkl : (k < List.length s)%nat).
    { apply startsWith_length in Hs. rewrite length_skipn in Hs.
      destruct tok; [congruence |]. simpl in Hs. lia. }
    split; [| split].
    + apply haystackHasNeedleAtOffset_startsWith. split; [lia | exact Hs].
    + lia.
    + intros j Hj. apply haystackHasNeedleAtOffset_nat_false.
      intros i Hi Hle. specialize (Hno i ltac:(lia)).
      rewrite skipn_skipn in Hno.
      replace (i - c + c)%nat with i in Hno by lia. exact Hno.
  - intros j Hj. apply haystackHasNeedleAtOffset_nat_false.
    intros i Hi Hle.
    destruct (Nat.le_gt_cases c i) as [Hci | Hci].
    + pose proof (proj1 (firstIndexUp_None _ _ _) E (i - c)%nat) as Hno.
      rewrite length_skipn, skipn_skipn in Hno.
      replace (i - c + c)%nat with i in Hno by lia. apply Hno. lia.
    + destruct (startsWith tok (skipn i s)) eqn:Es; [| reflexivity].
      apply startsWith_length in Es. rewrite length_skipn in Es.
      destruct tok; [congruence |]. simpl in Es. lia.
Qed.

Lemma lastOccurrence_unique s tok bound k k' :
  lastOccurrence s tok bound k -> lastOccurrence s tok bound k' -> k = k'.
Proof.
  intros [H1 [H2 H3]] [H1' [H2' H3']].
  destruct (Z.lt_trichotomy k k') as [Hlt | [Heq | Hgt]]; [| exact Heq |].
  - rewrite (H3 k') in H1' by lia. discriminate.
  - rewrite (H3' k) in H1 by lia. discriminate.
Qed.

Lemma firstOccurrence_unique s tok bound k k' :
  firstOccurrence s tok bound k -> firstOccurrence s tok bound k' -> k = k'.
Proof.
  intros [H1 [H2 H3]] [H1' [H2' H3']].
  destruct (Z.lt_trichotomy k k') as [Hlt | [Heq | Hgt]]; [| exact Heq |].
  - rewrite (H3' k) in H1 by lia. discriminate.
  - rewrite (H3 k') in H1' by lia. discriminate.
Qed.

Lemma lastIndexOf_inv s tok bound :
  0 <= bound ->
  (lastIndexOf s tok bound = -1 /\
   forall j, j <= bound -> _haystackHasNeedleAtOffset s tok j = false) \/
  (0 <= lastIndexOf s tok bound /\
   lastOccurrence s tok bound (lastIndexOf s tok bound)).
Proof.
  intros Hb. pose proof (lastIndexOf_spec s tok bound Hb) as H.
  unfold lastIndexOf.
  destruct (lastIndexDown s tok (clampStart s bound)) as [k |]; simpl.
  - right. split; [lia | exact H].
  - left. split; [reflexivity | exact H].
Qed.

Lemma indexOf_inv s tok bound :
  tok <> [] ->
  (indexOf s tok bound = -1 /\
   forall j, bound <= j -> _haystackHasNeedleAtOffset s tok j = false) \/
  (0 <= indexOf s tok bound /\
   firstOccurrence s tok bound (indexOf s tok bound)).
Proof.
  intros Ht. pose proof (indexOf_spec s tok bound Ht) as H.
  unfold indexOf.
  destruct (firstIndexUp tok (skipn (clampStart s bound) s) (clampStart s bound))
    as [k |]; simpl.
  - right. split; [lia | exact H].
  - left. split; [reflexivity | exact H].
Qed.

Lemma lastIndexOf_found s tok bound k :
  0 <= bound -> lastOccurrence s tok bound k -> lastIndexOf s tok bound = k.
Proof.
  intros Hb Hk. destruct (lastIndexOf_inv s tok bound Hb) as [[_ Hno] | [_ Hl]].
  - destruct Hk as [Hk1 [Hk2 _]]. rewrite Hno in Hk1 by exact Hk2. discriminate.
  - apply (lastOccurrence_unique _ _ _ _ _ Hl Hk).
Qed.


Lemma indexOf_found s tok bound k :
  tok <> [] -> firstOccurrence s tok bound k -> indexOf s tok bound = k.
Proof.
  intros Ht Hk. destruct (indexOf_inv s tok bound Ht) as [[_ Hno] | [_ Hl]].
  - destruct Hk as [Hk1 [Hk2 _]]. rewrite Hno in Hk1 by exact Hk2. discriminate.
  - apply (firstOccurrence_unique _ _ _ _ _ Hl Hk).
Qed.


(** ** The plan builders *)

Section BuilderProperties.
Context `{RC : RangeConstructor}.

Lemma newRange_same_line l c1 c2 :
  c1 <= c2 -> newRange l c1 l c2 = mkRange l c1 l c2.
Proof. intros H. apply newRange_ordered. right. split; [reflexivity | exact H]. Qed.

Lemma Range_isEmpty_true r :
  Range_isEmpty r = true <->
  startLineNumber r = endLineNumber r /\ startColumn r = endColumn r.
Proof.
  unfold Range_isEmpty. rewrite andb_true_iff, !Z.eqb_eq. reflexivity.
Qed.

Lemma submitAll_tracked ops builder :
  submitAll ops builder = builder ++ tracked ops.
Proof.
  unfold submitAll, tracked, addTrackedEditOperation.
  revert builder. induction ops as [| op ops IH]; intros builder; simpl.
  - symmetry. apply app_nil_r.
  - rewrite IH, <- app_assoc. reflexivity.
Qed.

Lemma createRemoveBlockCommentOperations_shape
    (r : Range) (startToken endToken : JSString) :
  (Range_isEmpty r = false ->
   _createRemoveBlockCommentOperations r startToken endToken =
   [ {| range := mkRange (startLineNumber r)
                         (startColumn r - strlen startToken)
                         (startLineNumber r) (startColumn r);
        text := [] |};
     {| range := mkRange (endLineNumber r) (endColumn r)
                         (endLineNumber r)
                         (endColumn r + strlen endToken);
        text := [] |} ]) /\
  (Range_isEmpty r = true ->
   _createRemoveBlockCommentOperations r startToken endToken =
   [ {| range := mkRange (startLineNumber r)
                         (startColumn r - strlen startToken)
                         (endLineNumber r)
                         (endColumn r + strlen endToken);
        text := [] |} ]).
Proof.
  pose proof (strlen_nonneg startToken) as Hs.
  pose proof (strlen_nonneg endToken) as He.
  unfold _createRemoveBlockCommentOperations, EditOperation_delete.
  split; intros Hr; rewrite Hr; cbn [negb].
  - rewrite !newRange_same_line by lia. reflexivity.
  - apply Range_isEmpty_true in Hr. destruct Hr as [Hl Hc].
    rewrite newRange_ordered; [reflexivity |]. right. split; [exact Hl | lia].
Qed.

(** C5.  For a content range that is not collapsed the remove plan is two
    deletions, of [strlen startToken] columns ending at the start of the
    range and of [strlen endToken] columns beginning at its end; for a
    collapsed content range it is one deletion that runs from
    [strlen startToken] columns before the range to [strlen endToken]
    columns after it. *)
Theorem createRemoveBlockCommentOperations_correct
    (r : Range) (startToken endToken : JSString) :
  (Range_isEmpty r = false ->
   _createRemoveBlockCommentOperations r startToken endToken =
   [ {| range := mkRange (startLineNumber r)
                         (startColumn r - strlen startToken)
                         (startLineNumber r) (startColumn r);
        text := [] |};
     {| range := mkRange (endLineNumber r) (endColumn r)
                         (endLineNumber r)
                         (endColumn r + strlen endToken);
        text := [] |} ]) /\
  (Range_isEmpty r = true ->
   _createRemoveBlockCommentOperations r startToken endToken =
   [ {| range := mkRange (startLineNumber r)
                         (startColumn r - strlen startToken)
                         (endLineNumber r)
                         (endColumn r + strlen endToken);
        text := [] |} ]).
Proof.
  exact (createRemoveBlockCommentOperations_shape r startToken endToken).
Qed.

(** The add plan alone: two insertions around a range that is not
    collapsed, one replacement of a collapsed range. *)
Lemma createAddBlockCommentOperations_shape
    (r : Range) (startToken endToken : JSString) :
  (Range_isEmpty r = false ->
   _createAddBlockCommentOperations r startToken endToken =
   [ {| range := mkRange (startLineNumber r) (startColumn r)
                         (startLineNumber r) (startColumn r);
        text := startToken ++ SPACE |};
     {| range := mkRange (endLineNumber r) (endColumn r)
                         (endLineNumber r) (endColumn r);
        text := SPACE ++ endToken |} ]) /\
  (Range_isEmpty r = true ->
   _createAddBlockCommentOperations r startToken endToken =
   [ {| range := r;
        text := startToken ++ SPACE ++ SPACE ++ endToken |} ]).
Proof.
  unfold _createAddBlockCommentOperations, EditOperation_insert,
    EditOperation_replace.
  split; intros Hr; rewrite Hr; cbn [negb lineNumber column].
  - rewrite !newRange_same_line by lia. reflexivity.
  - apply Range_isEmpty_true in Hr. destruct Hr as [Hl Hc].
    rewrite newRange_ordered by (right; split; [exact Hl | lia]).
    destruct r; reflexivity.
Qed.

(** No operation of a remove plan carries text, every operation of an add
    plan does; so no plan is both. *)
Lemma remove_plan_text r startToken endToken op :
  In op (_createRemoveBlockCommentOperations r startToken endToken) ->
  text op = [].
Proof.
  unfold _createRemoveBlockCommentOperations.
  destruct (negb (Range_isEmpty r)); simpl;
    intros H; repeat (destruct H as [<- | H]; [reflexivity |]);
    contradiction.
Qed.

Lemma add_plan_text r startToken endToken op :
  In op (_createAddBlockCommentOperations r startToken endToken) ->
  text op <> [].
Proof.
  unfold _createAddBlockCommentOperations.
  destruct (negb (Range_isEmpty r)); simpl;
    intros H; repeat (destruct H as [<- | H]; [simpl |]);
    try contradiction.
  - intros E. apply app_eq_nil in E. destruct E as [_ E]. discriminate.
  - discriminate.
  - intros E. apply app_eq_nil in E. destruct E as [_ E]. discriminate.
Qed.

Lemma add_plan_not_nil r startToken endToken :
  _createAddBlockCommentOperations r startToken endToken <> [].
Proof.
  unfold _createAddBlockCommentOperations.
  destruct (negb (Range_isEmpty r)); discriminate.
Qed.

Lemma add_plan_is_no_remove_plan r startToken endToken r' startToken' endToken'
    builder :
  submitAll (_createAddBlockCommentOperations r startToken endToken) builder
  <> submitAll
       (_createRemoveBlockCommentOperations r' startToken' endToken') builder.
Proof.
  rewrite !submitAll_tracked. intros E. apply app_inv_head in E.
  pose proof (add_plan_text r startToken endToken) as Ha.
  pose proof (remove_plan_text r' startToken' endToken') as Hr.
  pose proof (add_plan_not_nil r startToken endToken) as Hn.
  destruct (_createAddBlockCommentOperations r startToken endToken)
    as [| a ops]; [congruence |].
  destruct (_createRemoveBlockCommentOperations r' startToken' endToken')
    as [| d ops']; [discriminate |].
  simpl in E. injection E as _ Et _.
  apply (Ha a (or_introl eq_refl)). rewrite Et.
  apply (Hr d (or_introl eq_refl)).
Qed.

(** C10.  Every operation of an add plan replaces an empty range: the line
    it is applied to keeps all its characters, the text of the operation
    going between those before the range and those behind it. *)
Theorem createAddBlockCommentOperations_inserts_only
    (r : Range) (startToken endToken : JSString)
    (op : IIdentifiedSingleEditOperation) :
  In op (_createAddBlockCommentOperations r startToken endToken) ->
  Range_isEmpty (range op) = true /\
  forall line, exists before behind,
    line = before ++ behind /\
    replaceInLine line (startColumn (range op)) (endColumn (range op))
                  (text op)
    = before ++ text op ++ behind.
Proof.
  intros Hin.
  assert (He : Range_isEmpty (range op) = true).
  { destruct (Range_isEmpty r) eqn:Hr.
    - rewrite (proj2 (createAddBlockCommentOperations_shape r _ _) Hr) in Hin.
      destruct Hin as [<- | []]. exact Hr.
    - rewrite (proj1 (createAddBlockCommentOperations_shape r _ _) Hr) in Hin.
      destruct Hin as [<- | [<- | []]]; unfold Range_isEmpty; simpl;
        rewrite !Z.eqb_refl; reflexivity. }
  split; [exact He |]. intros line.
  apply Range_isEmpty_true in He. destruct He as [_ Hc].
  exists (firstn (Z.to_nat (startColumn (range op) - 1)) line),
         (skipn (Z.to_nat (startColumn (range op) - 1)) line).
  split.
  - symmetry. apply firstn_skipn.
  - unfold replaceInLine. rewrite <- Hc. reflexivity.
Qed.

End BuilderProperties.

Lemma createAddBlockCommentOperations_inserts_only_witness :
  Range_isEmpty (mkRange 1 3 1 3) = true /\
  forall line, exists before behind,
    line = before ++ behind /\
    replaceInLine line 3 3 (str "/*  */") = before ++ str "/*  */" ++ behind.
Proof.
  apply (createAddBlockCommentOperations_inserts_only (RC := plainRange)
           (mkRange 1 3 1 3) (str "/*") (str "*/")
           {| range := mkRange 1 3 1 3; text := str "/*  */" |}).
  vm_compute. left. reflexivity.
Defined.

(** ** Classification *)

Section Classification.
Context `{RC : RangeConstructor}.
Context {M : Type} `{TM : ITokenizedModel M}.

Variable this : BlockCommentCommand.
Variable selection : Range.
Variable model : M.
Variable builder : IEditOperationBuilder.
Variable lineToken : option JSString.
Variables startToken endToken : JSString.

Let config := mkComments lineToken (Some startToken) (Some endToken).
Let startLine := getLineContent model (startLineNumber selection).
Let endLine := getLineContent model (endLineNumber selection).
Let outcome :=
  _createOperationsForBlockComment this selection config model builder.

Lemma addOutcome_is_no_removeOutcome :
  ~ isRemoveOutcome this builder
      (addOutcome this selection startToken endToken builder).
Proof.
  intros [content [st [et E]]]. unfold addOutcome, removeOutcome in E.
  injection E as _ E. exact (add_plan_is_no_remove_plan _ _ _ _ _ _ _ E).
Qed.

(** The three ways through [_createOperationsForBlockComment]. *)
Lemma createOperationsForBlockComment_unfold :
  outcome =
  let startTokenIndex :=
    lastIndexOf startLine startToken
                (startColumn selection - 1 + strlen startToken) in
  let endTokenIndex :=
    indexOf endLine endToken (endColumn selection - 1 - strlen endToken) in
  if negb (startTokenIndex =? -1) && negb (endTokenIndex =? -1) then
    if lastIndexOf startLine endToken
         (startColumn selection - 1 + strlen endToken)
       >? startTokenIndex + strlen startToken - 1
    then addOutcome this selection startToken endToken builder
    else
      let a := isSpaceAt startLine (startTokenIndex + strlen startToken) in
      let b := isSpaceAt endLine (endTokenIndex - 1) in
      removeOutcome this
        (newRange (startLineNumber selection)
                  (startTokenIndex + 1 + strlen (startToken ++ spaceIf a))
                  (endLineNumber selection)
                  (endTokenIndex - Z.b2z b + 1))
        (startToken ++ spaceIf a) (spaceIf b ++ endToken) builder
  else addOutcome this selection startToken endToken builder.
Proof.
  unfold outcome, _createOperationsForBlockComment, config, addOutcome,
    removeOutcome, isSpaceAt, startLine, endLine.
  cbn [blockCommentStartToken blockCommentEndToken].
  cbv zeta.
  destruct (negb (lastIndexOf _ startToken _ =? -1)
            && negb (indexOf _ endToken _ =? -1)); [| reflexivity].
  destruct (lastIndexOf _ endToken _ >? _); [reflexivity |].
  destruct (strictEq (charCodeAt (getLineContent model (startLineNumber selection)) _) _);
    destruct (strictEq (charCodeAt (getLineContent model (endLineNumber selection)) _) _);
    cbn [spaceIf Z.b2z]; rewrite ?app_nil_r, ?Z.sub_0_r; reflexivity.
Qed.

Hypothesis startToken_not_empty : startToken <> [].
Hypothesis endToken_not_empty : endToken <> [].
Hypothesis startColumn_from_1 : 1 <= startColumn selection.

Lemma strlen_pos s : s <> [] -> 1 <= strlen s.
Proof.
  destruct s; [congruence |]. intros _. rewrite strlen_cons.
  pose proof (strlen_nonneg s). lia.
Qed.

(** With both tokens found the third search decides. *)
Lemma located_outcome i j :
  lastOccurrence startLine startToken
    (startColumn selection - 1 + strlen startToken) i ->
  firstOccurrence endLine endToken
    (endColumn selection - 1 - strlen endToken) j ->
  (closedBeforeSelection startLine startToken endToken
     (startColumn selection) i /\
   outcome = addOutcome this selection startToken endToken builder) \/
  (~ closedBeforeSelection startLine startToken endToken
       (startColumn selection) i /\
   outcome =
   removeOutcome this
     (newRange (startLineNumber selection)
        (i + 1 + strlen (startToken
                         ++ spaceIf (isSpaceAt startLine (i + strlen startToken))))
        (endLineNumber selection)
        (j - Z.b2z (isSpaceAt endLine (j - 1)) + 1))
     (startToken ++ spaceIf (isSpaceAt startLine (i + strlen startToken)))
     (spaceIf (isSpaceAt endLine (j - 1)) ++ endToken) builder).
Proof.
  intros Hi Hj.
  pose proof (strlen_pos _ startToken_not_empty) as Hs.
  pose proof (strlen_pos _ endToken_not_empty) as He.
  pose proof (haystackHasNeedleAtOffset_bounds _ _ _ (proj1 Hi)) as [Hi0 _].
  pose proof (haystackHasNeedleAtOffset_bounds _ _ _ (proj1 Hj)) as [Hj0 _].
  rewrite createOperationsForBlockComment_unfold. cbv zeta.
  rewrite (lastIndexOf_found _ _ _ i) by (lia || exact Hi).
  rewrite (indexOf_found _ _ _ j endToken_not_empty Hj).
  destruct (Z.eqb_spec i (-1)) as [? | _]; [lia |].
  destruct (Z.eqb_spec j (-1)) as [? | _]; [lia |].
  cbn [negb andb].
  destruct (lastIndexOf_inv startLine endToken
              (startColumn selection - 1 + strlen endToken) ltac:(lia))
    as [[Hk Hno] | [Hk0 Hk]].
  - rewrite Hk.
    destruct (Z.gtb_spec (-1) (i + strlen startToken - 1)) as [? | _]; [lia |].
    right. split; [| reflexivity].
    intros [k [[Hk1 [Hk2 _]] _]]. rewrite Hno in Hk1 by exact Hk2.
    discriminate.
  - destruct (Z.gtb_spec
                (lastIndexOf startLine endToken
                   (startColumn selection - 1 + strlen endToken))
                (i + strlen startToken - 1)) as [Hgt | Hle].
    + left. split; [| reflexivity]. eexists. split; [exact Hk | lia].
    + right. split; [| reflexivity]. intros [k [Hk' Hlt]].
      rewrite (lastOccurrence_unique _ _ _ _ _ Hk Hk') in Hle. lia.
Qed.

(** C2.  When the start token is found (its last occurrence on the start
    line at or before [startColumn - 1 + strlen startToken]) and the end
    token is found (its first occurrence on the end line at or after
    [endColumn - 1 - strlen endToken]), the add plan is produced exactly
    when the last occurrence of the end token on the start line, searched
    with the bias of the first search taken for the end token (at or
    before [startColumn - 1 + strlen endToken]), begins behind the last
    character of the start token that was found; otherwise a remove plan
    is produced.  When one of the two tokens is not found the add plan is
    produced. *)
Theorem classification_correct :
  (forall i j,
     lastOccurrence startLine startToken
       (startColumn selection - 1 + strlen startToken) i ->
     firstOccurrence endLine endToken
       (endColumn selection - 1 - strlen endToken) j ->
     (outcome = addOutcome this selection startToken endToken builder <->
      closedBeforeSelection startLine startToken endToken
        (startColumn selection) i) /\
     (isRemoveOutcome this builder outcome <->
      ~ closedBeforeSelection startLine startToken endToken
          (startColumn selection) i)) /\
  ((~ exists i, lastOccurrence startLine startToken
                  (startColumn selection - 1 + strlen startToken) i) \/
   (~ exists j, firstOccurrence endLine endToken
                  (endColumn selection - 1 - strlen endToken) j) ->
   outcome = addOutcome this selection startToken endToken builder).
Proof.
  split.
  - intros i j Hi Hj.
    destruct (located_outcome i j Hi Hj) as [[Hc Ho] | [Hc Ho]].
    + split; split; intros H; try assumption; try contradiction.
      exfalso. rewrite Ho in H.
      exact (addOutcome_is_no_removeOutcome H).
    + split; split; intros H; try assumption; try contradiction.
      * exfalso. apply addOutcome_is_no_removeOutcome.
        rewrite <- H, Ho. eexists _, _, _. reflexivity.
      * rewrite Ho. eexists _, _, _. reflexivity.
  - pose proof (strlen_pos _ startToken_not_empty) as Hs.
    intros Hnot. rewrite createOperationsForBlockComment_unfold. cbv zeta.
    destruct Hnot as [Hnot | Hnot].
    + destruct (lastIndexOf_inv startLine startToken
                  (startColumn selection - 1 + strlen startToken)
                  ltac:(lia)) as [[Hk _] | [_ Hk]].
      * rewrite Hk. reflexivity.
      * exfalso. apply Hnot. eexists. exact Hk.
    + destruct (indexOf_inv endLine endToken
                  (endColumn selection - 1 - strlen endToken)
                  endToken_not_empty) as [[Hk _] | [_ Hk]].
      * rewrite Hk. cbn [Z.eqb negb]. rewrite andb_false_r. reflexivity.
      * exfalso. apply Hnot. eexists. exact Hk.
Qed.

End Classification.

(** ** The two phases of the command *)

Section CommandProperties.
Context `{RC : RangeConstructor}.
Context {M : Type} `{TM : ITokenizedModel M}.

Lemma createOperationsForBlockComment_cases
    (this : BlockCommentCommand) (selection : Range) (model : M)
    (builder : IEditOperationBuilder) lineToken startToken endToken :
  let outcome :=
    _createOperationsForBlockComment this selection
      (mkComments lineToken (Some startToken) (Some endToken)) model builder in
  outcome = addOutcome this selection startToken endToken builder \/
  isRemoveOutcome this builder outcome.
Proof.
  cbv zeta. rewrite createOperationsForBlockComment_unfold. cbv zeta.
  destruct (_ && _); [| left; reflexivity].
  destruct (_ >? _); [left; reflexivity |].
  right. eexists _, _, _. reflexivity.
Qed.

(** When the add plan is what was submitted for a collapsed selection,
    the end token has been recorded. *)
Lemma add_plan_records_endToken
    (r : Range) (startToken endToken : JSString)
    (this this' : BlockCommentCommand) (model : M)
    (builder builder' : IEditOperationBuilder) lineToken :
  Range_isEmpty r = true ->
  _createOperationsForBlockComment this r
    (mkComments lineToken (Some startToken) (Some endToken))
    model builder = Some (this', builder') ->
  builder' =
  submitAll (_createAddBlockCommentOperations r startToken endToken)
            builder ->
  _usedEndToken this' = Some endToken.
Proof.
  intros Hr Hout Hb.
  destruct (createOperationsForBlockComment_cases this r model builder
              lineToken startToken endToken) as [Ha | [c [st [et Hrem]]]].
  - cbv zeta in Ha. rewrite Ha in Hout. unfold addOutcome in Hout.
    injection Hout as <- _.
    rewrite (proj2 (createAddBlockCommentOperations_shape r _ _) Hr).
    reflexivity.
  - exfalso. cbv zeta in Hrem. rewrite Hrem in Hout.
    unfold removeOutcome in Hout. injection Hout as _ Hb'.
    rewrite Hb in Hb'. symmetry in Hb'.
    exact (add_plan_is_no_remove_plan _ _ _ _ _ _ _ Hb').
Qed.

(** The add plan is taken when one of the two tokens is not found, and
    when both are found and an end token closes the comment before the
    selection. *)
Lemma add_classified_outcome
    (this : BlockCommentCommand) (selection : Range) (model : M)
    (builder : IEditOperationBuilder) (lineToken : option JSString)
    (startToken endToken : JSString) :
  startToken <> [] -> endToken <> [] -> 1 <= startColumn selection ->
  let startLine := getLineContent model (startLineNumber selection) in
  let endLine := getLineContent model (endLineNumber selection) in
  (~ (exists i, lastOccurrence startLine startToken
                  (startColumn selection - 1 + strlen startToken) i)) \/
  (~ (exists j, firstOccurrence endLine endToken
                  (endColumn selection - 1 - strlen endToken) j)) \/
  (exists i j,
     lastOccurrence startLine startToken
       (startColumn selection - 1 + strlen startToken) i /\
     firstOccurrence endLine endToken
       (endColumn selection - 1 - strlen endToken) j /\
     closedBeforeSelection startLine startToken endToken
       (startColumn selection) i) ->
  _createOperationsForBlockComment this selection
    (mkComments lineToken (Some startToken) (Some endToken)) model builder
  = addOutcome this selection startToken endToken builder.
Proof.
  intros Hst Het Hsc startLine endLine Hadd.
  pose proof (strlen_pos _ Hst) as Hs.
  destruct Hadd as [Hnot | [Hnot | [i [j [Hi [Hj Hclosed]]]]]].
  - rewrite createOperationsForBlockComment_unfold. cbv zeta.
    destruct (lastIndexOf_inv startLine startToken
                (startColumn selection - 1 + strlen startToken)
                ltac:(lia)) as [[Hk _] | [_ Hk]].
    + fold startLine. rewrite Hk. reflexivity.
    + exfalso. apply Hnot. eexists. exact Hk.
  - rewrite createOperationsForBlockComment_unfold. cbv zeta.
    destruct (indexOf_inv endLine endToken
                (endColumn selection - 1 - strlen endToken) Het)
      as [[Hk _] | [_ Hk]].
    + fold endLine. rewrite Hk. cbn [Z.eqb negb]. rewrite andb_false_r.
      reflexivity.
    + exfalso. apply Hnot. eexists. exact Hk.
  - destruct (located_outcome this selection model builder lineToken
                startToken endToken Hst Het Hsc i j Hi Hj)
      as [[_ Ho] | [Hopen _]]; [exact Ho | contradiction].
Qed.

(** C4.  Around a range that is not collapsed the add plan is two
    operations: [startToken] and a space inserted at the start of the
    range, a space and [endToken] inserted at its end.  For a collapsed
    range it is one operation that replaces the range by [startToken], two
    spaces and [endToken].  And whenever the command takes the add plan
    (a token is not found, or both are found and an end token closes the
    comment before the selection) it submits these operations behind what
    the builder holds and, for a collapsed selection, records [endToken] as
    the end token used; for one that is not collapsed it records none. *)
Theorem createAddBlockCommentOperations_correct
    (r : Range) (startToken endToken : JSString) :
  (Range_isEmpty r = false ->
   _createAddBlockCommentOperations r startToken endToken =
   [ {| range := mkRange (startLineNumber r) (startColumn r)
                         (startLineNumber r) (startColumn r);
        text := startToken ++ SPACE |};
     {| range := mkRange (endLineNumber r) (endColumn r)
                         (endLineNumber r) (endColumn r);
        text := SPACE ++ endToken |} ]) /\
  (Range_isEmpty r = true ->
   _createAddBlockCommentOperations r startToken endToken =
   [ {| range := r;
        text := startToken ++ SPACE ++ SPACE ++ endToken |} ]) /\
  (forall (this : BlockCommentCommand) (model : M)
          (builder : IEditOperationBuilder) (lineToken : option JSString),
     startToken <> [] -> endToken <> [] -> 1 <= startColumn r ->
     let startLine := getLineContent model (startLineNumber r) in
     let endLine := getLineContent model (endLineNumber r) in
     (~ (exists i, lastOccurrence startLine startToken
                     (startColumn r - 1 + strlen startToken) i)) \/
     (~ (exists j, firstOccurrence endLine endToken
                     (endColumn r - 1 - strlen endToken) j)) \/
     (exists i j,
        lastOccurrence startLine startToken
          (startColumn r - 1 + strlen startToken) i /\
        firstOccurrence endLine endToken
          (endColumn r - 1 - strlen endToken) j /\
        closedBeforeSelection startLine startToken endToken
          (startColumn r) i) ->
     let outcome :=
       _createOperationsForBlockComment this r
         (mkComments lineToken (Some startToken) (Some endToken))
         model builder in
     (Range_isEmpty r = true ->
      outcome =
      Some (mkCommand (_selection this) (Some endToken),
            builder ++
            [ (r, startToken ++ SPACE ++ SPACE ++ endToken) ])) /\
     (Range_isEmpty r = false ->
      outcome =
      Some (mkCommand (_selection this) None,
            builder ++
            [ (mkRange (startLineNumber r) (startColumn r)
                       (startLineNumber r) (startColumn r),
               startToken ++ SPACE);
              (mkRange (endLineNumber r) (endColumn r)
                       (endLineNumber r) (endColumn r),
               SPACE ++ endToken) ]))).
Proof.
  pose proof (createAddBlockCommentOperations_shape r startToken endToken)
    as [Htwo Hone].
  split; [exact Htwo |]. split; [exact Hone |].
  intros this model builder lineToken Hst Het Hsc startLine endLine Hadd
    outcome.
  assert (Hout : outcome = addOutcome this r startToken endToken builder).
  { exact (add_classified_outcome this r model builder lineToken
             startToken endToken Hst Het Hsc Hadd). }
  split; intros Hr; rewrite Hout; unfold addOutcome;
    rewrite submitAll_tracked.
  - rewrite (Hone Hr). reflexivity.
  - rewrite (Htwo Hr). reflexivity.
Qed.

(** With a model that answers every question put to it, the phase that
    produces the edit operations returns: its test on the configuration
    keeps the step that builds them away from a token that is absent. *)
Lemma getEditOperations_total this (model : M) builder registry :
  exists result, getEditOperations this model builder registry = Some result.
Proof.
  unfold getEditOperations.
  destruct (registry _) as [[lt [[| a st] |] [[| b et] |]] |];
    cbn [truthy blockCommentStartToken blockCommentEndToken negb orb];
    try (eexists; reflexivity).
  destruct (createOperationsForBlockComment_cases this
              (selectionRange (_selection this))
              (tokenizeIfCheap model
                 (startLineNumber (selectionRange (_selection this))))
              builder lt (a :: st) (b :: et)) as [Ha | [c [s [e Hrem]]]].
  - cbv zeta in Ha. rewrite Ha. eexists. reflexivity.
  - cbv zeta in Hrem. rewrite Hrem. eexists. reflexivity.
Qed.

(** A command fresh from its constructor has, after the first phase,
    either no end token recorded or one that is not empty. *)
Lemma getEditOperations_usedEndToken sel (model : M) builder registry
    this' builder' :
  getEditOperations (newBlockCommentCommand sel) model builder registry
  = Some (this', builder') ->
  _usedEndToken this' = None \/
  exists c t, _usedEndToken this' = Some (c :: t).
Proof.
  unfold getEditOperations.
  destruct (registry _) as [[lt [[| a st] |] [[| b et] |]] |];
    cbn [truthy blockCommentStartToken blockCommentEndToken negb orb];
    try (intros [= <- _]; left; reflexivity).
  intros Hout.
  match type of Hout with
  | _createOperationsForBlockComment ?t ?s _ ?m ?bd = _ =>
      destruct (createOperationsForBlockComment_cases t s m bd
                  lt (a :: st) (b :: et)) as [Ha | [c [s' [e Hrem]]]]
  end.
  - cbv zeta in Ha. rewrite Ha in Hout. unfold addOutcome in Hout.
    injection Hout as <- _. cbn [recordUsedEndToken _usedEndToken].
    destruct (_ =? 1); [right; eexists _, _; reflexivity | left; reflexivity].
  - cbv zeta in Hrem. rewrite Hrem in Hout. unfold removeOutcome in Hout.
    injection Hout as <- _. left. reflexivity.
Qed.

(** C6.  Given one inverse operation, the new selection is collapsed at
    the end of its range, moved left by the length of the end token plus
    one when the first phase recorded an end token as used, and not moved
    otherwise.  In particular, after a collapsed add with the tokens
    slash-star and star-slash the cursor is at the column of the insertion
    plus the length of the start token plus one. *)
Theorem computeCursorState_one_range
    (sel : Selection) (model model' : M) (registry : CommentsRegistry)
    (this' : BlockCommentCommand) (builder' : IEditOperationBuilder)
    (inverse : IIdentifiedSingleEditOperation) :
  getEditOperations (newBlockCommentCommand sel) model [] registry
  = Some (this', builder') ->
  computeCursorState this' model' [inverse] =
  Some (newSelection
          (endLineNumber (range inverse))
          (endColumn (range inverse) + cursorShift this')
          (endLineNumber (range inverse))
          (endColumn (range inverse) + cursorShift this')) /\
  (forall lines lineToken,
     let r := selectionRange sel in
     Range_isEmpty r = true ->
     registry (getLanguageIdAtPosition
                 (tokenizeIfCheap model (startLineNumber r))
                 (startLineNumber r) (startColumn r))
     = Some (mkComments lineToken (Some (str "/*")) (Some (str "*/"))) ->
     builder' =
     tracked (_createAddBlockCommentOperations r (str "/*") (str "*/")) ->
     builder' = [(r, str "/*  */")] /\
     computeCursorState this' model' (inverseEditOperations lines builder') =
     Some (newSelection
             (startLineNumber r) (startColumn r + strlen (str "/*") + 1)
             (startLineNumber r) (startColumn r + strlen (str "/*") + 1))).
Proof.
  intros Hget. split.
  - unfold computeCursorState, cursorShift.
    destruct (getEditOperations_usedEndToken _ _ _ _ _ _ Hget)
      as [-> | [c [t ->]]]; [reflexivity |].
    do 2 f_equal; lia.
  - intros lines lineToken r Hr Hreg Hb.
    unfold getEditOperations in Hget.
    cbn [newBlockCommentCommand _selection] in Hget.
    unfold r in Hreg. rewrite Hreg in Hget.
    cbn [blockCommentStartToken blockCommentEndToken] in Hget.
    change (truthy (Some (str "/*"))) with true in Hget.
    change (truthy (Some (str "*/"))) with true in Hget.
    cbn [negb orb] in Hget.
    assert (Hused : _usedEndToken this' = Some (str "*/")).
    { apply (add_plan_records_endToken r (str "/*") (str "*/") _ this' _
               [] builder' lineToken Hr Hget).
      rewrite submitAll_tracked. exact Hb. }
    rewrite (proj2 (createAddBlockCommentOperations_shape r _ _) Hr) in Hb.
    cbn [tracked map range text] in Hb.
    split; [exact Hb |]. rewrite Hb.
    unfold computeCursorState, inverseEditOperations.
    cbn [inverseEditOperationsFrom range fst snd columnShift fold_right
         endLineNumber endColumn startLineNumber startColumn].
    rewrite Hused. change (str "*/") with [42; 47].
    change (strlen (str "/*" ++ SPACE ++ SPACE ++ [42; 47])) with 6.
    cbv iota. change (strlen [42; 47]) with 2.
    change (strlen (str "/*")) with 2.
    do 2 f_equal; lia.
Qed.

(** C8.  When the language at the start of the selection has no comment
    configuration, or the configuration has its block comment start token
    or end token absent or empty, the first phase answers, leaves the
    command as it is and submits nothing. *)
Theorem getEditOperations_unsupported_language
    (this : BlockCommentCommand) (model : M)
    (builder : IEditOperationBuilder) (registry : CommentsRegistry) :
  let startLineNumber := startLineNumber (selectionRange (_selection this)) in
  let startColumn := startColumn (selectionRange (_selection this)) in
  let languageId :=
    getLanguageIdAtPosition (tokenizeIfCheap model startLineNumber)
                            startLineNumber startColumn in
  (registry languageId = None \/
   exists config,
     registry languageId = Some config /\
     (absentOrEmpty (blockCommentStartToken config) \/
      absentOrEmpty (blockCommentEndToken config))) ->
  getEditOperations this model builder registry = Some (this, builder).
Proof.
  cbv zeta. unfold getEditOperations, absentOrEmpty.
  intros [-> | [config [-> Hc]]]; [reflexivity |].
  destruct Hc as [[-> | ->] | [-> | ->]]; cbn [truthy negb orb];
    rewrite ?orb_true_r; reflexivity.
Qed.

End CommandProperties.

(** ** The whitespace adjustment *)

Lemma strlen_spaceIf b : strlen (spaceIf b) = Z.b2z b.
Proof. destruct b; reflexivity. Qed.

Section WhitespaceAdjustment.
Context `{RC : RangeConstructor}.
Context {M : Type} `{TM : ITokenizedModel M}.

(** When the remove plan is taken for a start token found at offset [i]
    and an end token found at offset [j], the plan is built for the two
    tokens widened by the space behind the start token and the space before
    the end token, around the content between them.  When that content has
    its ends in order, the deletion of the start token begins at the token
    and takes the space behind it along, and the deletion of the end token
    takes the space before it along and ends with the token.  So removing
    the comment from a line that holds slash-star, space, text, space,
    star-slash leaves the line text. *)
Lemma whitespace_adjustment_ordered
    (this : BlockCommentCommand) (selection : Range) (model : M)
    (builder : IEditOperationBuilder) (lineToken : option JSString)
    (startToken endToken : JSString) (i j : Z) :
  startToken <> [] -> endToken <> [] -> 1 <= startColumn selection ->
  let startLine := getLineContent model (startLineNumber selection) in
  let endLine := getLineContent model (endLineNumber selection) in
  lastOccurrence startLine startToken
    (startColumn selection - 1 + strlen startToken) i ->
  firstOccurrence endLine endToken
    (endColumn selection - 1 - strlen endToken) j ->
  ~ closedBeforeSelection startLine startToken endToken
      (startColumn selection) i ->
  let a := isSpaceAt startLine (i + strlen startToken) in
  let b := isSpaceAt endLine (j - 1) in
  let contentStart := i + 1 + strlen startToken + Z.b2z a in
  let contentEnd := j - Z.b2z b + 1 in
  let outcome :=
    _createOperationsForBlockComment this selection
      (mkComments lineToken (Some startToken) (Some endToken))
      model builder in
  outcome =
  removeOutcome this
    (newRange (startLineNumber selection) contentStart
              (endLineNumber selection) contentEnd)
    (startToken ++ spaceIf a) (spaceIf b ++ endToken) builder /\
  (ordered (startLineNumber selection) contentStart
           (endLineNumber selection) contentEnd ->
   outcome =
   Some (this,
         builder ++
         if (startLineNumber selection =? endLineNumber selection)
            && (contentStart =? contentEnd)
         then [ (mkRange (startLineNumber selection) (i + 1)
                         (endLineNumber selection)
                         (j + 1 + strlen endToken), []) ]
         else [ (mkRange (startLineNumber selection) (i + 1)
                         (startLineNumber selection)
                         (i + 1 + strlen startToken + Z.b2z a), []);
                (mkRange (endLineNumber selection) (j + 1 - Z.b2z b)
                         (endLineNumber selection)
                         (j + 1 + strlen endToken), []) ])) /\
  (forall rc, rc = plainRange \/ rc = swappingRange ->
     executeCommand (RC := rc) (oneLanguage 0 (str "/*") (str "*/"))
       (mkBuffer [str "/* text */"] 0) (newSelection (RC := rc) 1 4 1 8)
     = Some (mkBuffer [str "text"] 0, newSelection (RC := rc) 1 1 1 5)).
Proof.
  intros Hst Het Hsc startLine endLine Hi Hj Hopen a b contentStart
    contentEnd outcome.
  assert (Hout : outcome =
            removeOutcome this
              (newRange (startLineNumber selection) contentStart
                        (endLineNumber selection) contentEnd)
              (startToken ++ spaceIf a) (spaceIf b ++ endToken) builder).
  { destruct (located_outcome this selection model builder lineToken
                startToken endToken Hst Het Hsc i j Hi Hj)
      as [[Hc _] | [_ Ho]]; [contradiction |].
    unfold outcome. rewrite Ho. unfold contentStart, contentEnd, a, b.
    rewrite strlen_app, strlen_spaceIf, Z.add_assoc. reflexivity. }
  split; [exact Hout |]. split.
  - intros Hord. rewrite Hout. unfold removeOutcome. clearbody a b.
    rewrite submitAll_tracked, (newRange_ordered _ _ _ _ Hord).
    do 3 f_equal.
    pose proof (createRemoveBlockCommentOperations_shape
                  (mkRange (startLineNumber selection) contentStart
                           (endLineNumber selection) contentEnd)
                  (startToken ++ spaceIf a) (spaceIf b ++ endToken))
      as [Htwo Hone].
    assert (Hsa : strlen (startToken ++ spaceIf a)
                  = strlen startToken + Z.b2z a).
    { rewrite strlen_app, strlen_spaceIf. reflexivity. }
    assert (Hsb : strlen (spaceIf b ++ endToken)
                  = Z.b2z b + strlen endToken).
    { rewrite strlen_app, strlen_spaceIf. reflexivity. }
    unfold Range_isEmpty in Htwo, Hone.
    cbn [startLineNumber startColumn endLineNumber endColumn] in Htwo, Hone.
    destruct ((startLineNumber selection =? endLineNumber selection)
              && (contentStart =? contentEnd)).
    + rewrite (Hone eq_refl), Hsa, Hsb. cbn [tracked map range text].
      do 3 f_equal; unfold contentStart, contentEnd; lia.
    + rewrite (Htwo eq_refl), Hsa, Hsb. cbn [tracked map range text].
      repeat match goal with
             | |- _ :: _ = _ :: _ => f_equal
             | |- (_, _) = (_, _) => f_equal
             | |- mkRange _ _ _ _ = mkRange _ _ _ _ => f_equal
             end; unfold contentStart, contentEnd; lia.
  - intros rc [-> | ->]; vm_compute; reflexivity.
Qed.

End WhitespaceAdjustment.

(** ** The edit harness *)

Lemma firstn_app_exact {A} (p s : list A) : firstn (List.length p) (p ++ s) = p.
Proof. induction p as [| a p IH]; simpl; [destruct s |]; congruence. Qed.

Lemma skipn_app_exact {A} (p s : list A) : skipn (List.length p) (p ++ s) = s.
Proof. induction p as [| a p IH]; simpl; congruence. Qed.

(** Replacing the middle of a line cut in three. *)
Lemma replaceInLine_split (p m s t : JSString) (c1 c2 : Z) :
  c1 = strlen p + 1 -> c2 = strlen p + strlen m + 1 ->
  replaceInLine (p ++ m ++ s) c1 c2 t = p ++ t ++ s.
Proof.
  intros -> ->. unfold replaceInLine, strlen.
  replace (Z.to_nat (Z.of_nat (List.length p) + 1 - 1)) with (List.length p)
    by lia.
  replace (Z.to_nat (Z.of_nat (List.length p) + Z.of_nat (List.length m) + 1 - 1))
    with (List.length (p ++ m)) by (rewrite length_app; lia).
  rewrite firstn_app_exact, (app_assoc p m s), skipn_app_exact. reflexivity.
Qed.

Lemma replaceInLine_insert (p s t : JSString) (c : Z) :
  c = strlen p + 1 -> replaceInLine (p ++ s) c c t = p ++ t ++ s.
Proof.
  intros Hc. apply (replaceInLine_split p [] s t c c Hc).
  change (strlen []) with 0. lia.
Qed.

(** A line cut at two columns. *)
Lemma line_split3 (line : JSString) (c1 c2 : Z) :
  1 <= c1 -> c1 <= c2 -> c2 <= strlen line + 1 ->
  exists p m s,
    line = p ++ m ++ s /\ strlen p = c1 - 1 /\ strlen m = c2 - c1.
Proof.
  intros H1 H12 H2. unfold strlen in *.
  exists (firstn (Z.to_nat (c1 - 1)) line),
         (firstn (Z.to_nat (c2 - c1)) (skipn (Z.to_nat (c1 - 1)) line)),
         (skipn (Z.to_nat (c2 - c1)) (skipn (Z.to_nat (c1 - 1)) line)).
  split; [| split].
  - rewrite !firstn_skipn. reflexivity.
  - rewrite length_firstn. lia.
  - rewrite length_firstn, length_skipn. lia.
Qed.

Lemma line_split2 (line : JSString) (c : Z) :
  1 <= c -> c <= strlen line + 1 ->
  exists p s, line = p ++ s /\ strlen p = c - 1.
Proof.
  intros H1 H2. unfold strlen in *.
  exists (firstn (Z.to_nat (c - 1)) line), (skipn (Z.to_nat (c - 1)) line).
  split.
  - rewrite firstn_skipn. reflexivity.
  - rewrite length_firstn. lia.
Qed.

(** Where a token and a space sit once they are part of a line. *)
Lemma needle_after_prefix (p tok s : JSString) :
  _haystackHasNeedleAtOffset (p ++ tok ++ s) tok (strlen p) = true.
Proof.
  unfold strlen. apply haystackHasNeedleAtOffset_startsWith. split.
  - rewrite length_app. lia.
  - rewrite skipn_app_exact. apply startsWith_app.
Qed.

Lemma charCodeAt_after_prefix (p s : JSString) (c : Z) :
  charCodeAt (p ++ c :: s) (strlen p) = Some c.
Proof.
  unfold strlen. rewrite charCodeAt_nat, nth_error_app2 by lia.
  rewrite Nat.sub_diag. reflexivity.
Qed.

Lemma isSpaceAt_after_prefix (p s : JSString) :
  isSpaceAt (p ++ SPACE ++ s) (strlen p) = true.
Proof.
  unfold isSpaceAt, SPACE. cbn [app].
  rewrite charCodeAt_after_prefix. reflexivity.
Qed.

(** Lines of a text after one of them is rewritten. *)
Lemma length_updateLine lines k f :
  List.length (updateLine lines k f) = List.length lines.
Proof.
  revert k. induction lines as [| l ls IH]; intros [| k]; simpl;
    try reflexivity.
  rewrite IH. reflexivity.
Qed.

Lemma nth_updateLine lines k f m :
  nth m (updateLine lines k f) [] =
  if (m =? k)%nat && (m <? List.length lines)%nat
  then f (nth m lines []) else nth m lines [].
Proof.
  revert k m. induction lines as [| l ls IH]; intros k m.
  - simpl. rewrite andb_false_r. destruct k; reflexivity.
  - destruct k as [| k], m as [| m]; simpl; try reflexivity.
    rewrite IH. reflexivity.
Qed.

Lemma length_applyOperation op lines :
  List.length (applyOperation op lines) = List.length lines.
Proof. apply length_updateLine. Qed.

Lemma lineAt_applyOperation op lines n :
  1 <= startLineNumber (fst op) ->
  1 <= n <= Z.of_nat (List.length lines) ->
  lineAt (applyOperation op lines) n =
  if n =? startLineNumber (fst op)
  then replaceInLine (lineAt lines n) (startColumn (fst op))
                     (endColumn (fst op)) (snd op)
  else lineAt lines n.
Proof.
  intros Hl Hn. unfold lineAt, applyOperation.
  destruct (Z.ltb_spec n 1) as [? | _]; [lia |].
  rewrite nth_updateLine.
  destruct (Z.eqb_spec n (startLineNumber (fst op))) as [-> | Hne].
  - rewrite Nat.eqb_refl.
    destruct (Nat.ltb_spec
                (Z.to_nat (startLineNumber (fst op) - 1))
                (List.length lines)) as [_ | ?];
      [reflexivity | exfalso; lia].
  - destruct (Nat.eqb_spec (Z.to_nat (n - 1))
                (Z.to_nat (startLineNumber (fst op) - 1))) as [? | _];
      [exfalso; lia | reflexivity].
Qed.

Lemma lines_ext (lines lines' : list JSString) :
  List.length lines = List.length lines' ->
  (forall n, 1 <= n <= Z.of_nat (List.length lines) ->
     lineAt lines n = lineAt lines' n) ->
  lines = lines'.
Proof.
  intros Hlen Hnth. apply (nth_ext _ _ [] [] Hlen).
  intros k Hk.
  specialize (Hnth (Z.of_nat k + 1) ltac:(lia)).
  unfold lineAt in Hnth.
  destruct (Z.ltb_spec (Z.of_nat k + 1) 1) as [? | _]; [lia |].
  replace (Z.to_nat (Z.of_nat k + 1 - 1)) with k in Hnth by lia.
  exact Hnth.
Qed.

(** ** Inserting two tokens and deleting them again, line by line *)


Lemma insert_two_same_line (p m s tA tB : JSString) (c1 c2 : Z) :
  strlen p = c1 - 1 -> strlen m = c2 - c1 ->
  replaceInLine (replaceInLine (p ++ m ++ s) c2 c2 tB) c1 c1 tA
  = p ++ tA ++ m ++ tB ++ s.
Proof.
  intros Hp Hm.
  rewrite (app_assoc p m s).
  rewrite (replaceInLine_insert (p ++ m) s tB c2)
    by (rewrite strlen_app; lia).
  rewrite <- (app_assoc p m (tB ++ s)).
  rewrite (replaceInLine_insert p (m ++ tB ++ s) tA c1) by lia.
  reflexivity.
Qed.

Lemma delete_two_same_line (p m s tA tB : JSString) (c1 c2 : Z) :
  strlen p = c1 - 1 -> strlen m = c2 - c1 ->
  replaceInLine
    (replaceInLine (p ++ tA ++ m ++ tB ++ s)
       (c2 + strlen tA) (c2 + strlen tA + strlen tB) [])
    c1 (c1 + strlen tA) []
  = p ++ m ++ s.
Proof.
  intros Hp Hm.
  replace (p ++ tA ++ m ++ tB ++ s) with ((p ++ tA ++ m) ++ tB ++ s)
    by (rewrite <- !app_assoc; reflexivity).
  rewrite (replaceInLine_split (p ++ tA ++ m) tB s [])
    by (rewrite !strlen_app; lia).
  cbn [app]. rewrite <- !app_assoc.
  rewrite (replaceInLine_split p tA (m ++ s) []) by lia.
  reflexivity.
Qed.


Lemma noLineBreak_app s t :
  noLineBreak (s ++ t) = noLineBreak s && noLineBreak t.
Proof. apply forallb_app. Qed.

Lemma validRange_true lines r :
  validRange lines r = true <->
  1 <= startLineNumber r /\
  endLineNumber r <= Z.of_nat (List.length lines) /\
  Range_ordered r /\
  1 <= startColumn r <= strlen (lineAt lines (startLineNumber r)) + 1 /\
  1 <= endColumn r <= strlen (lineAt lines (endLineNumber r)) + 1.
Proof.
  unfold validRange, Range_ordered, ordered, orderedb.
  rewrite !andb_true_iff, orb_true_iff, andb_true_iff, Z.ltb_lt, Z.eqb_eq,
    !Z.leb_le.
  tauto.
Qed.


Lemma Range_ordered_lines r :
  Range_ordered r -> startLineNumber r <= endLineNumber r.
Proof. unfold Range_ordered, ordered. lia. Qed.

(** ** The round trip: add, then run the command again *)

Section RoundTrip.
Context `{RC : RangeConstructor}.

Variable lines : list JSString.
Variables startToken endToken : JSString.
Variables l1 c1 l2 c2 : Z.

Hypothesis valid : validRange lines (mkRange l1 c1 l2 c2) = true.
Hypothesis not_collapsed : Range_isEmpty (mkRange l1 c1 l2 c2) = false.

(** The two insertions of the add plan, the text they lead to, and the
    selection that follows them. *)
Let opA : Range * JSString := (mkRange l1 c1 l1 c1, startToken ++ SPACE).
Let opB : Range * JSString := (mkRange l2 c2 l2 c2, SPACE ++ endToken).
Let lines1 := applyOperation opA (applyOperation opB lines).
Let sc1 := c1 + strlen startToken + 1.
Let ec1 := c2 + (if l1 =? l2 then strlen startToken + 1 else 0).

(** The two deletions that undo them. *)
Let delA : Range * JSString := (mkRange l1 c1 l1 sc1, []).
Let delB : Range * JSString :=
  (mkRange l2 ec1 l2 (ec1 + strlen (SPACE ++ endToken)), []).

Lemma round_trip_bounds :
  1 <= l1 /\ l1 <= l2 /\ l2 <= Z.of_nat (List.length lines) /\
  ordered l1 c1 l2 c2 /\
  1 <= c1 <= strlen (lineAt lines l1) + 1 /\
  1 <= c2 <= strlen (lineAt lines l2) + 1 /\
  (l1 = l2 -> c1 < c2).
Proof.
  apply validRange_true in valid.
  cbn [startLineNumber startColumn endLineNumber endColumn] in valid.
  destruct valid as [H1 [H2 [Ho [Hc1 Hc2]]]].
  pose proof (Range_ordered_lines _ Ho) as Hl. cbn in Hl.
  unfold Range_ordered in Ho.
  cbn [startLineNumber startColumn endLineNumber endColumn] in Ho.
  repeat split; try lia; try assumption.
  intros ->. unfold Range_isEmpty in not_collapsed.
  cbn [startLineNumber startColumn endLineNumber endColumn] in not_collapsed.
  rewrite Z.eqb_refl in not_collapsed. cbn [andb] in not_collapsed.
  apply Z.eqb_neq in not_collapsed. unfold ordered in Ho. lia.
Qed.

Lemma lineAt_lines1 n :
  1 <= n <= Z.of_nat (List.length lines) ->
  lineAt lines1 n =
  let x := if n =? l2
           then replaceInLine (lineAt lines n) c2 c2 (SPACE ++ endToken)
           else lineAt lines n in
  if n =? l1 then replaceInLine x c1 c1 (startToken ++ SPACE) else x.
Proof.
  intros Hn. destruct round_trip_bounds as [H1 [H12 _]].
  unfold lines1. rewrite lineAt_applyOperation;
    [| cbn; lia | rewrite length_applyOperation; exact Hn].
  rewrite lineAt_applyOperation; [| cbn; lia | exact Hn].
  reflexivity.
Qed.

Lemma length_lines1 : List.length lines1 = List.length lines.
Proof. unfold lines1. rewrite !length_applyOperation. reflexivity. Qed.

Lemma round_trip_line_cases :
  (l1 = l2 /\
   exists p m s,
     lineAt lines l1 = p ++ m ++ s /\ strlen p = c1 - 1 /\
     strlen m = c2 - c1 /\
     lineAt lines1 l1 =
     p ++ (startToken ++ SPACE) ++ m ++ (SPACE ++ endToken) ++ s) \/
  (l1 <> l2 /\
   exists p s q v,
     lineAt lines l1 = p ++ s /\ strlen p = c1 - 1 /\
     lineAt lines l2 = q ++ v /\ strlen q = c2 - 1 /\
     lineAt lines1 l1 = p ++ (startToken ++ SPACE) ++ s /\
     lineAt lines1 l2 = q ++ (SPACE ++ endToken) ++ v).
Proof.
  destruct round_trip_bounds as [H1 [H12 [H2 [Ho [Hc1 [Hc2 Hlt]]]]]].
  destruct (Z.eq_dec l1 l2) as [E | E].
  - left. split; [exact E |]. specialize (Hlt E).
    destruct (line_split3 (lineAt lines l1) c1 c2) as [p [m [s [HL [Hp Hm]]]]];
      [lia | lia | rewrite E; lia |].
    exists p, m, s. repeat split; try assumption.
    rewrite lineAt_lines1 by lia. cbv zeta. rewrite <- E, Z.eqb_refl, HL.
    apply insert_two_same_line; assumption.
  - right. split; [exact E |].
    destruct (line_split2 (lineAt lines l1) c1) as [p [s [HL1 Hp]]];
      [lia | lia |].
    destruct (line_split2 (lineAt lines l2) c2) as [q [v [HL2 Hq]]];
      [lia | lia |].
    exists p, s, q, v. repeat split; try assumption.
    + rewrite lineAt_lines1 by lia. cbv zeta.
      destruct (Z.eqb_spec l1 l2) as [? | _]; [contradiction |].
      rewrite Z.eqb_refl, HL1. apply replaceInLine_insert. lia.
    + rewrite lineAt_lines1 by lia. cbv zeta.
      destruct (Z.eqb_spec l2 l1) as [? | _]; [congruence |].
      rewrite Z.eqb_refl, HL2. apply replaceInLine_insert. lia.
Qed.

(** The start line of the new text holds the start token and a space at
    the old start of the selection; the end line holds a space and the
    end token at the new end of the selection. *)
Lemma round_trip_startLine :
  exists p u,
    lineAt lines1 l1 = p ++ startToken ++ SPACE ++ u /\ strlen p = c1 - 1.
Proof.
  destruct round_trip_line_cases
    as [[E [p [m [s [_ [Hp [_ H]]]]]]] | [E [p [s [q [v [_ [Hp [_ [_ [H _]]]]]]]]]]].
  - exists p, (m ++ (SPACE ++ endToken) ++ s). split; [| exact Hp].
    rewrite H, <- !app_assoc. reflexivity.
  - exists p, s. split; [| exact Hp]. rewrite H, <- !app_assoc. reflexivity.
Qed.

Lemma round_trip_endLine :
  exists q v,
    lineAt lines1 l2 = q ++ SPACE ++ endToken ++ v /\ strlen q = ec1 - 1.
Proof.
  unfold ec1.
  destruct round_trip_line_cases
    as [[E [p [m [s [_ [Hp [Hm H]]]]]]] | [E [p [s [q [v [_ [_ [_ [Hq [_ H]]]]]]]]]]].
  - exists (p ++ (startToken ++ SPACE) ++ m), s. rewrite <- E, H.
    rewrite Z.eqb_refl, !strlen_app, strlen_SPACE.
    split; [| lia]. rewrite <- !app_assoc. reflexivity.
  - exists q, v. case (Z.eqb_spec l1 l2); [intros; contradiction | intros _].
    split; [| lia]. rewrite H, <- !app_assoc. reflexivity.
Qed.

Lemma round_trip_restore :
  applyOperation delA (applyOperation delB lines1) = lines.
Proof.
  destruct round_trip_bounds as [H1 [H12 [H2 _]]].
  apply lines_ext.
  { rewrite !length_applyOperation. apply length_lines1. }
  intros n Hn. rewrite !length_applyOperation, length_lines1 in Hn.
  rewrite lineAt_applyOperation;
    [| cbn; lia | rewrite length_applyOperation, length_lines1; exact Hn].
  rewrite lineAt_applyOperation; [| cbn; lia | rewrite length_lines1; exact Hn].
  unfold delA, delB, sc1, ec1.
  cbn [fst snd startLineNumber startColumn endColumn].
  destruct round_trip_line_cases
    as [[E [p [m [s [HL [Hp [Hm H]]]]]]]
       | [E [p [s [q [v [HL1 [Hp [HL2 [Hq [HA HB]]]]]]]]]]].
  - rewrite <- E, Z.eqb_refl.
    destruct (Z.eqb_spec n l1) as [-> | Hne].
    + rewrite H, HL.
      replace (c1 + strlen startToken + 1)
        with (c1 + strlen (startToken ++ SPACE))
        by (rewrite strlen_app, strlen_SPACE; lia).
      replace (c2 + (strlen startToken + 1))
        with (c2 + strlen (startToken ++ SPACE))
        by (rewrite strlen_app, strlen_SPACE; lia).
      apply delete_two_same_line; assumption.
    + rewrite lineAt_lines1 by exact Hn. cbv zeta. rewrite <- E.
      destruct (Z.eqb_spec n l1) as [? | _]; [contradiction | reflexivity].
  - case (Z.eqb_spec l1 l2); [intros; contradiction | intros _].
    rewrite Z.add_0_r.
    destruct (Z.eqb_spec n l2) as [El2 | Hn2];
      destruct (Z.eqb_spec n l1) as [El1 | Hn1]; try congruence.
    + rewrite El2, HB.
      rewrite (replaceInLine_split q (SPACE ++ endToken) v []) by lia.
      symmetry. exact HL2.
    + rewrite El1, HA.
      rewrite (replaceInLine_split p (startToken ++ SPACE) s [])
        by (rewrite ?strlen_app, ?strlen_SPACE; lia).
      symmetry. exact HL1.
    + rewrite lineAt_lines1 by exact Hn. cbv zeta.
      destruct (Z.eqb_spec n l2) as [? | _]; [contradiction |].
      destruct (Z.eqb_spec n l1) as [? | _]; [contradiction | reflexivity].
Qed.

Hypothesis startToken_one_line : noLineBreak startToken = true.
Hypothesis endToken_one_line : noLineBreak endToken = true.

Lemma new_selection_ordered : ordered l1 sc1 l2 ec1.
Proof.
  destruct round_trip_bounds as [_ [H12 [_ [_ [_ [_ Hlt]]]]]].
  unfold ordered, sc1, ec1.
  case (Z.eqb_spec l1 l2); intros E.
  - right. specialize (Hlt E). lia.
  - left. lia.
Qed.

Lemma new_selection_not_collapsed :
  Range_isEmpty (mkRange l1 sc1 l2 ec1) = false.
Proof.
  destruct round_trip_bounds as [_ [H12 [_ [_ [_ [_ Hlt]]]]]].
  unfold Range_isEmpty, sc1, ec1.
  cbn [startLineNumber startColumn endLineNumber endColumn].
  case (Z.eqb_spec l1 l2); intros E; [| reflexivity].
  specialize (Hlt E). cbn [andb]. apply Z.eqb_neq. lia.
Qed.

Lemma round_trip_add_applies : applyEdits lines [opA; opB] = Some lines1.
Proof.
  destruct round_trip_bounds as [H1 [H12 [H2 [Ho [Hc1 [Hc2 _]]]]]].
  unfold applyEdits.
  assert (HvA : validOperation lines opA = true).
  { unfold validOperation, opA.
    cbn [fst snd startLineNumber startColumn endLineNumber endColumn].
    rewrite noLineBreak_app, startToken_one_line.
    rewrite !andb_true_iff, Z.eqb_eq, !Z.leb_le.
    repeat split; try reflexivity; lia. }
  assert (HvB : validOperation lines opB = true).
  { unfold validOperation, opB.
    cbn [fst snd startLineNumber startColumn endLineNumber endColumn].
    rewrite noLineBreak_app, endToken_one_line.
    rewrite !andb_true_iff, Z.eqb_eq, !Z.leb_le.
    repeat split; try reflexivity; lia. }
  assert (Hord : inTextOrder [opA; opB] = true).
  { unfold inTextOrder, opA, opB.
    cbn [fst startLineNumber startColumn endLineNumber endColumn].
    rewrite (orderedb_true _ _ _ _ Ho). reflexivity. }
  rewrite Hord. cbn [forallb]. rewrite HvA, HvB. reflexivity.
Qed.

Lemma round_trip_remove_applies :
  applyEdits lines1 [delA; delB] = Some lines.
Proof.
  destruct round_trip_bounds as [H1 [H12 [H2 _]]].
  pose proof (strlen_nonneg startToken) as Hs.
  pose proof (strlen_nonneg endToken) as He.
  destruct round_trip_startLine as [p [u [HA Hp]]].
  destruct round_trip_endLine as [q [v [HB Hq]]].
  unfold applyEdits.
  assert (HvA : validOperation lines1 delA = true).
  { unfold validOperation, delA.
    cbn [fst snd startLineNumber startColumn endLineNumber endColumn].
    rewrite length_lines1, HA, !strlen_app, strlen_SPACE, Hp.
    unfold sc1. pose proof (strlen_nonneg u).
    destruct round_trip_bounds as [_ [_ [_ [_ [Hc1 _]]]]].
    rewrite !andb_true_iff, Z.eqb_eq, !Z.leb_le.
    repeat split; try reflexivity; lia. }
  assert (HvB : validOperation lines1 delB = true).
  { unfold validOperation, delB.
    cbn [fst snd startLineNumber startColumn endLineNumber endColumn].
    rewrite length_lines1, HB, !strlen_app, strlen_SPACE, Hq.
    pose proof (strlen_nonneg v).
    assert (1 <= ec1).
    { destruct round_trip_bounds as [_ [_ [_ [_ [_ [Hc2 _]]]]]].
      unfold ec1. case (Z.eqb_spec l1 l2); intros; lia. }
    rewrite !andb_true_iff, Z.eqb_eq, !Z.leb_le.
    repeat split; try reflexivity; lia. }
  assert (Hord : inTextOrder [delA; delB] = true).
  { unfold inTextOrder, delA, delB.
    cbn [fst startLineNumber startColumn endLineNumber endColumn].
    rewrite (orderedb_true _ _ _ _ new_selection_ordered). reflexivity. }
  rewrite Hord. cbn [forallb]. rewrite HvA, HvB.
  cbn [andb fold_right]. rewrite round_trip_restore. reflexivity.
Qed.

Variable lang : LanguageId.

Lemma round_trip_executeAdd sel :
  selectionRange sel = mkRange l1 c1 l2 c2 ->
  executeAdd startToken endToken (mkBuffer lines lang) sel
  = Some (mkBuffer lines1 lang, newSelection l1 sc1 l2 ec1).
Proof.
  intros Hsel. unfold executeAdd. rewrite Hsel.
  rewrite (proj1 (createAddBlockCommentOperations_shape _ _ _) not_collapsed).
  cbn [startLineNumber startColumn endLineNumber endColumn].
  unfold settle, submitAll.
  cbn [fold_left addTrackedEditOperation range text app bufferLines
       bufferLanguage].
  match goal with
  | |- context [applyEdits lines ?ops] =>
      change (applyEdits lines ops) with (applyEdits lines [opA; opB])
  end.
  rewrite round_trip_add_applies.
  unfold computeCursorState, inverseEditOperations, opA, opB.
  cbn [inverseEditOperationsFrom range fst snd columnShift fold_right app
       startLineNumber startColumn endLineNumber endColumn].
  do 3 f_equal.
  - unfold sc1. rewrite strlen_app, strlen_SPACE. lia.
  - unfold ec1. rewrite strlen_app, strlen_SPACE.
    case (Z.eqb_spec l1 l2); intros; lia.
Qed.

Hypothesis startToken_not_empty : startToken <> [].
Hypothesis endToken_not_empty : endToken <> [].

(** The searches of the second run must meet the tokens just inserted:
    around the start of the new selection no other start token begins and
    no end token begins, and before the end of the new selection no end
    token begins. *)
Hypothesis no_other_start :
  noOccurrence (lineAt lines1 l1) startToken
    (sc1 - 1 - strlen startToken) (sc1 - 1 + strlen startToken).
Hypothesis no_end_before_end :
  noOccurrence (lineAt lines1 l2) endToken
    (ec1 - 1 - strlen endToken) (ec1 - 1).
Hypothesis no_end_at_start :
  noOccurrence (lineAt lines1 l1) endToken
    (sc1 - 1 - 1) (sc1 - 1 + strlen endToken).

Lemma round_trip_classified this lineToken :
  _createOperationsForBlockComment this (mkRange l1 sc1 l2 ec1)
    (mkComments lineToken (Some startToken) (Some endToken))
    (mkBuffer lines1 lang) []
  = Some (this, [delA; delB]).
Proof.
  destruct round_trip_bounds as [H1 [H12 [H2 [Ho [Hc1 [Hc2 _]]]]]].
  pose proof (strlen_pos _ startToken_not_empty) as Hs.
  pose proof (strlen_pos _ endToken_not_empty) as He.
  destruct round_trip_startLine as [p [u [HA Hp]]].
  destruct round_trip_endLine as [q [v [HB Hq]]].
  assert (Hi : lastOccurrence (lineAt lines1 l1) startToken
                 (sc1 - 1 + strlen startToken) (c1 - 1)).
  { split; [| split].
    - rewrite HA, <- Hp. apply needle_after_prefix.
    - unfold sc1. lia.
    - intros j Hj. apply no_other_start. unfold sc1 in *. lia. }
  assert (Hj : firstOccurrence (lineAt lines1 l2) endToken
                 (ec1 - 1 - strlen endToken) ec1).
  { split; [| split].
    - rewrite HB, (app_assoc q SPACE).
      replace ec1 with (strlen (q ++ SPACE))
        by (rewrite strlen_app, strlen_SPACE; lia).
      apply needle_after_prefix.
    - lia.
    - intros j Hj. apply no_end_before_end. lia. }
  assert (Hopen : ~ closedBeforeSelection (lineAt lines1 l1) startToken
                    endToken sc1 (c1 - 1)).
  { intros [k [[Hk1 [Hk2 _]] Hk3]].
    rewrite no_end_at_start in Hk1; [discriminate |]. unfold sc1 in *. lia. }
  assert (Ha : isSpaceAt (lineAt lines1 l1) (c1 - 1 + strlen startToken)
               = true).
  { rewrite HA, (app_assoc p startToken).
    replace (c1 - 1 + strlen startToken) with (strlen (p ++ startToken))
      by (rewrite strlen_app; lia).
    apply isSpaceAt_after_prefix. }
  assert (Hb : isSpaceAt (lineAt lines1 l2) (ec1 - 1) = true).
  { rewrite HB, <- Hq. apply isSpaceAt_after_prefix. }
  assert (Hsc : 1 <= startColumn (mkRange l1 sc1 l2 ec1)).
  { cbn. unfold sc1. lia. }
  pose proof (located_outcome (TM := TextBuffer_model) this
                (mkRange l1 sc1 l2 ec1) (mkBuffer lines1 lang) []
                lineToken startToken endToken
                startToken_not_empty endToken_not_empty Hsc (c1 - 1) ec1)
    as Hloc.
  cbn [getLineContent TextBuffer_model bufferLines startLineNumber
       startColumn endLineNumber endColumn] in Hloc.
  destruct (Hloc Hi Hj) as [[Hc _] | [_ Hout]]; [contradiction |].
  rewrite Hout.
  rewrite Ha, Hb. cbn [spaceIf Z.b2z]. unfold removeOutcome.
  replace (c1 - 1 + 1 + strlen (startToken ++ SPACE)) with sc1
    by (unfold sc1; rewrite strlen_app, strlen_SPACE; lia).
  replace (ec1 - 1 + 1) with ec1 by lia.
  rewrite (newRange_ordered _ _ _ _ new_selection_ordered).
  rewrite (proj1 (createRemoveBlockCommentOperations_shape _ _ _)
             new_selection_not_collapsed).
  cbn [startLineNumber startColumn endLineNumber endColumn].
  unfold submitAll.
  cbn [fold_left addTrackedEditOperation range text app].
  unfold delA, delB.
  repeat match goal with
         | |- Some _ = Some _ => f_equal
         | |- _ :: _ = _ :: _ => f_equal
         | |- (_, _) = (_, _) => f_equal
         | |- mkRange _ _ _ _ = mkRange _ _ _ _ => f_equal
         end.
  unfold sc1. rewrite strlen_app, strlen_SPACE. lia.
Qed.

Variable registry : CommentsRegistry.
Variable lineToken : option JSString.

Hypothesis registered :
  registry lang
  = Some (mkComments lineToken (Some startToken) (Some endToken)).

Lemma truthy_not_empty s : s <> [] -> truthy (Some s) = true.
Proof. destruct s; [congruence | reflexivity]. Qed.

Lemma round_trip_executeCommand :
  executeCommand registry (mkBuffer lines1 lang) (newSelection l1 sc1 l2 ec1)
  = Some (mkBuffer lines lang, newSelection l1 c1 l2 c2).
Proof.
  unfold executeCommand, getEditOperations.
  cbn [newBlockCommentCommand _selection newSelection selectionRange].
  rewrite (newRange_ordered _ _ _ _ new_selection_ordered).
  cbn [getLanguageIdAtPosition tokenizeIfCheap TextBuffer_model
       bufferLanguage].
  rewrite registered.
  cbn [blockCommentStartToken blockCommentEndToken].
  rewrite (truthy_not_empty _ startToken_not_empty),
    (truthy_not_empty _ endToken_not_empty).
  cbn [negb orb]. rewrite round_trip_classified.
  unfold settle. cbn [bufferLines bufferLanguage].
  rewrite round_trip_remove_applies.
  unfold computeCursorState, inverseEditOperations, delA, delB.
  cbn [inverseEditOperationsFrom range fst snd columnShift fold_right app
       startLineNumber startColumn endLineNumber endColumn].
  unfold newSelection. do 2 f_equal.
  assert (Hec : ec1 + (if l1 =? l2 then 0 + strlen [] - (sc1 - c1) else 0)
                = c2).
  { unfold ec1, sc1. change (strlen []) with 0.
    case (Z.eqb_spec l1 l2); intros; lia. }
  rewrite Hec. replace (c1 + 0 + strlen []) with c1
    by (change (strlen []) with 0; lia).
  reflexivity.
Qed.

End RoundTrip.

Lemma noOccurrenceFrom_sound s tok count :
  forall lo,
    noOccurrenceFrom s tok lo count = true ->
    noOccurrence s tok lo (lo + Z.of_nat count - 1).
Proof.
  induction count as [| count IH]; intros lo H j Hj; [lia |].
  cbn [noOccurrenceFrom] in H. apply andb_true_iff in H. destruct H as [H0 H].
  destruct (Z.eq_dec j lo) as [-> | Hne].
  - apply negb_true_iff. exact H0.
  - apply (IH (lo + 1) H). lia.
Qed.

Lemma noOccurrenceb_sound s tok lo hi :
  noOccurrenceb s tok lo hi = true -> noOccurrence s tok lo hi.
Proof.
  unfold noOccurrenceb. intros H j Hj.
  apply (noOccurrenceFrom_sound _ _ _ _ H). lia.
Qed.
(** ** The round trip *)

(** C1.  The round trip.  For a selection that is not collapsed and lies
    inside the text, and tokens without line break, the add plan applies.
    In the text it leads to, the start token is found right before the new
    selection with the space behind it, and the end token right behind the
    new selection with the space before it.  The remove plan for these two
    tokens, built as the source builds it (each token widened by its space,
    around the content between them), then applies and gives back the
    original text. *)
Theorem add_then_remove_restores `{RC : RangeConstructor}
    (buf : TextBuffer) (sel : Selection) (startToken endToken : JSString) :
  validRange (bufferLines buf) (selectionRange sel) = true ->
  Range_isEmpty (selectionRange sel) = false ->
  noLineBreak startToken = true -> noLineBreak endToken = true ->
  exists buf1 sel1,
    executeAdd startToken endToken buf sel = Some (buf1, sel1) /\
    let r1 := selectionRange sel1 in
    let startLine := lineAt (bufferLines buf1) (startLineNumber r1) in
    let endLine := lineAt (bufferLines buf1) (endLineNumber r1) in
    let i := startColumn r1 - 1 - strlen (startToken ++ SPACE) in
    let j := endColumn r1 in
    let a := isSpaceAt startLine (i + strlen startToken) in
    let b := isSpaceAt endLine (j - 1) in
    _haystackHasNeedleAtOffset startLine startToken i = true /\
    _haystackHasNeedleAtOffset endLine endToken j = true /\
    a = true /\ b = true /\
    applyEdits (bufferLines buf1)
      (tracked (_createRemoveBlockCommentOperations
                  (newRange (startLineNumber r1)
                            (i + 1 + strlen (startToken ++ spaceIf a))
                            (endLineNumber r1) (j - Z.b2z b + 1))
                  (startToken ++ spaceIf a) (spaceIf b ++ endToken)))
    = Some (bufferLines buf).
Proof.
  destruct buf as [lines lang].
  destruct (selectionRange sel) as [l1 c1 l2 c2] eqn:Hsel.
  cbn [bufferLines]. intros Hvalid Hne Hsl Hel.
  pose proof (new_selection_ordered lines startToken endToken l1 c1 l2 c2
                Hvalid Hne) as Hord.
  destruct (round_trip_startLine lines startToken endToken l1 c1 l2 c2
              Hvalid Hne) as [p [u [HA Hp]]].
  destruct (round_trip_endLine lines startToken endToken l1 c1 l2 c2
              Hvalid Hne) as [q [v [HB Hq]]].
  eexists _, _. split.
  { exact (round_trip_executeAdd lines startToken endToken l1 c1 l2 c2
             Hvalid Hne Hsl Hel lang sel Hsel). }
  cbn [newSelection selectionRange bufferLines].
  rewrite (newRange_ordered _ _ _ _ Hord).
  cbn [startLineNumber startColumn endLineNumber endColumn]. cbv zeta.
  replace (c1 + strlen startToken + 1 - 1 - strlen (startToken ++ SPACE))
    with (c1 - 1) by (rewrite strlen_app, strlen_SPACE; lia).
  set (ec1 := c2 + (if l1 =? l2 then strlen startToken + 1 else 0)) in *.
  assert (Ha : isSpaceAt
                 (lineAt
                    (applyOperation
                       (mkRange l1 c1 l1 c1, startToken ++ SPACE)
                       (applyOperation
                          (mkRange l2 c2 l2 c2, SPACE ++ endToken) lines))
                    l1)
                 (c1 - 1 + strlen startToken) = true).
  { rewrite HA, (app_assoc p startToken).
    replace (c1 - 1 + strlen startToken) with (strlen (p ++ startToken))
      by (rewrite strlen_app; lia).
    apply isSpaceAt_after_prefix. }
  assert (Hb : isSpaceAt
                 (lineAt
                    (applyOperation
                       (mkRange l1 c1 l1 c1, startToken ++ SPACE)
                       (applyOperation
                          (mkRange l2 c2 l2 c2, SPACE ++ endToken) lines))
                    l2)
                 (ec1 - 1) = true).
  { rewrite HB, <- Hq. apply isSpaceAt_after_prefix. }
  rewrite Ha, Hb. cbn [spaceIf Z.b2z].
  split; [| split; [| split; [reflexivity | split; [reflexivity |]]]].
  - rewrite HA, <- Hp. apply needle_after_prefix.
  - rewrite HB, (app_assoc q SPACE).
    replace ec1 with (strlen (q ++ SPACE))
      by (rewrite strlen_app, strlen_SPACE; lia).
    apply needle_after_prefix.
  - replace (c1 - 1 + 1 + strlen (startToken ++ SPACE))
      with (c1 + strlen startToken + 1)
      by (rewrite strlen_app, strlen_SPACE; lia).
    replace (ec1 - 1 + 1) with ec1 by lia.
    rewrite (newRange_ordered _ _ _ _ Hord).
    rewrite (proj1 (createRemoveBlockCommentOperations_shape _ _ _)
               (new_selection_not_collapsed lines startToken endToken
                  l1 c1 l2 c2 Hvalid Hne)).
    cbn [tracked map range text startLineNumber startColumn endLineNumber
         endColumn].
    pose proof (round_trip_remove_applies lines startToken endToken
                  l1 c1 l2 c2 Hvalid Hne) as Hback.
    replace (c1 + strlen startToken + 1 - strlen (startToken ++ SPACE))
      with c1 by (rewrite strlen_app, strlen_SPACE; lia).
    exact Hback.
Qed.

(** The five characters slash, star, f, o, o selected: the add plan leads
    to a line with two start tokens, and the remove plan built at the one
    that was inserted gives the five characters back. *)
Lemma add_then_remove_restores_witness :
  exists buf1 sel1,
    executeAdd (RC := plainRange) (str "/*") (str "*/")
      (mkBuffer [str "/*foo"] 0) (newSelection (RC := plainRange) 1 1 1 6)
    = Some (buf1, sel1) /\
    let r1 := selectionRange sel1 in
    let startLine := lineAt (bufferLines buf1) (startLineNumber r1) in
    let endLine := lineAt (bufferLines buf1) (endLineNumber r1) in
    let i := startColumn r1 - 1 - strlen (str "/*" ++ SPACE) in
    let j := endColumn r1 in
    let a := isSpaceAt startLine (i + strlen (str "/*")) in
    let b := isSpaceAt endLine (j - 1) in
    _haystackHasNeedleAtOffset startLine (str "/*") i = true /\
    _haystackHasNeedleAtOffset endLine (str "*/") j = true /\
    a = true /\ b = true /\
    applyEdits (bufferLines buf1)
      (tracked (_createRemoveBlockCommentOperations (RC := plainRange)
                  (@newRange plainRange (startLineNumber r1)
                            (i + 1 + strlen (str "/*" ++ spaceIf a))
                            (endLineNumber r1) (j - Z.b2z b + 1))
                  (str "/*" ++ spaceIf a) (spaceIf b ++ str "*/")))
    = Some [str "/*foo"].
Proof.
  exact (add_then_remove_restores (RC := plainRange)
           (mkBuffer [str "/*foo"] 0)
           (newSelection (RC := plainRange) 1 1 1 6)
           (str "/*") (str "*/")
           eq_refl eq_refl eq_refl eq_refl).
Defined.

(** ** A second run of the command

    A second run of the whole command does not start from the tokens that
    were inserted: it looks for tokens by their text, near the ends of the
    new selection, and what it finds need not be what the add plan
    inserted.  If in the text the add plan leads to (1) no start token
    begins at an offset from [s - strlen startToken] to
    [s + strlen startToken] of the start line, (2) no end token begins at an
    offset from [e - strlen endToken] to [e] of the end line, and (3) no end
    token begins at an offset from [s - 1] to [s + strlen endToken] of the
    start line, where [s] and [e] are the offsets at which the new selection
    starts and ends, then the second run finds the inserted tokens and
    gives back the original text, and the original range as the
    selection. *)
Lemma second_run_restores `{RC : RangeConstructor}
    (registry : CommentsRegistry) (buf : TextBuffer) (sel : Selection)
    (lineToken : option JSString) (startToken endToken : JSString) :
  validRange (bufferLines buf) (selectionRange sel) = true ->
  Range_isEmpty (selectionRange sel) = false ->
  startToken <> [] -> endToken <> [] ->
  noLineBreak startToken = true -> noLineBreak endToken = true ->
  registry (bufferLanguage buf)
  = Some (mkComments lineToken (Some startToken) (Some endToken)) ->
  exists buf1 sel1,
    executeAdd startToken endToken buf sel = Some (buf1, sel1) /\
    let r1 := selectionRange sel1 in
    let startLine := lineAt (bufferLines buf1) (startLineNumber r1) in
    let endLine := lineAt (bufferLines buf1) (endLineNumber r1) in
    let s := startColumn r1 - 1 in
    let e := endColumn r1 - 1 in
    (noOccurrence startLine startToken
       (s - strlen startToken) (s + strlen startToken) ->
     noOccurrence endLine endToken (e - strlen endToken) e ->
     noOccurrence startLine endToken (s - 1) (s + strlen endToken) ->
     executeCommand registry buf1 sel1
     = Some (buf,
             newSelection (startLineNumber (selectionRange sel))
                          (startColumn (selectionRange sel))
                          (endLineNumber (selectionRange sel))
                          (endColumn (selectionRange sel)))).
Proof.
  destruct buf as [lines lang].
  destruct (selectionRange sel) as [l1 c1 l2 c2] eqn:Hsel.
  cbn [bufferLines bufferLanguage startLineNumber startColumn endLineNumber
       endColumn].
  intros Hvalid Hne Hst Het Hsl Hel Hreg.
  eexists _, _. split.
  - exact (round_trip_executeAdd lines startToken endToken l1 c1 l2 c2
             Hvalid Hne Hsl Hel lang sel Hsel).
  - cbn [newSelection selectionRange bufferLines].
    rewrite (newRange_ordered _ _ _ _
               (new_selection_ordered lines startToken endToken l1 c1 l2 c2
                  Hvalid Hne)).
    cbn [startLineNumber startColumn endLineNumber endColumn].
    intros Ha Hb Hc.
    exact (round_trip_executeCommand lines startToken endToken l1 c1 l2 c2
             Hvalid Hne lang Hst Het Ha Hb Hc registry lineToken Hreg).
Qed.

(** Two selections for which the three conditions hold: a word on a line,
    and a selection that runs from one line into the next. *)
Example second_run_restores_example :
  (exists buf1 sel1,
     executeAdd (RC := plainRange) (str "/*") (str "*/")
       (mkBuffer [str "hello world"] 0)
       (newSelection (RC := plainRange) 1 1 1 6)
     = Some (buf1, sel1) /\
     executeCommand (RC := plainRange) (oneLanguage 0 (str "/*") (str "*/"))
       buf1 sel1
     = Some (mkBuffer [str "hello world"] 0,
             newSelection (RC := plainRange) 1 1 1 6)) /\
  (exists buf1 sel1,
     executeAdd (RC := plainRange) (str "/*") (str "*/")
       (mkBuffer [str "foo bar"; str "baz qux"] 0)
       (newSelection (RC := plainRange) 1 5 2 4)
     = Some (buf1, sel1) /\
     executeCommand (RC := plainRange) (oneLanguage 0 (str "/*") (str "*/"))
       buf1 sel1
     = Some (mkBuffer [str "foo bar"; str "baz qux"] 0,
             newSelection (RC := plainRange) 1 5 2 4)).
Proof.
  split.
  - destruct (second_run_restores (RC := plainRange)
                (oneLanguage 0 (str "/*") (str "*/"))
                (mkBuffer [str "hello world"] 0)
                (newSelection (RC := plainRange) 1 1 1 6)
                None (str "/*") (str "*/")
                eq_refl eq_refl
                ltac:(discriminate) ltac:(discriminate)
                eq_refl eq_refl eq_refl)
      as [buf1 [sel1 [Hadd Hback]]].
    exists buf1, sel1. split; [exact Hadd |].
    assert (E : Some (buf1, sel1)
                = Some (mkBuffer [str "/* hello */ world"] 0,
                        newSelection (RC := plainRange) 1 4 1 9)).
    { rewrite <- Hadd. vm_compute. reflexivity. }
    injection E as -> ->.
    apply Hback; apply noOccurrenceb_sound; vm_compute; reflexivity.
  - destruct (second_run_restores (RC := plainRange)
                (oneLanguage 0 (str "/*") (str "*/"))
                (mkBuffer [str "foo bar"; str "baz qux"] 0)
                (newSelection (RC := plainRange) 1 5 2 4)
                None (str "/*") (str "*/")
                eq_refl eq_refl
                ltac:(discriminate) ltac:(discriminate)
                eq_refl eq_refl eq_refl)
      as [buf1 [sel1 [Hadd Hback]]].
    exists buf1, sel1. split; [exact Hadd |].
    assert (E : Some (buf1, sel1)
                = Some (mkBuffer [str "foo /* bar"; str "baz */ qux"] 0,
                        newSelection (RC := plainRange) 1 8 2 4)).
    { rewrite <- Hadd. vm_compute. reflexivity. }
    injection E as -> ->.
    apply Hback; apply noOccurrenceb_sound; vm_compute; reflexivity.
Qed.

(** Selecting the five characters slash, star, f, o, o and adding a comment
    gives a line in which the second run finds the start token of the
    selected text, not the one inserted: the remove plan it builds deletes
    that one, and a space stays behind.  All ranges involved have their ends
    in order, so the outcome is the same for both range constructors. *)
Example second_run_finds_selected_start_token :
  (executeAdd (RC := plainRange) (str "/*") (str "*/")
     (mkBuffer [str "/*foo"] 0) (newSelection (RC := plainRange) 1 1 1 6)
   = Some (mkBuffer [str "/* /*foo */"] 0,
           newSelection (RC := plainRange) 1 4 1 9) /\
   getEditOperations (RC := plainRange)
     (newBlockCommentCommand (newSelection (RC := plainRange) 1 4 1 9))
     (mkBuffer [str "/* /*foo */"] 0) []
     (oneLanguage 0 (str "/*") (str "*/"))
   = removeOutcome (RC := plainRange)
       (newBlockCommentCommand (newSelection (RC := plainRange) 1 4 1 9))
       (mkRange 1 6 1 9) (str "/*") (str " */") [] /\
   executeCommand (RC := plainRange) (oneLanguage 0 (str "/*") (str "*/"))
     (mkBuffer [str "/* /*foo */"] 0) (newSelection (RC := plainRange) 1 4 1 9)
   = Some (mkBuffer [str "/* foo"] 0,
           newSelection (RC := plainRange) 1 4 1 7)) /\
  (executeAdd (RC := swappingRange) (str "/*") (str "*/")
     (mkBuffer [str "/*foo"] 0) (newSelection (RC := swappingRange) 1 1 1 6)
   = Some (mkBuffer [str "/* /*foo */"] 0,
           newSelection (RC := swappingRange) 1 4 1 9) /\
   executeCommand (RC := swappingRange) (oneLanguage 0 (str "/*") (str "*/"))
     (mkBuffer [str "/* /*foo */"] 0)
     (newSelection (RC := swappingRange) 1 4 1 9)
   = Some (mkBuffer [str "/* foo"] 0,
           newSelection (RC := swappingRange) 1 4 1 7)) /\
  mkBuffer [str "/* foo"] 0 <> mkBuffer [str "/*foo"] 0.
Proof.
  split; [| split].
  - repeat split; vm_compute; reflexivity.
  - repeat split; vm_compute; reflexivity.
  - vm_compute. discriminate.
Qed.

(** A selection of one
    character is shorter than the end token: the search for an end token
    before the cursor meets the end token just inserted, the second run
    takes the add plan and comments the text a second time. *)
Example second_run_adds_again :
  executeAdd (RC := plainRange) (str "/*") (str "*/")
    (mkBuffer [str "a"] 0) (newSelection (RC := plainRange) 1 1 1 2)
  = Some (mkBuffer [str "/* a */"] 0,
          newSelection (RC := plainRange) 1 4 1 5) /\
  executeCommand (RC := plainRange) (oneLanguage 0 (str "/*") (str "*/"))
    (mkBuffer [str "/* a */"] 0) (newSelection (RC := plainRange) 1 4 1 5)
  = Some (mkBuffer [str "/* /* a */ */"] 0,
          newSelection (RC := plainRange) 1 7 1 8).
Proof. split; vm_compute; reflexivity. Qed.

(** Selected text that ends with an end token: the second run finds that
    one, not the one inserted behind it. *)
Example second_run_misses_end_token :
  executeAdd (RC := plainRange) (str "/*") (str "*/")
    (mkBuffer [str "foo*/"] 0) (newSelection (RC := plainRange) 1 1 1 6)
  = Some (mkBuffer [str "/* foo*/ */"] 0,
          newSelection (RC := plainRange) 1 4 1 9) /\
  executeCommand (RC := plainRange) (oneLanguage 0 (str "/*") (str "*/"))
    (mkBuffer [str "/* foo*/ */"] 0) (newSelection (RC := plainRange) 1 4 1 9)
  = Some (mkBuffer [str "foo */"] 0,
          newSelection (RC := plainRange) 1 1 1 4).
Proof. split; vm_compute; reflexivity. Qed.

(** C7.  Given two inverse operations, the new selection is anchored at the
    end of the range of the first and has its active end at the start of the
    range of the second.  So after the add plan for a selection that is not
    collapsed, the selection starts right behind the start token and space
    that were inserted and ends right before the space and end token that
    were inserted: it holds what lies between the two edits. *)
Theorem computeCursorState_two_ranges `{RC : RangeConstructor}
    {M : Type} `{TM : ITokenizedModel M}
    (this : BlockCommentCommand) (model : M)
    (first second : IIdentifiedSingleEditOperation) :
  computeCursorState this model [first; second] =
  Some (newSelection (endLineNumber (range first)) (endColumn (range first))
                     (startLineNumber (range second))
                     (startColumn (range second))) /\
  (forall (buf : TextBuffer) (sel : Selection) (startToken endToken : JSString),
     validRange (bufferLines buf) (selectionRange sel) = true ->
     Range_isEmpty (selectionRange sel) = false ->
     noLineBreak startToken = true -> noLineBreak endToken = true ->
     exists buf1 sel1 p u q v,
       executeAdd startToken endToken buf sel = Some (buf1, sel1) /\
       startLineNumber (selectionRange sel1)
       = startLineNumber (selectionRange sel) /\
       endLineNumber (selectionRange sel1)
       = endLineNumber (selectionRange sel) /\
       lineAt (bufferLines buf1) (startLineNumber (selectionRange sel1))
       = p ++ (startToken ++ SPACE) ++ u /\
       startColumn (selectionRange sel1)
       = strlen (p ++ startToken ++ SPACE) + 1 /\
       lineAt (bufferLines buf1) (endLineNumber (selectionRange sel1))
       = q ++ (SPACE ++ endToken) ++ v /\
       endColumn (selectionRange sel1) = strlen q + 1).
Proof.
  split; [reflexivity |].
  intros [lines lang] sel startToken endToken.
  destruct (selectionRange sel) as [l1 c1 l2 c2] eqn:Hsel.
  cbn [bufferLines startLineNumber startColumn endLineNumber endColumn].
  intros Hvalid Hne Hsl Hel.
  destruct (round_trip_startLine lines startToken endToken l1 c1 l2 c2
              Hvalid Hne) as [p [u [HA Hp]]].
  destruct (round_trip_endLine lines startToken endToken l1 c1 l2 c2
              Hvalid Hne) as [q [v [HB Hq]]].
  eexists _, _, p, u, q, v. split.
  - exact (round_trip_executeAdd lines startToken endToken l1 c1 l2 c2
             Hvalid Hne Hsl Hel lang sel Hsel).
  - cbn [newSelection selectionRange bufferLines].
    rewrite (newRange_ordered _ _ _ _
               (new_selection_ordered lines startToken endToken l1 c1 l2 c2
                  Hvalid Hne)).
    cbn [startLineNumber startColumn endLineNumber endColumn].
    rewrite HA, HB, !strlen_app, strlen_SPACE, <- !app_assoc.
    repeat split; lia.
Qed.

Lemma computeCursorState_two_ranges_witness :
  exists buf1 sel1 p u q v,
    executeAdd (RC := plainRange) (str "/*") (str "*/")
      (mkBuffer [str "hello world"] 0) (newSelection (RC := plainRange) 1 1 1 6)
    = Some (buf1, sel1) /\
    startLineNumber (selectionRange sel1) = 1 /\
    endLineNumber (selectionRange sel1) = 1 /\
    lineAt (bufferLines buf1) (startLineNumber (selectionRange sel1))
    = p ++ (str "/*" ++ SPACE) ++ u /\
    startColumn (selectionRange sel1) = strlen (p ++ str "/*" ++ SPACE) + 1 /\
    lineAt (bufferLines buf1) (endLineNumber (selectionRange sel1))
    = q ++ (SPACE ++ str "*/") ++ v /\
    endColumn (selectionRange sel1) = strlen q + 1.
Proof.
  apply (proj2 (computeCursorState_two_ranges (RC := plainRange)
                  (TM := TextBuffer_model)
                  (newBlockCommentCommand
                     (newSelection (RC := plainRange) 1 1 1 6))
                  (mkBuffer [str "hello world"] 0)
                  {| range := mkRange 1 1 1 4; text := [] |}
                  {| range := mkRange 1 9 1 12; text := [] |})
           (mkBuffer [str "hello world"] 0)
           (newSelection (RC := plainRange) 1 1 1 6)
           (str "/*") (str "*/")
           eq_refl eq_refl eq_refl eq_refl).
Defined.

(** ** A space shared by the two tokens *)

(** C3.  The whitespace adjustment where a single space stands between the
    two tokens.  On the line slash-star, space, star-slash with the cursor
    at its start both tokens are found, no end token closes the comment
    before the cursor, and the space behind the start token is the space
    before the end token.  Both tokens are widened by it, and the content
    range handed to the builder of the remove plan has its end before its
    start.  With a range constructor that puts such ends in order the two
    deletions are columns 0 to 3 and columns 4 to 7: the first begins
    before the line does and the second ends behind it, and neither is a
    token with its space.  With one that keeps the ends as given they are
    columns 1 to 4 and columns 3 to 6: each is a token with the space, and
    the two overlap on that one space. *)
Theorem whitespace_adjustment_shared_space :
  lastOccurrence (str "/* */") (str "/*") (1 - 1 + strlen (str "/*")) 0 /\
  firstOccurrence (str "/* */") (str "*/") (1 - 1 - strlen (str "*/")) 3 /\
  ~ closedBeforeSelection (str "/* */") (str "/*") (str "*/") 1 0 /\
  isSpaceAt (str "/* */") (0 + strlen (str "/*")) = true /\
  isSpaceAt (str "/* */") (3 - 1) = true /\
  getEditOperations (RC := swappingRange)
    (newBlockCommentCommand (newSelection (RC := swappingRange) 1 1 1 1))
    (mkBuffer [str "/* */"] 0) [] (oneLanguage 0 (str "/*") (str "*/"))
  = Some (newBlockCommentCommand (newSelection (RC := swappingRange) 1 1 1 1),
          [ (mkRange 1 0 1 3, []); (mkRange 1 4 1 7, []) ]) /\
  getEditOperations (RC := plainRange)
    (newBlockCommentCommand (newSelection (RC := plainRange) 1 1 1 1))
    (mkBuffer [str "/* */"] 0) [] (oneLanguage 0 (str "/*") (str "*/"))
  = Some (newBlockCommentCommand (newSelection (RC := plainRange) 1 1 1 1),
          [ (mkRange 1 1 1 4, []); (mkRange 1 3 1 6, []) ]).
Proof.
  change (strlen (str "/*")) with 2. change (strlen (str "*/")) with 2.
  split; [| split; [| split; [| split; [| split; [| split]]]]].
  - split; [reflexivity | split; [lia |]].
    intros j Hj.
    apply (noOccurrenceb_sound (str "/* */") (str "/*") 1 2); [| lia].
    vm_compute. reflexivity.
  - split; [reflexivity | split; [lia |]].
    intros j Hj.
    apply (noOccurrenceb_sound (str "/* */") (str "*/") (-2) 2); [| lia].
    vm_compute. reflexivity.
  - intros [k [[Hk1 [Hk2 _]] Hk3]].
    change (strlen (str "*/")) with 2 in Hk2.
    pose proof (haystackHasNeedleAtOffset_bounds _ _ _ Hk1) as [Hk0 _].
    rewrite (noOccurrenceb_sound (str "/* */") (str "*/") 0 2) in Hk1.
    + discriminate.
    + vm_compute. reflexivity.
    + lia.
  - reflexivity.
  - reflexivity.
  - vm_compute. reflexivity.
  - vm_compute. reflexivity.
Qed.

(** ** The statements above at concrete inputs *)

Lemma createRemoveBlockCommentOperations_correct_witness :
  _createRemoveBlockCommentOperations (RC := plainRange)
    (mkRange 1 4 1 8) (str "/* ") (str " */")
  = [ {| range := mkRange 1 1 1 4; text := [] |};
      {| range := mkRange 1 8 1 11; text := [] |} ] /\
  _createRemoveBlockCommentOperations (RC := plainRange)
    (mkRange 1 3 1 3) (str "/*") (str "*/")
  = [ {| range := mkRange 1 1 1 5; text := [] |} ].
Proof.
  split.
  - apply (proj1 (createRemoveBlockCommentOperations_correct
                    (RC := plainRange) (mkRange 1 4 1 8)
                    (str "/* ") (str " */"))).
    reflexivity.
  - apply (proj2 (createRemoveBlockCommentOperations_correct
                    (RC := plainRange) (mkRange 1 3 1 3)
                    (str "/*") (str "*/"))).
    reflexivity.
Defined.

(** The two shapes of the add plan; a cursor in a line without tokens,
    where the start token is not found; and one letter selected between two
    comments, where the end token of the first closes it before the
    selection: the command held an end token from before and holds none
    afterwards. *)
Lemma createAddBlockCommentOperations_correct_witness :
  _createAddBlockCommentOperations (RC := plainRange)
    (mkRange 1 1 1 6) (str "/*") (str "*/")
  = [ {| range := mkRange 1 1 1 1; text := str "/* " |};
      {| range := mkRange 1 6 1 6; text := str " */" |} ] /\
  _createAddBlockCommentOperations (RC := plainRange)
    (mkRange 1 3 1 3) (str "/*") (str "*/")
  = [ {| range := mkRange 1 3 1 3; text := str "/*  */" |} ] /\
  _createOperationsForBlockComment (RC := plainRange)
    (newBlockCommentCommand (newSelection (RC := plainRange) 1 3 1 3))
    (mkRange 1 3 1 3)
    (mkComments None (Some (str "/*")) (Some (str "*/")))
    (mkBuffer [str "hello"] 0) []
  = Some (mkCommand (newSelection (RC := plainRange) 1 3 1 3)
                    (Some (str "*/")),
          [ (mkRange 1 3 1 3, str "/*  */") ]) /\
  _createOperationsForBlockComment (RC := plainRange)
    (mkCommand (newSelection (RC := plainRange) 1 10 1 11) (Some (str "*/")))
    (mkRange 1 10 1 11)
    (mkComments None (Some (str "/*")) (Some (str "*/")))
    (mkBuffer [str "/* a */ bcd /* e */"] 0) []
  = Some (mkCommand (newSelection (RC := plainRange) 1 10 1 11) None,
          [ (mkRange 1 10 1 10, str "/* ");
            (mkRange 1 11 1 11, str " */") ]).
Proof.
  split; [| split; [| split]].
  - apply (proj1 (createAddBlockCommentOperations_correct
                    (RC := plainRange) (M := TextBuffer)
                    (mkRange 1 1 1 6) (str "/*") (str "*/"))).
    reflexivity.
  - apply (proj1 (proj2 (createAddBlockCommentOperations_correct
                           (RC := plainRange) (M := TextBuffer)
                           (mkRange 1 3 1 3) (str "/*") (str "*/")))).
    reflexivity.
  - assert (Hadd :
      (~ (exists i, lastOccurrence (str "hello") (str "/*") 4 i)) \/
      (~ (exists j, firstOccurrence (str "hello") (str "*/") 0 j)) \/
      (exists i j,
         lastOccurrence (str "hello") (str "/*") 4 i /\
         firstOccurrence (str "hello") (str "*/") 0 j /\
         closedBeforeSelection (str "hello") (str "/*") (str "*/") 3 i)).
    { left. intros [i [Hi [Hle _]]].
      pose proof (haystackHasNeedleAtOffset_bounds _ _ _ Hi) as [H0 _].
      rewrite (noOccurrenceb_sound (str "hello") (str "/*") 0 4) in Hi.
      - discriminate.
      - vm_compute. reflexivity.
      - lia. }
    apply (proj1 (proj2 (proj2 (createAddBlockCommentOperations_correct
                                  (RC := plainRange) (TM := TextBuffer_model)
                                  (mkRange 1 3 1 3) (str "/*") (str "*/")))
                   (newBlockCommentCommand
                      (newSelection (RC := plainRange) 1 3 1 3))
                   (mkBuffer [str "hello"] 0) [] None
                   ltac:(discriminate) ltac:(discriminate) ltac:(cbn; lia)
                   Hadd)).
    reflexivity.
  - assert (Hi : lastOccurrence (str "/* a */ bcd /* e */") (str "/*") 11 0).
    { split; [reflexivity | split; [lia |]].
      intros j Hj.
      apply (noOccurrenceb_sound (str "/* a */ bcd /* e */") (str "/*") 1 11);
        [| lia].
      vm_compute. reflexivity. }
    assert (Hj : firstOccurrence (str "/* a */ bcd /* e */") (str "*/") 8 17).
    { split; [reflexivity | split; [lia |]].
      intros j Hj.
      apply (noOccurrenceb_sound (str "/* a */ bcd /* e */") (str "*/") 8 16);
        [| lia].
      vm_compute. reflexivity. }
    assert (Hclosed : closedBeforeSelection (str "/* a */ bcd /* e */")
                        (str "/*") (str "*/") 10 0).
    { exists 5. split; [| vm_compute; reflexivity].
      split; [reflexivity | split; [vm_compute; discriminate |]].
      intros k Hk. change (strlen (str "*/")) with 2 in Hk.
      apply (noOccurrenceb_sound (str "/* a */ bcd /* e */") (str "*/") 6 11);
        [| lia].
      vm_compute. reflexivity. }
    apply (proj2 (proj2 (proj2 (createAddBlockCommentOperations_correct
                                  (RC := plainRange) (TM := TextBuffer_model)
                                  (mkRange 1 10 1 11) (str "/*") (str "*/")))
                   (mkCommand (newSelection (RC := plainRange) 1 10 1 11)
                              (Some (str "*/")))
                   (mkBuffer [str "/* a */ bcd /* e */"] 0) [] None
                   ltac:(discriminate) ltac:(discriminate) ltac:(cbn; lia)
                   (or_intror (or_intror
                      (ex_intro _ 0 (ex_intro _ 17
                         (conj Hi (conj Hj Hclosed)))))))).
    reflexivity.
Defined.

(** The example of the classification: the start line holds a start token
    and a space right before the selection, the end line an end token behind
    it, and nothing closes the comment before the selection; the outcome is
    a remove plan. *)
Lemma classification_correct_witness :
  isRemoveOutcome (RC := plainRange)
    (newBlockCommentCommand (newSelection (RC := plainRange) 1 6 2 2)) []
    (_createOperationsForBlockComment (RC := plainRange)
       (newBlockCommentCommand (newSelection (RC := plainRange) 1 6 2 2))
       (mkRange 1 6 2 2)
       (mkComments None (Some (str "/*")) (Some (str "*/")))
       (mkBuffer [str "a /* b"; str "c */ d"] 0) []).
Proof.
  assert (Hi : lastOccurrence (str "a /* b") (str "/*") 7 2).
  { split; [reflexivity | split; [lia |]].
    intros j Hj.
    apply (noOccurrenceb_sound (str "a /* b") (str "/*") 3 7); [| lia].
    vm_compute. reflexivity. }
  assert (Hj : firstOccurrence (str "c */ d") (str "*/") (-1) 2).
  { split; [reflexivity | split; [lia |]].
    intros j Hj.
    apply (noOccurrenceb_sound (str "c */ d") (str "*/") (-1) 1); [| lia].
    vm_compute. reflexivity. }
  assert (Hopen : ~ closedBeforeSelection (str "a /* b") (str "/*") (str "*/")
                      6 2).
  { intros [k [[Hk1 [Hk2 _]] Hk3]].
    change (strlen (str "*/")) with 2 in Hk2.
    change (strlen (str "/*")) with 2 in Hk3.
    rewrite (noOccurrenceb_sound (str "a /* b") (str "*/") 4 7) in Hk1.
    - discriminate.
    - vm_compute. reflexivity.
    - lia. }
  apply (proj2 (proj1 (classification_correct (RC := plainRange)
                         (TM := TextBuffer_model)
                         (newBlockCommentCommand
                            (newSelection (RC := plainRange) 1 6 2 2))
                         (mkRange 1 6 2 2)
                         (mkBuffer [str "a /* b"; str "c */ d"] 0)
                         [] None (str "/*") (str "*/")
                         ltac:(discriminate) ltac:(discriminate)
                         ltac:(cbn; lia))
                  2 2 Hi Hj)).
  exact Hopen.
Defined.

(** The whitespace adjustment on the line slash-star, space, text, space,
    star-slash with the word selected: both spaces go with their tokens. *)
Lemma whitespace_adjustment_ordered_example :
  _createOperationsForBlockComment (RC := plainRange)
    (newBlockCommentCommand (newSelection (RC := plainRange) 1 4 1 8))
    (mkRange 1 4 1 8)
    (mkComments None (Some (str "/*")) (Some (str "*/")))
    (mkBuffer [str "/* text */"] 0) []
  = Some (newBlockCommentCommand (newSelection (RC := plainRange) 1 4 1 8),
          [ (mkRange 1 1 1 4, []); (mkRange 1 8 1 11, []) ]).
Proof.
  assert (Hi : lastOccurrence (str "/* text */") (str "/*") 5 0).
  { split; [reflexivity | split; [lia |]].
    intros j Hj.
    apply (noOccurrenceb_sound (str "/* text */") (str "/*") 1 5); [| lia].
    vm_compute. reflexivity. }
  assert (Hj : firstOccurrence (str "/* text */") (str "*/") 5 8).
  { split; [reflexivity | split; [lia |]].
    intros j Hj.
    apply (noOccurrenceb_sound (str "/* text */") (str "*/") 5 7); [| lia].
    vm_compute. reflexivity. }
  assert (Hopen : ~ closedBeforeSelection (str "/* text */") (str "/*")
                      (str "*/") 4 0).
  { intros [k [[Hk1 [Hk2 _]] Hk3]].
    change (strlen (str "*/")) with 2 in Hk2.
    change (strlen (str "/*")) with 2 in Hk3.
    rewrite (noOccurrenceb_sound (str "/* text */") (str "*/") 2 5) in Hk1.
    - discriminate.
    - vm_compute. reflexivity.
    - lia. }
  apply (proj1 (proj2 (whitespace_adjustment_ordered (RC := plainRange)
                         (TM := TextBuffer_model)
                         (newBlockCommentCommand
                            (newSelection (RC := plainRange) 1 4 1 8))
                         (mkRange 1 4 1 8)
                         (mkBuffer [str "/* text */"] 0)
                         [] None (str "/*") (str "*/") 0 8
                         ltac:(discriminate) ltac:(discriminate)
                         ltac:(cbn; lia) Hi Hj Hopen))).
  right. split; [reflexivity |]. vm_compute. discriminate.
Defined.

(** A cursor at column 3 of a line without comment: the add plan replaces
    the empty range by slash-star, two spaces, star-slash, and the cursor
    goes between the two spaces. *)
Lemma computeCursorState_one_range_witness :
  computeCursorState (RC := plainRange)
    (mkCommand (newSelection (RC := plainRange) 1 3 1 3) (Some (str "*/")))
    (mkBuffer [str "he/*  */llo"] 0)
    [ {| range := mkRange 1 3 1 9; text := [] |} ]
  = Some (newSelection (RC := plainRange) 1 6 1 6).
Proof.
  apply (proj1 (computeCursorState_one_range (RC := plainRange)
                  (TM := TextBuffer_model)
                  (newSelection (RC := plainRange) 1 3 1 3)
                  (mkBuffer [str "hello"] 0)
                  (mkBuffer [str "he/*  */llo"] 0)
                  (oneLanguage 0 (str "/*") (str "*/"))
                  (mkCommand (newSelection (RC := plainRange) 1 3 1 3)
                             (Some (str "*/")))
                  [ (mkRange 1 3 1 3, str "/*  */") ]
                  {| range := mkRange 1 3 1 9; text := [] |}
                  eq_refl)).
Defined.

(** A language with a start token and no end token: nothing is submitted. *)
Lemma getEditOperations_unsupported_language_witness :
  getEditOperations (RC := plainRange)
    (newBlockCommentCommand (newSelection (RC := plainRange) 1 1 1 6))
    (mkBuffer [str "hello world"] 0) []
    (fun _ => Some (mkComments None (Some (str "/*")) None))
  = Some (newBlockCommentCommand (newSelection (RC := plainRange) 1 1 1 6), []).
Proof.
  apply (getEditOperations_unsupported_language (RC := plainRange)
           (TM := TextBuffer_model)
           (newBlockCommentCommand (newSelection (RC := plainRange) 1 1 1 6))
           (mkBuffer [str "hello world"] 0) []
           (fun _ => Some (mkComments None (Some (str "/*")) None))).
  right. eexists. split; [reflexivity |]. right. left. reflexivity.
Defined.

(** * Further properties *)

(** ** The matcher and the text around a match *)

Lemma haystackHasNeedleAtOffset_split
    (haystack needle : JSString) (offset : Z) :
  _haystackHasNeedleAtOffset haystack needle offset = true <->
  exists before behind,
    haystack = before ++ needle ++ behind /\ strlen before = offset.
Proof.
  split.
  - intros H.
    pose proof (haystackHasNeedleAtOffset_bounds _ _ _ H) as [H0 _].
    replace offset with (Z.of_nat (Z.to_nat offset)) in H by lia.
    apply haystackHasNeedleAtOffset_startsWith in H. destruct H as [Hle Hs].
    apply startsWith_true in Hs. destruct Hs as [behind Hs].
    exists (firstn (Z.to_nat offset) haystack), behind. split.
    + rewrite <- Hs. symmetry. apply firstn_skipn.
    + unfold strlen. rewrite length_firstn. lia.
  - intros [before [behind [-> <-]]]. apply needle_after_prefix.
Qed.

(** X1.  The matcher answers true at an offset exactly when the haystack is
    some text of that length, then the needle, then some text. *)
Theorem haystackHasNeedleAtOffset_decompose
    (haystack needle : JSString) (offset : Z) :
  _haystackHasNeedleAtOffset haystack needle offset = true <->
  exists before behind,
    haystack = before ++ needle ++ behind /\ strlen before = offset.
Proof. exact (haystackHasNeedleAtOffset_split haystack needle offset). Qed.

(** X2.  The empty needle is found at every offset from 0 to the length of
    the haystack, both included, and nowhere else. *)
Theorem haystackHasNeedleAtOffset_empty_needle
    (haystack : JSString) (offset : Z) :
  _haystackHasNeedleAtOffset haystack [] offset = true <->
  0 <= offset <= strlen haystack.
Proof.
  split.
  - intros H. pose proof (haystackHasNeedleAtOffset_bounds _ _ _ H) as [H0 H1].
    change (strlen []) with 0 in H1. lia.
  - intros H. apply haystackHasNeedleAtOffset_split.
    destruct (line_split2 haystack (offset + 1)) as [p [s [Hh Hp]]]; [lia | lia |].
    exists p, s. split; [exact Hh | lia].
Qed.

(** X3.  A needle made of two parts is found at an offset exactly when the
    first part is found there and the second part right behind it. *)
Theorem haystackHasNeedleAtOffset_app_needle
    (haystack needle1 needle2 : JSString) (offset : Z) :
  _haystackHasNeedleAtOffset haystack (needle1 ++ needle2) offset =
  _haystackHasNeedleAtOffset haystack needle1 offset
  && _haystackHasNeedleAtOffset haystack needle2 (offset + strlen needle1).
Proof.
  apply Bool.eq_iff_eq_true.
  rewrite andb_true_iff, !haystackHasNeedleAtOffset_split. split.
  - intros [before [behind [-> <-]]]. split.
    + exists before, (needle2 ++ behind). split; [| reflexivity].
      rewrite <- app_assoc. reflexivity.
    + exists (before ++ needle1), behind. split.
      * rewrite <- !app_assoc. reflexivity.
      * apply strlen_app.
  - intros [[before [behind [Hh Hb]]] [before' [behind' [Hh' Hb']]]].
    exists before, behind'. split; [| exact Hb].
    assert (E : before' = before ++ needle1 /\ needle2 ++ behind' = behind).
    { rewrite Hh in Hh'. rewrite (app_assoc before needle1 behind) in Hh'.
      apply app_eq_app in Hh'.
      assert (Hl : List.length (before ++ needle1) = List.length before').
      { apply Nat2Z.inj. fold (strlen (before ++ needle1)). fold (strlen before').
        rewrite strlen_app. lia. }
      destruct Hh' as [l [[E1 E2] | [E1 E2]]].
      - rewrite E1, !length_app in Hl.
        assert (l = []) by (destruct l; [reflexivity | simpl in Hl; lia]).
        subst l. rewrite app_nil_r in E1. simpl in E2. split; congruence.
      - rewrite E1, !length_app in Hl.
        assert (l = []) by (destruct l; [reflexivity | simpl in Hl; lia]).
        subst l. rewrite app_nil_r in E1. simpl in E2. split; congruence. }
    destruct E as [_ <-]. rewrite Hh, <- app_assoc. reflexivity.
Qed.

(** ** What the first phase submits *)

Section Submitted.
Context `{RC : RangeConstructor}.
Context {M : Type} `{TM : ITokenizedModel M}.

(** The three ways through [getEditOperations]. *)
Lemma getEditOperations_plan
    (this : BlockCommentCommand) (model : M)
    (builder : IEditOperationBuilder) (registry : CommentsRegistry) :
  (unsupportedLanguage registry (resolvedLanguage this model) /\
   getEditOperations this model builder registry = Some (this, builder)) \/
  (exists lineToken startToken endToken,
     registry (resolvedLanguage this model)
     = Some (mkComments lineToken (Some startToken) (Some endToken)) /\
     startToken <> [] /\ endToken <> [] /\
     (getEditOperations this model builder registry
      = addOutcome this (selectionRange (_selection this))
          startToken endToken builder \/
      isRemoveOutcome this builder
        (getEditOperations this model builder registry))).
Proof.
  unfold getEditOperations, resolvedLanguage, unsupportedLanguage,
    absentOrEmpty.
  destruct (registry _) as [[lt [[| a st] |] [[| b et] |]] |] eqn:Hreg;
    cbn [truthy blockCommentStartToken blockCommentEndToken negb orb];
    try (left; split; [| reflexivity]);
    try (right; eexists; split; [reflexivity |]; cbn; tauto);
    try (left; reflexivity).
  right. exists lt, (a :: st), (b :: et).
  split; [reflexivity |]. split; [discriminate |]. split; [discriminate |].
  apply createOperationsForBlockComment_cases.
Qed.

Lemma remove_plan_length r startToken endToken :
  (1 <= List.length
          (_createRemoveBlockCommentOperations r startToken endToken) <= 2)%nat.
Proof.
  unfold _createRemoveBlockCommentOperations.
  destruct (negb (Range_isEmpty r)); simpl; lia.
Qed.

Lemma add_plan_length r startToken endToken :
  (1 <= List.length
          (_createAddBlockCommentOperations r startToken endToken) <= 2)%nat.
Proof.
  unfold _createAddBlockCommentOperations.
  destruct (negb (Range_isEmpty r)); simpl; lia.
Qed.

Lemma plan_ranges_single_line r startToken endToken op :
  In op (_createAddBlockCommentOperations r startToken endToken) \/
  In op (_createRemoveBlockCommentOperations r startToken endToken) ->
  singleLine (range op).
Proof.
  pose proof (strlen_nonneg startToken) as Hs.
  pose proof (strlen_nonneg endToken) as He.
  pose proof (createAddBlockCommentOperations_shape r startToken endToken)
    as [Ha2 Ha1].
  pose proof (createRemoveBlockCommentOperations_shape r startToken endToken)
    as [Hr2 Hr1].
  unfold singleLine.
  destruct (Range_isEmpty r) eqn:Hr.
  - rewrite (Ha1 eq_refl), (Hr1 eq_refl).
    apply Range_isEmpty_true in Hr. destruct Hr as [Hl Hc].
    intros [[<- | []] | [<- | []]]; cbn [range startLineNumber startColumn
      endLineNumber endColumn]; lia.
  - rewrite (Ha2 eq_refl), (Hr2 eq_refl).
    intros [[<- | [<- | []]] | [<- | [<- | []]]];
      cbn [range startLineNumber startColumn endLineNumber endColumn]; lia.
Qed.

(** X5.  The first phase keeps what the builder already tracks and adds at
    most two operations behind it; it adds none exactly when the language
    at the start of the selection offers no block comment. *)
Theorem getEditOperations_appends
    (this : BlockCommentCommand) (model : M)
    (builder : IEditOperationBuilder) (registry : CommentsRegistry) :
  exists this' added,
    getEditOperations this model builder registry
    = Some (this', builder ++ added) /\
    (List.length added <= 2)%nat /\
    (added = [] <->
     unsupportedLanguage registry (resolvedLanguage this model)).
Proof.
  destruct (getEditOperations_plan this model builder registry)
    as [[Hun Hget] | [lt [st [et [Hreg [Hst [Het Hget]]]]]]].
  - exists this, []. rewrite app_nil_r. split; [exact Hget |].
    split; [simpl; lia |]. tauto.
  - assert (Hsup : ~ unsupportedLanguage registry (resolvedLanguage this model)).
    { unfold unsupportedLanguage, absentOrEmpty. rewrite Hreg.
      intros [? | [config [[= <-] [[? | ?] | [? | ?]]]]];
        cbn in *; congruence. }
    destruct Hget as [Hget | [content [st' [et' Hget]]]].
    + eexists _, _. rewrite Hget. unfold addOutcome.
      rewrite submitAll_tracked. split; [reflexivity |].
      unfold tracked. rewrite length_map.
      pose proof (add_plan_length (selectionRange (_selection this)) st et).
      split; [lia |]. split; [| contradiction].
      intros E. apply map_eq_nil in E.
      exfalso. exact (add_plan_not_nil _ _ _ E).
    + eexists _, _. rewrite Hget. unfold removeOutcome.
      rewrite submitAll_tracked. split; [reflexivity |].
      unfold tracked. rewrite length_map.
      pose proof (remove_plan_length content st' et').
      split; [lia |]. split; [| contradiction].
      intros E. apply map_eq_nil in E. rewrite E in H. simpl in H. lia.
Qed.

(** X6.  Every operation the first phase adds has a range that stays on one
    line and does not run backwards. *)
Theorem getEditOperations_single_line
    (this : BlockCommentCommand) (model : M)
    (builder : IEditOperationBuilder) (registry : CommentsRegistry) :
  exists this' added,
    getEditOperations this model builder registry
    = Some (this', builder ++ added) /\
    forall op, In op added -> singleLine (fst op).
Proof.
  destruct (getEditOperations_plan this model builder registry)
    as [[Hun Hget] | [lt [st [et [Hreg [Hst [Het Hget]]]]]]].
  - exists this, []. rewrite app_nil_r. split; [exact Hget |].
    intros op [].
  - destruct Hget as [Hget | [content [st' [et' Hget]]]].
    + eexists _, _. rewrite Hget. unfold addOutcome.
      rewrite submitAll_tracked. split; [reflexivity |].
      intros op Hop. unfold tracked in Hop. apply in_map_iff in Hop.
      destruct Hop as [o [<- Ho]]. cbn [fst].
      apply (plan_ranges_single_line (selectionRange (_selection this)) st et).
      left. exact Ho.
    + eexists _, _. rewrite Hget. unfold removeOutcome.
      rewrite submitAll_tracked. split; [reflexivity |].
      intros op Hop. unfold tracked in Hop. apply in_map_iff in Hop.
      destruct Hop as [o [<- Ho]]. cbn [fst].
      apply (plan_ranges_single_line content st' et'). right. exact Ho.
Qed.

(** X7.  The first phase never changes the selection the command holds.  On
    a command fresh from its constructor it records an end token only when
    it submits the single replacement of a collapsed selection, and what it
    records is the end token of the language. *)
Theorem getEditOperations_state
    (sel : Selection) (model : M)
    (builder : IEditOperationBuilder) (registry : CommentsRegistry) :
  exists this' builder',
    getEditOperations (newBlockCommentCommand sel) model builder registry
    = Some (this', builder') /\
    _selection this' = sel /\
    forall usedEndToken,
      _usedEndToken this' = Some usedEndToken ->
      Range_isEmpty (selectionRange sel) = true /\
      exists lineToken startToken,
        registry (resolvedLanguage (newBlockCommentCommand sel) model)
        = Some (mkComments lineToken (Some startToken) (Some usedEndToken)) /\
        builder' =
        builder ++
        [(selectionRange sel,
          startToken ++ SPACE ++ SPACE ++ usedEndToken)].
Proof.
  destruct (getEditOperations_plan (newBlockCommentCommand sel) model builder
              registry)
    as [[Hun Hget] | [lt [st [et [Hreg [Hst [Het Hget]]]]]]].
  - eexists _, _. split; [exact Hget |]. split; [reflexivity |].
    intros t Ht. discriminate.
  - destruct Hget as [Hget | [content [st' [et' Hget]]]].
    + eexists _, _. rewrite Hget. unfold addOutcome.
      split; [reflexivity |]. split; [reflexivity |].
      cbn [newBlockCommentCommand _selection recordUsedEndToken _usedEndToken].
      intros t Ht.
      pose proof (createAddBlockCommentOperations_shape (selectionRange sel)
                    st et) as [H2 H1].
      destruct (Range_isEmpty (selectionRange sel)) eqn:Hr.
      * rewrite (H1 eq_refl) in Ht |- *. cbn in Ht. injection Ht as <-.
        split; [reflexivity |]. exists lt, st. split; [exact Hreg |].
        rewrite submitAll_tracked. reflexivity.
      * rewrite (H2 eq_refl) in Ht. cbn in Ht. discriminate.
    + eexists _, _. rewrite Hget. unfold removeOutcome.
      split; [reflexivity |]. split; [reflexivity |].
      intros t Ht. discriminate.
Qed.

(** X8.  The step that builds the operations reads the text of the model
    only on the line where the selection starts and the line where it ends:
    two models that agree on these two lines get the same operations. *)
Theorem createOperationsForBlockComment_reads_two_lines
    (this : BlockCommentCommand) (selection : Range)
    (config : ICommentsConfiguration) (model model' : M)
    (builder : IEditOperationBuilder) :
  getLineContent model (startLineNumber selection)
  = getLineContent model' (startLineNumber selection) ->
  getLineContent model (endLineNumber selection)
  = getLineContent model' (endLineNumber selection) ->
  _createOperationsForBlockComment this selection config model builder
  = _createOperationsForBlockComment this selection config model' builder.
Proof.
  intros Hs He. unfold _createOperationsForBlockComment. cbv zeta.
  rewrite Hs, He. reflexivity.
Qed.

End Submitted.

Lemma createOperationsForBlockComment_reads_two_lines_witness :
  _createOperationsForBlockComment (RC := plainRange)
    (newBlockCommentCommand (newSelection (RC := plainRange) 1 4 2 3))
    (mkRange 1 4 2 3)
    (mkComments None (Some (str "/*")) (Some (str "*/")))
    (mkBuffer [str "/* ab"; str "cd */"; str "x"] 0) []
  = _createOperationsForBlockComment (RC := plainRange)
      (newBlockCommentCommand (newSelection (RC := plainRange) 1 4 2 3))
      (mkRange 1 4 2 3)
      (mkComments None (Some (str "/*")) (Some (str "*/")))
      (mkBuffer [str "/* ab"; str "cd */"; str "*/ y /*"; str "z"] 7) [].
Proof.
  apply (createOperationsForBlockComment_reads_two_lines (RC := plainRange)
           (TM := TextBuffer_model)); reflexivity.
Defined.

(** ** Adding a comment at a cursor *)

Lemma lineAt_outside (ls : list JSString) n :
  n < 1 \/ Z.of_nat (List.length ls) < n -> lineAt ls n = [].
Proof.
  intros Hn. unfold lineAt. destruct (Z.ltb_spec n 1); [reflexivity |].
  apply nth_overflow. lia.
Qed.

Section CollapsedAdd.
Context `{RC : RangeConstructor}.

Variable lines : list JSString.
Variables startToken endToken : JSString.
Variables l c : Z.

Hypothesis valid : validRange lines (mkRange l c l c) = true.
Hypothesis startToken_one_line : noLineBreak startToken = true.
Hypothesis endToken_one_line : noLineBreak endToken = true.

Let inserted := startToken ++ SPACE ++ SPACE ++ endToken.
Let op : Range * JSString := (mkRange l c l c, inserted).
Let lines1 := applyOperation op lines.
Let c' := c + strlen startToken + 1.

Lemma collapsed_bounds :
  1 <= l <= Z.of_nat (List.length lines) /\
  1 <= c <= strlen (lineAt lines l) + 1.
Proof.
  pose proof (proj1 (validRange_true _ _) valid) as H.
  cbn [startLineNumber startColumn endLineNumber endColumn] in H.
  destruct H as [H1 [H2 [_ [[H3 H4] _]]]]. repeat split; assumption.
Qed.

Lemma strlen_inserted :
  strlen inserted = strlen startToken + strlen endToken + 2.
Proof. unfold inserted. rewrite !strlen_app, strlen_SPACE. lia. Qed.

Lemma collapsed_line :
  exists p rest,
    lineAt lines l = p ++ rest /\ strlen p = c - 1 /\
    lineAt lines1 l = p ++ inserted ++ rest.
Proof.
  destruct collapsed_bounds as [Hl Hc].
  destruct (line_split2 (lineAt lines l) c) as [p [rest [HL Hp]]];
    [lia | lia |].
  exists p, rest. split; [exact HL |]. split; [exact Hp |].
  unfold lines1. rewrite lineAt_applyOperation; [| cbn; lia | exact Hl].
  unfold op. cbn [fst snd startLineNumber startColumn endColumn].
  rewrite Z.eqb_refl, HL. apply replaceInLine_insert. lia.
Qed.

Lemma collapsed_other_lines n :
  n <> l -> lineAt lines1 n = lineAt lines n.
Proof.
  intros Hn. destruct collapsed_bounds as [Hl _].
  destruct (Z_lt_le_dec n 1) as [Hlo | Hlo].
  { rewrite !lineAt_outside; [reflexivity | lia | lia]. }
  destruct (Z_lt_le_dec (Z.of_nat (List.length lines)) n) as [Hhi | Hhi].
  { rewrite !lineAt_outside; [reflexivity | lia |].
    unfold lines1. rewrite length_applyOperation. lia. }
  unfold lines1. rewrite lineAt_applyOperation; [| cbn; lia | lia].
  unfold op. cbn [fst startLineNumber].
  destruct (Z.eqb_spec n l); [contradiction | reflexivity].
Qed.

Lemma collapsed_add_applies : applyEdits lines [op] = Some lines1.
Proof.
  destruct collapsed_bounds as [Hl Hc].
  unfold applyEdits. cbn [forallb inTextOrder].
  assert (Hv : validOperation lines op = true).
  { unfold validOperation, op, inserted.
    cbn [fst snd startLineNumber startColumn endLineNumber endColumn].
    rewrite !noLineBreak_app, startToken_one_line, endToken_one_line.
    rewrite !andb_true_iff, Z.eqb_eq, !Z.leb_le.
    repeat split; try reflexivity; lia. }
  rewrite Hv. reflexivity.
Qed.

Lemma collapsed_remove_applies :
  applyEdits lines1 [(mkRange l c l (c + strlen inserted), [])] = Some lines.
Proof.
  destruct collapsed_bounds as [Hl Hc].
  destruct collapsed_line as [p [rest [HL [Hp HL1]]]].
  pose proof (strlen_nonneg inserted) as Hi.
  pose proof (strlen_nonneg rest) as Hr.
  unfold applyEdits. cbn [forallb inTextOrder].
  assert (Hv : validOperation lines1
                 (mkRange l c l (c + strlen inserted), []) = true).
  { unfold validOperation.
    cbn [fst snd startLineNumber startColumn endLineNumber endColumn].
    unfold lines1 at 1. rewrite length_applyOperation, HL1, !strlen_app.
    rewrite !andb_true_iff, Z.eqb_eq, !Z.leb_le.
    repeat split; try reflexivity; lia. }
  rewrite Hv. cbn [andb fold_right]. f_equal.
  apply lines_ext.
  { unfold lines1. rewrite !length_applyOperation. reflexivity. }
  intros n Hn. unfold lines1 in Hn. rewrite !length_applyOperation in Hn.
  rewrite lineAt_applyOperation;
    [| cbn; lia | unfold lines1; rewrite length_applyOperation; exact Hn].
  cbn [fst snd startLineNumber startColumn endColumn].
  destruct (Z.eqb_spec n l) as [-> | Hne].
  - rewrite HL1, HL.
    apply (replaceInLine_split p inserted rest []); lia.
  - apply collapsed_other_lines. exact Hne.
Qed.

Hypothesis endToken_not_empty : endToken <> [].

Lemma collapsed_executeAdd lang sel :
  selectionRange sel = mkRange l c l c ->
  executeAdd startToken endToken (mkBuffer lines lang) sel
  = Some (mkBuffer lines1 lang, newSelection l c' l c').
Proof.
  intros Hsel. unfold executeAdd. rewrite Hsel.
  assert (He : Range_isEmpty (mkRange l c l c) = true).
  { unfold Range_isEmpty. cbn. rewrite !Z.eqb_refl. reflexivity. }
  rewrite (proj2 (createAddBlockCommentOperations_shape _ _ _) He).
  unfold settle, submitAll.
  cbn [fold_left addTrackedEditOperation range text app bufferLines
       bufferLanguage].
  match goal with
  | |- context [applyEdits lines ?ops] =>
      change (applyEdits lines ops) with (applyEdits lines [op])
  end.
  rewrite collapsed_add_applies.
  unfold computeCursorState, inverseEditOperations.
  cbn [inverseEditOperationsFrom range fst snd columnShift fold_right app
       startLineNumber startColumn endLineNumber endColumn
       recordUsedEndToken _usedEndToken List.length].
  change (Z.of_nat 1 =? 1) with true. cbv iota.
  destruct endToken as [| b et] eqn:Het; [congruence |].
  rewrite <- Het.
  assert (Hc : c + 0 + strlen (startToken ++ SPACE ++ SPACE ++ endToken)
               + (- strlen endToken - 1) = c').
  { unfold c'. rewrite !strlen_app, strlen_SPACE. lia. }
  rewrite Hc. reflexivity.
Qed.

End CollapsedAdd.

(** A forced add and a run of the command that takes the add plan are the
    same run. *)
Lemma executeCommand_add `{RC : RangeConstructor}
    (registry : CommentsRegistry) (buf : TextBuffer) (sel : Selection)
    (startToken endToken : JSString) :
  getEditOperations (newBlockCommentCommand sel) buf [] registry
  = addOutcome (newBlockCommentCommand sel) (selectionRange sel)
      startToken endToken [] ->
  executeCommand registry buf sel = executeAdd startToken endToken buf sel.
Proof.
  intros H. unfold executeCommand, executeAdd. rewrite H. reflexivity.
Qed.

(** With the cursor between the two spaces the collapsed add inserted, the
    search for an end token before the cursor meets the end token behind the
    cursor, and the classification answers with the add plan. *)
Lemma cursor_between_spaces_adds `{RC : RangeConstructor}
    {M : Type} `{TM : ITokenizedModel M}
    (this : BlockCommentCommand) (model : M) (builder : IEditOperationBuilder)
    (lineToken : option JSString) (startToken endToken : JSString)
    (l cc : Z) (p rest : JSString) :
  startToken <> [] -> endToken <> [] ->
  getLineContent model l
  = p ++ startToken ++ SPACE ++ SPACE ++ endToken ++ rest ->
  cc = strlen (p ++ startToken ++ SPACE) + 1 ->
  noOccurrence (getLineContent model l) startToken
    (cc - 1 + 2 - strlen startToken) (cc - 1 + strlen startToken) ->
  _createOperationsForBlockComment this (mkRange l cc l cc)
    (mkComments lineToken (Some startToken) (Some endToken)) model builder
  = addOutcome this (mkRange l cc l cc) startToken endToken builder.
Proof.
  intros Hst Het HL Hcc Hno.
  pose proof (strlen_pos _ Hst) as Hs. pose proof (strlen_pos _ Het) as He.
  pose proof (strlen_nonneg p) as Hp.
  rewrite !strlen_app, strlen_SPACE in Hcc.
  assert (Hend : _haystackHasNeedleAtOffset (getLineContent model l) endToken cc
                 = true).
  { rewrite HL.
    replace (p ++ startToken ++ SPACE ++ SPACE ++ endToken ++ rest)
      with ((p ++ startToken ++ SPACE ++ SPACE) ++ endToken ++ rest)
      by (rewrite <- !app_assoc; reflexivity).
    replace cc with (strlen (p ++ startToken ++ SPACE ++ SPACE))
      by (rewrite !strlen_app, strlen_SPACE; lia).
    apply needle_after_prefix. }
  rewrite createOperationsForBlockComment_unfold. cbv zeta.
  cbn [startLineNumber startColumn endLineNumber endColumn].
  destruct (negb (lastIndexOf (getLineContent model l) startToken
                    (cc - 1 + strlen startToken) =? -1)
            && negb (indexOf (getLineContent model l) endToken
                       (cc - 1 - strlen endToken) =? -1)) eqn:E;
    [| reflexivity].
  apply andb_true_iff in E. destruct E as [Ei _].
  apply negb_true_iff in Ei. apply Z.eqb_neq in Ei.
  destruct (Z.gtb_spec
              (lastIndexOf (getLineContent model l) endToken
                 (cc - 1 + strlen endToken))
              (lastIndexOf (getLineContent model l) startToken
                 (cc - 1 + strlen startToken) + strlen startToken - 1))
    as [_ | Hle]; [reflexivity | exfalso].
  destruct (lastIndexOf_inv (getLineContent model l) startToken
              (cc - 1 + strlen startToken) ltac:(lia))
    as [[Hi _] | [Hi0 [Hi1 [Hi2 _]]]]; [contradiction |].
  destruct (lastIndexOf_inv (getLineContent model l) endToken
              (cc - 1 + strlen endToken) ltac:(lia))
    as [[_ Hk] | [Hk0 [Hk1 [Hk2 Hk3]]]].
  - rewrite Hk in Hend by lia. discriminate.
  - assert (Hkc : cc <= lastIndexOf (getLineContent model l) endToken
                          (cc - 1 + strlen endToken)).
    { destruct (Z_le_gt_dec cc
                  (lastIndexOf (getLineContent model l) endToken
                     (cc - 1 + strlen endToken))) as [? | Hgt];
        [assumption |].
      rewrite Hk3 in Hend by lia. discriminate. }
    destruct (Z_lt_le_dec
                (lastIndexOf (getLineContent model l) startToken
                   (cc - 1 + strlen startToken))
                (cc - 1 + 2 - strlen startToken)) as [Hlow | Hin].
    + lia.
    + rewrite Hno in Hi1 by lia. discriminate.
Qed.

(** ** The plans as inverses, and the command at a cursor *)

(** X9.  Whatever the selection, collapsed or not, the remove plan built for
    the selection the add leaves, with the start token widened by the space
    behind it and the end token by the space before it, takes the text back
    to what it was before the add. *)
Theorem add_then_remove_plan_restores `{RC : RangeConstructor}
    (buf : TextBuffer) (sel : Selection) (startToken endToken : JSString) :
  validRange (bufferLines buf) (selectionRange sel) = true ->
  endToken <> [] ->
  noLineBreak startToken = true -> noLineBreak endToken = true ->
  exists buf1 sel1,
    executeAdd startToken endToken buf sel = Some (buf1, sel1) /\
    applyEdits (bufferLines buf1)
      (tracked (_createRemoveBlockCommentOperations (selectionRange sel1)
                  (startToken ++ SPACE) (SPACE ++ endToken)))
    = Some (bufferLines buf).
Proof.
  destruct buf as [lines lang].
  destruct (selectionRange sel) as [l1 c1 l2 c2] eqn:Hsel.
  cbn [bufferLines]. intros Hvalid Het Hsl Hel.
  destruct (Range_isEmpty (mkRange l1 c1 l2 c2)) eqn:Hne.
  - apply Range_isEmpty_true in Hne. cbn in Hne. destruct Hne as [<- <-].
    eexists _, _. split.
    + exact (collapsed_executeAdd lines startToken endToken l1 c1
               Hvalid Hsl Hel Het lang sel Hsel).
    + cbn [newSelection selectionRange bufferLines].
      rewrite newRange_same_line by lia.
      assert (He : Range_isEmpty
                     (mkRange l1 (c1 + strlen startToken + 1)
                              l1 (c1 + strlen startToken + 1)) = true).
      { unfold Range_isEmpty. cbn. rewrite !Z.eqb_refl. reflexivity. }
      rewrite (proj2 (createRemoveBlockCommentOperations_shape _ _ _) He).
      cbn [tracked map range text startLineNumber startColumn endLineNumber
           endColumn].
      replace (c1 + strlen startToken + 1 - strlen (startToken ++ SPACE))
        with c1 by (rewrite strlen_app, strlen_SPACE; lia).
      replace (c1 + strlen startToken + 1 + strlen (SPACE ++ endToken))
        with (c1 + strlen (startToken ++ SPACE ++ SPACE ++ endToken))
        by (rewrite !strlen_app, !strlen_SPACE; lia).
      exact (collapsed_remove_applies lines startToken endToken l1 c1 Hvalid).
  - eexists _, _. split.
    + exact (round_trip_executeAdd lines startToken endToken l1 c1 l2 c2
               Hvalid Hne Hsl Hel lang sel Hsel).
    + cbn [newSelection selectionRange bufferLines].
      rewrite (newRange_ordered _ _ _ _
                 (new_selection_ordered lines startToken endToken l1 c1 l2 c2
                    Hvalid Hne)).
      rewrite (proj1 (createRemoveBlockCommentOperations_shape _ _ _)
                 (new_selection_not_collapsed lines startToken endToken
                    l1 c1 l2 c2 Hvalid Hne)).
      cbn [tracked map range text startLineNumber startColumn endLineNumber
           endColumn].
      pose proof (round_trip_remove_applies lines startToken endToken
                    l1 c1 l2 c2 Hvalid Hne) as Hback.
      replace (c1 + strlen startToken + 1 - strlen (startToken ++ SPACE))
        with c1 by (rewrite strlen_app, strlen_SPACE; lia).
      exact Hback.
Qed.

Lemma add_then_remove_plan_restores_witness :
  exists buf1 sel1,
    executeAdd (RC := plainRange) (str "/*") (str "*/")
      (mkBuffer [str "a"] 0) (newSelection (RC := plainRange) 1 1 1 2)
    = Some (buf1, sel1) /\
    applyEdits (bufferLines buf1)
      (tracked (_createRemoveBlockCommentOperations (RC := plainRange)
                  (selectionRange sel1) (str "/*" ++ SPACE)
                  (SPACE ++ str "*/")))
    = Some [str "a"].
Proof.
  apply (add_then_remove_plan_restores (RC := plainRange)
           (mkBuffer [str "a"] 0) (newSelection (RC := plainRange) 1 1 1 2)
           (str "/*") (str "*/")
           eq_refl ltac:(discriminate) eq_refl eq_refl).
Defined.

(** X10.  Adding a comment at a cursor puts the start token, two spaces and
    the end token into the line at the cursor, leaves every other line as
    it is, and moves the cursor between the two spaces. *)
Theorem collapsed_add_places_cursor `{RC : RangeConstructor}
    (buf : TextBuffer) (sel : Selection) (startToken endToken : JSString) :
  validRange (bufferLines buf) (selectionRange sel) = true ->
  Range_isEmpty (selectionRange sel) = true ->
  endToken <> [] ->
  noLineBreak startToken = true -> noLineBreak endToken = true ->
  let l := startLineNumber (selectionRange sel) in
  exists buf1 before behind,
    lineAt (bufferLines buf) l = before ++ behind /\
    strlen before + 1 = startColumn (selectionRange sel) /\
    executeAdd startToken endToken buf sel
    = Some (buf1,
            newSelection l (strlen (before ++ startToken ++ SPACE) + 1)
                         l (strlen (before ++ startToken ++ SPACE) + 1)) /\
    lineAt (bufferLines buf1) l
    = before ++ startToken ++ SPACE ++ SPACE ++ endToken ++ behind /\
    forall n, n <> l -> lineAt (bufferLines buf1) n = lineAt (bufferLines buf) n.
Proof.
  destruct buf as [lines lang].
  destruct (selectionRange sel) as [l1 c1 l2 c2] eqn:Hsel.
  cbn [bufferLines startLineNumber startColumn].
  intros Hvalid Hne Het Hsl Hel.
  apply Range_isEmpty_true in Hne. cbn in Hne. destruct Hne as [<- <-].
  destruct (collapsed_line lines startToken endToken l1 c1 Hvalid)
    as [p [rest [HL [Hp HL1]]]].
  eexists _, p, rest. split; [exact HL |]. split; [lia |]. split; [| split].
  - rewrite (collapsed_executeAdd lines startToken endToken l1 c1
               Hvalid Hsl Hel Het lang sel Hsel).
    rewrite !strlen_app, strlen_SPACE.
    replace (strlen p + (strlen startToken + 1) + 1)
      with (c1 + strlen startToken + 1) by lia.
    reflexivity.
  - cbn [bufferLines]. rewrite HL1, <- !app_assoc. reflexivity.
  - cbn [bufferLines].
    exact (collapsed_other_lines lines startToken endToken l1 c1 Hvalid).
Qed.

Lemma collapsed_add_places_cursor_witness :
  exists buf1 before behind,
    lineAt [str "hello"] 1 = before ++ behind /\
    strlen before + 1 = 3 /\
    executeAdd (RC := plainRange) (str "<!--") (str "-->")
      (mkBuffer [str "hello"] 0) (newSelection (RC := plainRange) 1 3 1 3)
    = Some (buf1,
            newSelection (RC := plainRange)
              1 (strlen (before ++ str "<!--" ++ SPACE) + 1)
              1 (strlen (before ++ str "<!--" ++ SPACE) + 1)) /\
    lineAt (bufferLines buf1) 1
    = before ++ str "<!--" ++ SPACE ++ SPACE ++ str "-->" ++ behind /\
    forall n, n <> 1 -> lineAt (bufferLines buf1) n = lineAt [str "hello"] n.
Proof.
  apply (collapsed_add_places_cursor (RC := plainRange)
           (mkBuffer [str "hello"] 0) (newSelection (RC := plainRange) 1 3 1 3)
           (str "<!--") (str "-->")
           eq_refl eq_refl ltac:(discriminate) eq_refl eq_refl).
Defined.

(** X11.  Running the command again right after adding a comment at a
    cursor does not take the comment away.  Unless a start token begins at
    an offset from [s + 2 - strlen startToken] to [s + strlen startToken] of
    the line, [s] being the offset of the cursor, the second run takes the
    add plan once more, and the text it leaves is not the original one. *)
Theorem second_run_at_cursor_adds_again `{RC : RangeConstructor}
    (registry : CommentsRegistry) (buf : TextBuffer) (sel : Selection)
    (lineToken : option JSString) (startToken endToken : JSString) :
  validRange (bufferLines buf) (selectionRange sel) = true ->
  Range_isEmpty (selectionRange sel) = true ->
  startToken <> [] -> endToken <> [] ->
  noLineBreak startToken = true -> noLineBreak endToken = true ->
  registry (bufferLanguage buf)
  = Some (mkComments lineToken (Some startToken) (Some endToken)) ->
  exists buf1 sel1,
    executeAdd startToken endToken buf sel = Some (buf1, sel1) /\
    let s := startColumn (selectionRange sel1) - 1 in
    (noOccurrence
       (lineAt (bufferLines buf1) (startLineNumber (selectionRange sel1)))
       startToken (s + 2 - strlen startToken) (s + strlen startToken) ->
     executeCommand registry buf1 sel1
     = executeAdd startToken endToken buf1 sel1 /\
     exists buf2 sel2,
       executeAdd startToken endToken buf1 sel1 = Some (buf2, sel2) /\
       bufferLines buf2 <> bufferLines buf).
Proof.
  destruct buf as [lines lang].
  destruct (selectionRange sel) as [l1 c1 l2 c2] eqn:Hsel.
  cbn [bufferLines bufferLanguage].
  intros Hvalid Hne Hst Het Hsl Hel Hreg.
  apply Range_isEmpty_true in Hne. cbn in Hne. destruct Hne as [<- <-].
  destruct (collapsed_line lines startToken endToken l1 c1 Hvalid)
    as [p [rest [HL [Hp HL1]]]].
  destruct (collapsed_bounds lines l1 c1 Hvalid) as [Hl Hc].
  pose proof (strlen_nonneg startToken) as Hs0.
  pose proof (strlen_nonneg endToken) as He0.
  pose proof (strlen_nonneg rest) as Hr0.
  eexists _, _. split.
  { exact (collapsed_executeAdd lines startToken endToken l1 c1
             Hvalid Hsl Hel Het lang sel Hsel). }
  set (lines1 := applyOperation
                   (mkRange l1 c1 l1 c1,
                    startToken ++ SPACE ++ SPACE ++ endToken) lines) in *.
  set (c' := c1 + strlen startToken + 1) in *.
  assert (Hsel1 : selectionRange (newSelection l1 c' l1 c')
                  = mkRange l1 c' l1 c').
  { cbn [newSelection selectionRange]. apply newRange_same_line. lia. }
  cbn [bufferLines]. rewrite Hsel1.
  cbn [startLineNumber startColumn]. intros Hno.
  split.
  - apply executeCommand_add. unfold getEditOperations.
    cbn [newBlockCommentCommand _selection].
    rewrite Hsel1.
    cbn [getLanguageIdAtPosition tokenizeIfCheap TextBuffer_model
         bufferLanguage].
    rewrite Hreg. cbn [blockCommentStartToken blockCommentEndToken].
    rewrite (truthy_not_empty _ Hst), (truthy_not_empty _ Het).
    cbn [negb orb].
    apply (cursor_between_spaces_adds (TM := TextBuffer_model) _
             (mkBuffer lines1 lang) [] lineToken startToken endToken
             l1 c' p rest Hst Het).
    + cbn [getLineContent TextBuffer_model bufferLines].
      rewrite HL1, <- !app_assoc. reflexivity.
    + unfold c'. rewrite !strlen_app, strlen_SPACE. lia.
    + cbn [getLineContent TextBuffer_model bufferLines]. exact Hno.
  - assert (Hvalid1 : validRange lines1 (mkRange l1 c' l1 c') = true).
    { apply validRange_true.
      cbn [startLineNumber startColumn endLineNumber endColumn].
      unfold lines1 at 1. rewrite length_applyOperation.
      rewrite HL1, !strlen_app, strlen_SPACE. unfold Range_ordered, ordered.
      cbn [startLineNumber startColumn endLineNumber endColumn].
      unfold c'. repeat split; lia. }
    eexists _, _. split.
    + exact (collapsed_executeAdd lines1 startToken endToken l1 c'
               Hvalid1 Hsl Hel Het lang _ Hsel1).
    + cbn [bufferLines]. intros E.
      destruct (collapsed_line lines1 startToken endToken l1 c' Hvalid1)
        as [p2 [rest2 [HL2 [_ HL3]]]].
      rewrite E, HL in HL3. rewrite HL1 in HL2.
      apply (f_equal strlen) in HL2. apply (f_equal strlen) in HL3.
      rewrite !strlen_app, ?strlen_SPACE in HL2, HL3. lia.
Qed.

Lemma second_run_at_cursor_adds_again_witness :
  exists buf1 sel1 buf2 sel2,
    executeAdd (RC := plainRange) (str "/*") (str "*/")
      (mkBuffer [str "hello"] 0) (newSelection (RC := plainRange) 1 3 1 3)
    = Some (buf1, sel1) /\
    executeCommand (RC := plainRange) (oneLanguage 0 (str "/*") (str "*/"))
      buf1 sel1
    = Some (buf2, sel2) /\
    bufferLines buf2 <> [str "hello"].
Proof.
  destruct (second_run_at_cursor_adds_again (RC := plainRange)
              (oneLanguage 0 (str "/*") (str "*/"))
              (mkBuffer [str "hello"] 0)
              (newSelection (RC := plainRange) 1 3 1 3)
              None (str "/*") (str "*/")
              eq_refl eq_refl ltac:(discriminate) ltac:(discriminate)
              eq_refl eq_refl eq_refl)
    as [buf1 [sel1 [Hadd Hagain]]].
  assert (E : Some (buf1, sel1)
              = Some (mkBuffer [str "he/*  */llo"] 0,
                      newSelection (RC := plainRange) 1 6 1 6)).
  { rewrite <- Hadd. vm_compute. reflexivity. }
  injection E as -> ->.
  destruct Hagain as [Hrun [buf2 [sel2 [Hadd2 Hne]]]].
  { apply noOccurrenceb_sound. vm_compute. reflexivity. }
  exists (mkBuffer [str "he/*  */llo"] 0),
         (newSelection (RC := plainRange) 1 6 1 6), buf2, sel2.
  split; [exact Hadd |]. split; [| exact Hne].
  rewrite Hrun. exact Hadd2.
Defined.

(** ** What a remove plan deletes *)

Lemma app_eq_app_le {A} (x1 y1 x2 y2 : list A) :
  x1 ++ y1 = x2 ++ y2 -> (List.length x1 <= List.length x2)%nat ->
  exists m, x2 = x1 ++ m /\ y1 = m ++ y2.
Proof.
  revert x2. induction x1 as [| a x1 IH]; intros x2 E Hl.
  - exists x2. split; [reflexivity | exact E].
  - destruct x2 as [| b x2]; [simpl in Hl; lia |].
    simpl in E. injection E as -> E.
    destruct (IH x2 E ltac:(simpl in Hl; lia)) as [m [-> ->]].
    exists m. split; reflexivity.
Qed.

Lemma textInLine_split (pre m post : JSString) (c1 c2 : Z) :
  c1 = strlen pre + 1 -> c2 = strlen pre + strlen m + 1 ->
  textInLine (pre ++ m ++ post) c1 c2 = m.
Proof.
  intros -> ->. unfold textInLine, strlen.
  replace (Z.to_nat (Z.of_nat (List.length pre) + 1 - 1))
    with (List.length pre) by lia.
  replace (Z.to_nat (Z.of_nat (List.length pre) + Z.of_nat (List.length m) + 1
                     - (Z.of_nat (List.length pre) + 1)))
    with (List.length m) by lia.
  rewrite skipn_app_exact. apply firstn_app_exact.
Qed.

Lemma lineAt_not_empty (lines : list JSString) n :
  lineAt lines n <> [] -> 1 <= n <= Z.of_nat (List.length lines).
Proof.
  intros H.
  destruct (Z_lt_le_dec n 1) as [Hlo | Hlo].
  { exfalso. apply H. apply lineAt_outside. lia. }
  destruct (Z_lt_le_dec (Z.of_nat (List.length lines)) n) as [Hhi | Hhi].
  { exfalso. apply H. apply lineAt_outside. lia. }
  lia.
Qed.

(** A start token that was found, with the space behind it when there is
    one, is a piece of its line. *)
Lemma located_start_text (line startToken : JSString) (i : Z) :
  _haystackHasNeedleAtOffset line startToken i = true ->
  exists before behind,
    line = before
           ++ (startToken ++ spaceIf (isSpaceAt line (i + strlen startToken)))
           ++ behind /\
    strlen before = i.
Proof.
  intros H. apply haystackHasNeedleAtOffset_split in H.
  destruct H as [before [behind [HL Hb]]].
  assert (Hc : charCodeAt line (i + strlen startToken) = nth_error behind 0).
  { rewrite HL, (app_assoc before startToken behind), <- Hb, <- strlen_app.
    unfold strlen. rewrite charCodeAt_nat, nth_error_app2 by lia.
    rewrite Nat.sub_diag. reflexivity. }
  unfold isSpaceAt. rewrite Hc.
  destruct behind as [| x behind]; cbn [nth_error strictEq].
  - exists before, []. cbn [spaceIf]. rewrite app_nil_r.
    split; [exact HL | exact Hb].
  - destruct (Z.eqb_spec x CharCode_Space) as [-> | Hx].
    + exists before, behind. split; [| exact Hb].
      rewrite HL. cbn [spaceIf]. rewrite <- !app_assoc. reflexivity.
    + exists before, (x :: behind). cbn [spaceIf]. rewrite app_nil_r.
      split; [exact HL | exact Hb].
Qed.

(** An end token that was found, with the space before it when there is
    one, is a piece of its line. *)
Lemma located_end_text (line endToken : JSString) (j : Z) :
  _haystackHasNeedleAtOffset line endToken j = true ->
  exists before behind,
    line = before ++ (spaceIf (isSpaceAt line (j - 1)) ++ endToken) ++ behind /\
    strlen before = j - Z.b2z (isSpaceAt line (j - 1)).
Proof.
  intros H. apply haystackHasNeedleAtOffset_split in H.
  destruct H as [before [behind [HL Hb]]].
  destruct before as [| y before'] eqn:Eb.
  - change (strlen []) with 0 in Hb. subst j.
    unfold isSpaceAt. cbn [charCodeAt Z.ltb Z.compare Z.sub Z.opp Z.add strictEq].
    exists [], behind. cbn [spaceIf Z.b2z app].
    split; [exact HL | reflexivity].
  - rewrite <- Eb in *.
    destruct (exists_last (l := before) ltac:(rewrite Eb; discriminate))
      as [front [x Hf]].
    assert (Hj : j - 1 = strlen front).
    { rewrite <- Hb, Hf, strlen_app. change (strlen [x]) with 1. lia. }
    assert (Hc : charCodeAt line (j - 1) = Some x).
    { rewrite HL, Hf, Hj, <- !app_assoc. apply charCodeAt_after_prefix. }
    unfold isSpaceAt. rewrite Hc. cbn [strictEq].
    destruct (Z.eqb_spec x CharCode_Space) as [-> | Hx].
    + exists front, behind. cbn [spaceIf Z.b2z]. split; [| lia].
      rewrite HL, Hf, <- !app_assoc. reflexivity.
    + exists before, behind. cbn [spaceIf Z.b2z app].
      split; [exact HL | lia].
Qed.

Section RemovePlanFrame.
Context `{RC : RangeConstructor}.
Context {M : Type} `{TM : ITokenizedModel M}.

(** The operations submitted when the remove plan is taken and the content
    between the tokens has its ends in order. *)
Lemma located_remove_operations
    (this : BlockCommentCommand) (selection : Range) (model : M)
    (builder : IEditOperationBuilder) (lineToken : option JSString)
    (startToken endToken : JSString) (i j : Z) :
  startToken <> [] -> endToken <> [] -> 1 <= startColumn selection ->
  let startLine := getLineContent model (startLineNumber selection) in
  let endLine := getLineContent model (endLineNumber selection) in
  lastOccurrence startLine startToken
    (startColumn selection - 1 + strlen startToken) i ->
  firstOccurrence endLine endToken
    (endColumn selection - 1 - strlen endToken) j ->
  ~ closedBeforeSelection startLine startToken endToken
      (startColumn selection) i ->
  let a := isSpaceAt startLine (i + strlen startToken) in
  let b := isSpaceAt endLine (j - 1) in
  let contentStart := i + 1 + strlen startToken + Z.b2z a in
  let contentEnd := j - Z.b2z b + 1 in
  ordered (startLineNumber selection) contentStart
          (endLineNumber selection) contentEnd ->
  _createOperationsForBlockComment this selection
    (mkComments lineToken (Some startToken) (Some endToken)) model builder
  = Some (this,
          builder ++
          if (startLineNumber selection =? endLineNumber selection)
             && (contentStart =? contentEnd)
          then [ (mkRange (startLineNumber selection) (i + 1)
                          (endLineNumber selection)
                          (j + 1 + strlen endToken), []) ]
          else [ (mkRange (startLineNumber selection) (i + 1)
                          (startLineNumber selection) contentStart, []);
                 (mkRange (endLineNumber selection) contentEnd
                          (endLineNumber selection)
                          (j + 1 + strlen endToken), []) ]).
Proof.
  intros Hst Het Hsc startLine endLine Hi Hj Hopen a b contentStart
    contentEnd Hord.
  destruct (located_outcome this selection model builder lineToken
              startToken endToken Hst Het Hsc i j Hi Hj)
    as [[Hc _] | [_ Ho]]; [contradiction |].
  rewrite Ho. fold startLine endLine a b. unfold removeOutcome.
  assert (Hsa : strlen (startToken ++ spaceIf a) = strlen startToken + Z.b2z a).
  { rewrite strlen_app, strlen_spaceIf. reflexivity. }
  assert (Hsb : strlen (spaceIf b ++ endToken) = Z.b2z b + strlen endToken).
  { rewrite strlen_app, strlen_spaceIf. reflexivity. }
  replace (i + 1 + strlen (startToken ++ spaceIf a)) with contentStart
    by (unfold contentStart; rewrite Hsa; lia).
  fold contentEnd.
  rewrite submitAll_tracked, (newRange_ordered _ _ _ _ Hord).
  do 3 f_equal.
  pose proof (createRemoveBlockCommentOperations_shape
                (mkRange (startLineNumber selection) contentStart
                         (endLineNumber selection) contentEnd)
                (startToken ++ spaceIf a) (spaceIf b ++ endToken))
    as [Htwo Hone].
  unfold Range_isEmpty in Htwo, Hone.
  cbn [startLineNumber startColumn endLineNumber endColumn] in Htwo, Hone.
  clearbody a b.
  destruct ((startLineNumber selection =? endLineNumber selection)
            && (contentStart =? contentEnd)).
  - rewrite (Hone eq_refl), Hsa, Hsb. cbn [tracked map range text].
    repeat match goal with
           | |- _ :: _ = _ :: _ => f_equal
           | |- (_, _) = (_, _) => f_equal
           | |- mkRange _ _ _ _ = mkRange _ _ _ _ => f_equal
           end; unfold contentStart, contentEnd; lia.
  - rewrite (Htwo eq_refl), Hsa, Hsb. cbn [tracked map range text].
    repeat match goal with
           | |- _ :: _ = _ :: _ => f_equal
           | |- (_, _) = (_, _) => f_equal
           | |- mkRange _ _ _ _ = mkRange _ _ _ _ => f_equal
           end; unfold contentStart, contentEnd; lia.
Qed.

(** X12.  When the remove plan is taken and the content between the tokens
    has its ends in order, the operations submitted carry no text, and what
    they delete from the text of the model, read in order, is the start
    token, the space behind it if there is one, the space before the end
    token if there is one, and the end token: no other character goes. *)
Theorem remove_plan_deletes_tokens
    (this : BlockCommentCommand) (selection : Range) (model : M)
    (builder : IEditOperationBuilder) (lineToken : option JSString)
    (startToken endToken : JSString) (i j : Z) :
  startToken <> [] -> endToken <> [] -> 1 <= startColumn selection ->
  let startLine := getLineContent model (startLineNumber selection) in
  let endLine := getLineContent model (endLineNumber selection) in
  lastOccurrence startLine startToken
    (startColumn selection - 1 + strlen startToken) i ->
  firstOccurrence endLine endToken
    (endColumn selection - 1 - strlen endToken) j ->
  ~ closedBeforeSelection startLine startToken endToken
      (startColumn selection) i ->
  let a := isSpaceAt startLine (i + strlen startToken) in
  let b := isSpaceAt endLine (j - 1) in
  ordered (startLineNumber selection) (i + 1 + strlen startToken + Z.b2z a)
          (endLineNumber selection) (j - Z.b2z b + 1) ->
  exists added,
    _createOperationsForBlockComment this selection
      (mkComments lineToken (Some startToken) (Some endToken)) model builder
    = Some (this, builder ++ added) /\
    (forall op, In op added -> snd op = []) /\
    deletedText model added
    = (startToken ++ spaceIf a) ++ (spaceIf b ++ endToken).
Proof.
  intros Hst Het Hsc startLine endLine Hi Hj Hopen a b Hord.
  pose proof (located_remove_operations this selection model builder
                lineToken startToken endToken i j Hst Het Hsc Hi Hj Hopen
                Hord) as Hout.
  cbv zeta in Hout. fold startLine endLine a b in Hout.
  destruct (located_start_text startLine startToken i (proj1 Hi))
    as [pre [post [HL1 Hpre]]].
  destruct (located_end_text endLine endToken j (proj1 Hj))
    as [pre2 [post2 [HL2 Hpre2]]].
  fold a in HL1. fold b in HL2, Hpre2.
  assert (Hsa : strlen (startToken ++ spaceIf a) = strlen startToken + Z.b2z a).
  { rewrite strlen_app, strlen_spaceIf. reflexivity. }
  assert (Hsb : strlen (spaceIf b ++ endToken) = Z.b2z b + strlen endToken).
  { rewrite strlen_app, strlen_spaceIf. reflexivity. }
  eexists. split; [exact Hout |].
  destruct ((startLineNumber selection =? endLineNumber selection)
            && (i + 1 + strlen startToken + Z.b2z a =? j - Z.b2z b + 1))
    eqn:Hcollapsed.
  - apply andb_true_iff in Hcollapsed. destruct Hcollapsed as [El Ec].
    apply Z.eqb_eq in El. apply Z.eqb_eq in Ec.
    split.
    { intros op [<- | []]. reflexivity. }
    unfold deletedText.
    cbn [map List.concat fst startLineNumber startColumn endColumn].
    rewrite app_nil_r. fold startLine.
    assert (Hsame : endLine = startLine).
    { unfold endLine, startLine. rewrite El. reflexivity. }
    rewrite Hsame in HL2.
    assert (E : pre2 = pre ++ (startToken ++ spaceIf a) /\
                post = (spaceIf b ++ endToken) ++ post2).
    { rewrite HL1 in HL2. rewrite (app_assoc pre) in HL2.
      destruct (app_eq_app_le _ _ _ _ HL2) as [m [E1 E2]].
      { apply Nat2Z.inj_le. fold (strlen (pre ++ startToken ++ spaceIf a)).
        fold (strlen pre2). rewrite strlen_app. clearbody a b. lia. }
      assert (m = []).
      { apply (f_equal strlen) in E1.
        rewrite !strlen_app, ?strlen_spaceIf in E1.
        destruct m; [reflexivity |]. rewrite strlen_cons in E1.
        pose proof (strlen_nonneg m). clearbody a b. lia. }
      subst m. rewrite app_nil_r in E1. simpl in E2. split; assumption. }
    destruct E as [_ ->]. rewrite HL1.
    replace (pre ++ (startToken ++ spaceIf a)
                 ++ (spaceIf b ++ endToken) ++ post2)
      with (pre ++ ((startToken ++ spaceIf a) ++ (spaceIf b ++ endToken))
                ++ post2)
      by (rewrite <- !app_assoc; reflexivity).
    apply textInLine_split; [lia |].
    rewrite strlen_app, Hsa, Hsb. clearbody a b. lia.
  - split.
    { intros op [<- | [<- | []]]; reflexivity. }
    unfold deletedText.
    cbn [map List.concat fst startLineNumber startColumn endColumn].
    rewrite app_nil_r. fold startLine endLine.
    f_equal.
    + rewrite HL1. apply textInLine_split; [lia |].
      rewrite Hsa. clearbody a b. lia.
    + rewrite HL2. apply textInLine_split; [clearbody a b; lia |].
      rewrite Hsb. clearbody a b. lia.
Qed.

End RemovePlanFrame.

(** ** Deleting one piece or two pieces of a text *)

Lemma lineAt_applyOperation_any op lines n :
  1 <= startLineNumber (fst op) <= Z.of_nat (List.length lines) ->
  lineAt (applyOperation op lines) n =
  if n =? startLineNumber (fst op)
  then replaceInLine (lineAt lines n) (startColumn (fst op))
                     (endColumn (fst op)) (snd op)
  else lineAt lines n.
Proof.
  intros Hl.
  destruct (Z_lt_le_dec n 1) as [Hlo | Hlo].
  { destruct (Z.eqb_spec n (startLineNumber (fst op))) as [? | _]; [lia |].
    rewrite !lineAt_outside; [reflexivity | lia | lia]. }
  destruct (Z_lt_le_dec (Z.of_nat (List.length lines)) n) as [Hhi | Hhi].
  { destruct (Z.eqb_spec n (startLineNumber (fst op))) as [? | _]; [lia |].
    rewrite !lineAt_outside; [reflexivity | lia |].
    rewrite length_applyOperation. lia. }
  apply lineAt_applyOperation; lia.
Qed.

Lemma apply_one_delete (lines : list JSString) (l c : Z)
    (pre t post : JSString) :
  1 <= l <= Z.of_nat (List.length lines) ->
  lineAt lines l = pre ++ t ++ post -> c = strlen pre + 1 ->
  exists lines',
    applyEdits lines [(mkRange l c l (c + strlen t), [])] = Some lines' /\
    lineAt lines' l = pre ++ post /\
    forall n, n <> l -> lineAt lines' n = lineAt lines n.
Proof.
  intros Hl HL Hc.
  pose proof (strlen_nonneg pre) as Hp. pose proof (strlen_nonneg t) as Ht.
  pose proof (strlen_nonneg post) as Hq.
  eexists. split; [| split].
  - unfold applyEdits. cbn [forallb inTextOrder].
    replace (validOperation lines (mkRange l c l (c + strlen t), []))
      with true; [reflexivity |].
    symmetry. unfold validOperation.
    cbn [fst snd startLineNumber startColumn endLineNumber endColumn].
    rewrite HL, !strlen_app.
    rewrite !andb_true_iff, Z.eqb_eq, !Z.leb_le.
    repeat split; try reflexivity; lia.
  - cbn [fold_right]. rewrite lineAt_applyOperation_any by (cbn; lia).
    cbn [fst snd startLineNumber startColumn endColumn].
    rewrite Z.eqb_refl, HL. apply replaceInLine_split; lia.
  - intros n Hn. cbn [fold_right].
    rewrite lineAt_applyOperation_any by (cbn; lia).
    cbn [fst startLineNumber].
    destruct (Z.eqb_spec n l); [contradiction | reflexivity].
Qed.

Lemma apply_two_deletes_same_line (lines : list JSString) (l cA cB : Z)
    (pre tA mid tB post : JSString) :
  1 <= l <= Z.of_nat (List.length lines) ->
  lineAt lines l = pre ++ tA ++ mid ++ tB ++ post ->
  cA = strlen pre + 1 -> cB = strlen (pre ++ tA ++ mid) + 1 ->
  exists lines',
    applyEdits lines [(mkRange l cA l (cA + strlen tA), []);
                      (mkRange l cB l (cB + strlen tB), [])]
    = Some lines' /\
    lineAt lines' l = pre ++ mid ++ post /\
    forall n, n <> l -> lineAt lines' n = lineAt lines n.
Proof.
  intros Hl HL HA HB. rewrite !strlen_app in HB.
  pose proof (strlen_nonneg pre) as Hp. pose proof (strlen_nonneg tA) as HtA.
  pose proof (strlen_nonneg mid) as Hm. pose proof (strlen_nonneg tB) as HtB.
  pose proof (strlen_nonneg post) as Hq.
  eexists. split; [| split].
  - unfold applyEdits. cbn [forallb inTextOrder].
    replace (validOperation lines (mkRange l cA l (cA + strlen tA), []))
      with true.
    replace (validOperation lines (mkRange l cB l (cB + strlen tB), []))
      with true.
    replace (orderedb
               (endLineNumber (fst (mkRange l cA l (cA + strlen tA), @nil Z)))
               (endColumn (fst (mkRange l cA l (cA + strlen tA), @nil Z)))
               (startLineNumber (fst (mkRange l cB l (cB + strlen tB), @nil Z)))
               (startColumn (fst (mkRange l cB l (cB + strlen tB), @nil Z))))
      with true; [reflexivity |].
    + symmetry. apply orderedb_true. cbn. right. split; [reflexivity | lia].
    + symmetry. unfold validOperation.
      cbn [fst snd startLineNumber startColumn endLineNumber endColumn].
      rewrite HL, !strlen_app.
      rewrite !andb_true_iff, Z.eqb_eq, !Z.leb_le.
      repeat split; try reflexivity; lia.
    + symmetry. unfold validOperation.
      cbn [fst snd startLineNumber startColumn endLineNumber endColumn].
      rewrite HL, !strlen_app.
      rewrite !andb_true_iff, Z.eqb_eq, !Z.leb_le.
      repeat split; try reflexivity; lia.
  - cbn [fold_right].
    rewrite lineAt_applyOperation_any
      by (rewrite length_applyOperation; cbn; lia).
    rewrite lineAt_applyOperation_any by (cbn; lia).
    cbn [fst snd startLineNumber startColumn endColumn].
    rewrite Z.eqb_refl, HL.
    replace cB with (cB - strlen tA + strlen tA) by lia.
    apply delete_two_same_line; lia.
  - intros n Hn. cbn [fold_right].
    rewrite lineAt_applyOperation_any
      by (rewrite length_applyOperation; cbn; lia).
    rewrite lineAt_applyOperation_any by (cbn; lia).
    cbn [fst startLineNumber].
    destruct (Z.eqb_spec n l); [contradiction | reflexivity].
Qed.

Lemma apply_two_deletes_two_lines (lines : list JSString) (l1 l2 cA cB : Z)
    (pre tA post pre2 tB post2 : JSString) :
  1 <= l1 -> l1 < l2 -> l2 <= Z.of_nat (List.length lines) ->
  lineAt lines l1 = pre ++ tA ++ post -> cA = strlen pre + 1 ->
  lineAt lines l2 = pre2 ++ tB ++ post2 -> cB = strlen pre2 + 1 ->
  exists lines',
    applyEdits lines [(mkRange l1 cA l1 (cA + strlen tA), []);
                      (mkRange l2 cB l2 (cB + strlen tB), [])]
    = Some lines' /\
    lineAt lines' l1 = pre ++ post /\
    lineAt lines' l2 = pre2 ++ post2 /\
    forall n, n <> l1 -> n <> l2 -> lineAt lines' n = lineAt lines n.
Proof.
  intros H1 H12 H2 HL1 HA HL2 HB.
  pose proof (strlen_nonneg pre) as Hp. pose proof (strlen_nonneg tA) as HtA.
  pose proof (strlen_nonneg pre2) as Hp2. pose proof (strlen_nonneg tB) as HtB.
  pose proof (strlen_nonneg post) as Hq. pose proof (strlen_nonneg post2) as Hq2.
  eexists. split; [| split; [| split]].
  - unfold applyEdits. cbn [forallb inTextOrder].
    replace (validOperation lines (mkRange l1 cA l1 (cA + strlen tA), []))
      with true.
    replace (validOperation lines (mkRange l2 cB l2 (cB + strlen tB), []))
      with true.
    replace (orderedb
               (endLineNumber (fst (mkRange l1 cA l1 (cA + strlen tA), @nil Z)))
               (endColumn (fst (mkRange l1 cA l1 (cA + strlen tA), @nil Z)))
               (startLineNumber (fst (mkRange l2 cB l2 (cB + strlen tB), @nil Z)))
               (startColumn (fst (mkRange l2 cB l2 (cB + strlen tB), @nil Z))))
      with true; [reflexivity |].
    + symmetry. apply orderedb_true. cbn. left. exact H12.
    + symmetry. unfold validOperation.
      cbn [fst snd startLineNumber startColumn endLineNumber endColumn].
      rewrite HL2, !strlen_app.
      rewrite !andb_true_iff, Z.eqb_eq, !Z.leb_le.
      repeat split; try reflexivity; lia.
    + symmetry. unfold validOperation.
      cbn [fst snd startLineNumber startColumn endLineNumber endColumn].
      rewrite HL1, !strlen_app.
      rewrite !andb_true_iff, Z.eqb_eq, !Z.leb_le.
      repeat split; try reflexivity; lia.
  - cbn [fold_right].
    rewrite lineAt_applyOperation_any
      by (rewrite length_applyOperation; cbn; lia).
    rewrite lineAt_applyOperation_any by (cbn; lia).
    cbn [fst snd startLineNumber startColumn endColumn].
    rewrite Z.eqb_refl.
    destruct (Z.eqb_spec l1 l2); [lia |].
    rewrite HL1. apply replaceInLine_split; lia.
  - cbn [fold_right].
    rewrite lineAt_applyOperation_any
      by (rewrite length_applyOperation; cbn; lia).
    rewrite lineAt_applyOperation_any by (cbn; lia).
    cbn [fst snd startLineNumber startColumn endColumn].
    rewrite Z.eqb_refl.
    destruct (Z.eqb_spec l2 l1); [lia |].
    rewrite HL2. apply replaceInLine_split; lia.
  - intros n Hn1 Hn2. cbn [fold_right].
    rewrite lineAt_applyOperation_any
      by (rewrite length_applyOperation; cbn; lia).
    rewrite lineAt_applyOperation_any by (cbn; lia).
    cbn [fst startLineNumber].
    destruct (Z.eqb_spec n l1); [contradiction |].
    destruct (Z.eqb_spec n l2); [contradiction | reflexivity].
Qed.

(** ** Taking a comment away *)

(** X13.  When the command finds the selection commented, with the content
    between the tokens having its ends in order, the run succeeds: the start
    token with the space behind it and the end token with the space before
    it are cut out of their lines, every other character of the text stays,
    and the new selection holds exactly what stood between the two. *)
Theorem uncomment_selects_content `{RC : RangeConstructor}
    (registry : CommentsRegistry) (buf : TextBuffer) (sel : Selection)
    (lineToken : option JSString) (startToken endToken : JSString) (i j : Z) :
  registry (bufferLanguage buf)
  = Some (mkComments lineToken (Some startToken) (Some endToken)) ->
  startToken <> [] -> endToken <> [] ->
  let r := selectionRange sel in
  1 <= startColumn r ->
  let startLine := lineAt (bufferLines buf) (startLineNumber r) in
  let endLine := lineAt (bufferLines buf) (endLineNumber r) in
  lastOccurrence startLine startToken
    (startColumn r - 1 + strlen startToken) i ->
  firstOccurrence endLine endToken (endColumn r - 1 - strlen endToken) j ->
  ~ closedBeforeSelection startLine startToken endToken (startColumn r) i ->
  let a := isSpaceAt startLine (i + strlen startToken) in
  let b := isSpaceAt endLine (j - 1) in
  ordered (startLineNumber r) (i + 1 + strlen startToken + Z.b2z a)
          (endLineNumber r) (j - Z.b2z b + 1) ->
  exists buf' sel',
    executeCommand registry buf sel = Some (buf', sel') /\
    (forall n,
       n <> startLineNumber r -> n <> endLineNumber r ->
       lineAt (bufferLines buf') n = lineAt (bufferLines buf) n) /\
    (startLineNumber r = endLineNumber r ->
     exists before mid behind,
       startLine = before ++ (startToken ++ spaceIf a) ++ mid
                   ++ (spaceIf b ++ endToken) ++ behind /\
       strlen before = i /\
       lineAt (bufferLines buf') (startLineNumber r)
       = before ++ mid ++ behind /\
       sel' = newSelection (startLineNumber r) (strlen before + 1)
                           (startLineNumber r) (strlen (before ++ mid) + 1)) /\
    (startLineNumber r <> endLineNumber r ->
     exists before rest front behind,
       startLine = before ++ (startToken ++ spaceIf a) ++ rest /\
       strlen before = i /\
       endLine = front ++ (spaceIf b ++ endToken) ++ behind /\
       strlen front = j - Z.b2z b /\
       lineAt (bufferLines buf') (startLineNumber r) = before ++ rest /\
       lineAt (bufferLines buf') (endLineNumber r) = front ++ behind /\
       sel' = newSelection (startLineNumber r) (strlen before + 1)
                           (endLineNumber r) (strlen front + 1)).
Proof.
  destruct buf as [lines lang].
  destruct (selectionRange sel) as [l1 c1 l2 c2] eqn:Hsel.
  cbn [bufferLines bufferLanguage startLineNumber startColumn endLineNumber
       endColumn].
  intros Hreg Hst Het Hsc Hi Hj Hopen Hord.
  set (startLine := lineAt lines l1) in *.
  set (endLine := lineAt lines l2) in *.
  set (a := isSpaceAt startLine (i + strlen startToken)) in *.
  set (b := isSpaceAt endLine (j - 1)) in *.
  set (startToken' := startToken ++ spaceIf a).
  set (endToken' := spaceIf b ++ endToken).
  assert (Hsa : strlen startToken' = strlen startToken + Z.b2z a).
  { unfold startToken'. rewrite strlen_app, strlen_spaceIf. reflexivity. }
  assert (Hsb : strlen endToken' = Z.b2z b + strlen endToken).
  { unfold endToken'. rewrite strlen_app, strlen_spaceIf. reflexivity. }
  pose proof (strlen_pos _ Hst) as Hs1. pose proof (strlen_pos _ Het) as He1.
  assert (Ha0 : 0 <= Z.b2z a <= 1) by (case a; cbn [Z.b2z]; lia).
  assert (Hb0 : 0 <= Z.b2z b <= 1) by (case b; cbn [Z.b2z]; lia).
  destruct (located_start_text startLine startToken i (proj1 Hi))
    as [pre [post [HL1 Hpre]]].
  destruct (located_end_text endLine endToken j (proj1 Hj))
    as [pre2 [post2 [HL2 Hpre2]]].
  fold a startToken' in HL1. fold b endToken' in HL2. fold b in Hpre2.
  pose proof (strlen_nonneg pre) as Hp0. pose proof (strlen_nonneg pre2) as Hp20.
  assert (Hl1 : 1 <= l1 <= Z.of_nat (List.length lines)).
  { apply lineAt_not_empty. fold startLine. rewrite HL1. intros E.
    apply (f_equal strlen) in E. rewrite !strlen_app in E.
    change (strlen []) with 0 in E.
    pose proof (strlen_nonneg post). clearbody a b. lia. }
  assert (Hl2 : 1 <= l2 <= Z.of_nat (List.length lines)).
  { apply lineAt_not_empty. fold endLine. rewrite HL2. intros E.
    apply (f_equal strlen) in E. rewrite !strlen_app in E.
    change (strlen []) with 0 in E.
    pose proof (strlen_nonneg post2). clearbody a b. lia. }
  assert (Hget :
    getEditOperations (newBlockCommentCommand sel) (mkBuffer lines lang) []
      registry
    = Some (newBlockCommentCommand sel,
            if (l1 =? l2)
               && (i + 1 + strlen startToken + Z.b2z a =? j - Z.b2z b + 1)
            then [ (mkRange l1 (i + 1) l2 (j + 1 + strlen endToken), []) ]
            else [ (mkRange l1 (i + 1) l1
                            (i + 1 + strlen startToken + Z.b2z a), []);
                   (mkRange l2 (j - Z.b2z b + 1) l2
                            (j + 1 + strlen endToken), []) ])).
  { unfold getEditOperations.
    cbn [newBlockCommentCommand _selection]. rewrite Hsel.
    cbn [getLanguageIdAtPosition tokenizeIfCheap TextBuffer_model
         bufferLanguage].
    rewrite Hreg. cbn [blockCommentStartToken blockCommentEndToken].
    rewrite (truthy_not_empty _ Hst), (truthy_not_empty _ Het).
    cbn [negb orb].
    exact (located_remove_operations (TM := TextBuffer_model)
             (newBlockCommentCommand sel) (mkRange l1 c1 l2 c2)
             (mkBuffer lines lang) [] lineToken startToken endToken i j
             Hst Het Hsc Hi Hj Hopen Hord). }
  unfold executeCommand. rewrite Hget. unfold settle.
  cbn [bufferLines bufferLanguage].
  destruct ((l1 =? l2)
            && (i + 1 + strlen startToken + Z.b2z a =? j - Z.b2z b + 1))
    eqn:Hcollapsed.
  - (* the tokens adjoin: one deletion *)
    apply andb_true_iff in Hcollapsed. destruct Hcollapsed as [El Ec].
    apply Z.eqb_eq in El. apply Z.eqb_eq in Ec. subst l2.
    assert (Hsame : endLine = startLine) by reflexivity.
    rewrite Hsame in HL2.
    assert (E : post = endToken' ++ post2).
    { rewrite HL1 in HL2. rewrite (app_assoc pre) in HL2.
      destruct (app_eq_app_le _ _ _ _ HL2) as [m [E1 E2]].
      { apply Nat2Z.inj_le. fold (strlen (pre ++ startToken')).
        fold (strlen pre2). rewrite strlen_app. clearbody a b. lia. }
      assert (m = []).
      { apply (f_equal strlen) in E1. rewrite !strlen_app in E1.
        destruct m; [reflexivity |]. rewrite strlen_cons in E1.
        pose proof (strlen_nonneg m). clearbody a b. lia. }
      subst m. exact E2. }
    assert (HL : lineAt lines l1 = pre ++ (startToken' ++ endToken') ++ post2).
    { fold startLine. rewrite HL1, E, <- !app_assoc. reflexivity. }
    destruct (apply_one_delete lines l1 (i + 1) pre
                (startToken' ++ endToken') post2 Hl1 HL ltac:(lia))
      as [lines' [Happ [Hline Hother]]].
    replace (j + 1 + strlen endToken)
      with (i + 1 + strlen (startToken' ++ endToken'))
      by (rewrite strlen_app, Hsa, Hsb; clearbody a b; lia).
    rewrite Happ.
    unfold computeCursorState, inverseEditOperations.
    cbn [inverseEditOperationsFrom range fst snd columnShift fold_right app
         startLineNumber startColumn endLineNumber endColumn
         newBlockCommentCommand _usedEndToken].
    eexists _, _. split; [reflexivity |]. cbn [bufferLines].
    split; [intros n Hn _; apply Hother; exact Hn |].
    split; [| intros Hne; contradiction].
    intros _. exists pre, [], post2. split; [| split; [| split]].
    + rewrite HL1, E. reflexivity.
    + exact Hpre.
    + exact Hline.
    + rewrite app_nil_r. change (strlen []) with 0.
      replace (i + 1 + 0 + 0 + 0) with (strlen pre + 1) by lia.
      reflexivity.
  - (* two deletions *)
    destruct (Z.eq_dec l1 l2) as [El | El].
    + subst l2.
      assert (Hsame : endLine = startLine) by reflexivity.
      rewrite Hsame in HL2.
      assert (Hcs : i + 1 + strlen startToken + Z.b2z a <= j - Z.b2z b + 1).
      { unfold ordered in Hord. clearbody a b. lia. }
      assert (E : exists mid, pre2 = pre ++ startToken' ++ mid /\
                               post = mid ++ endToken' ++ post2).
      { rewrite HL1 in HL2. rewrite (app_assoc pre) in HL2.
        destruct (app_eq_app_le _ _ _ _ HL2) as [m [E1 E2]].
        { apply Nat2Z.inj_le. fold (strlen (pre ++ startToken')).
          fold (strlen pre2). rewrite strlen_app. clearbody a b. lia. }
        exists m. split; [| exact E2]. rewrite E1, <- app_assoc. reflexivity. }
      destruct E as [mid [Epre2 Epost]].
      assert (HL : lineAt lines l1
                   = pre ++ startToken' ++ mid ++ endToken' ++ post2).
      { fold startLine. rewrite HL1, Epost. reflexivity. }
      destruct (apply_two_deletes_same_line lines l1 (i + 1)
                  (j - Z.b2z b + 1) pre startToken' mid endToken' post2
                  Hl1 HL ltac:(lia)
                  ltac:(rewrite <- Epre2; clearbody a b; lia))
        as [lines' [Happ [Hline Hother]]].
      replace (i + 1 + strlen startToken + Z.b2z a)
        with (i + 1 + strlen startToken') by (clearbody a b; lia).
      replace (j + 1 + strlen endToken)
        with (j - Z.b2z b + 1 + strlen endToken') by (clearbody a b; lia).
      rewrite Happ.
      unfold computeCursorState, inverseEditOperations.
      cbn [inverseEditOperationsFrom range fst snd columnShift fold_right app
           startLineNumber startColumn endLineNumber endColumn].
      eexists _, _. split; [reflexivity |]. cbn [bufferLines].
      split; [intros n Hn _; apply Hother; exact Hn |].
      split; [| intros Hne; contradiction].
      intros _. exists pre, mid, post2. split; [| split; [| split]].
      * rewrite HL1, Epost. reflexivity.
      * exact Hpre.
      * exact Hline.
      * rewrite Z.eqb_refl. change (strlen []) with 0.
        apply (f_equal strlen) in Epre2. rewrite !strlen_app in Epre2.
        rewrite strlen_app.
        replace (i + 1 + 0 + 0) with (strlen pre + 1) by lia.
        replace (j - Z.b2z b + 1
                 + (0 + 0 - (i + 1 + strlen startToken' - (i + 1))))
          with (strlen pre + strlen mid + 1) by (clearbody a b; lia).
        reflexivity.
    + assert (Hlt : l1 < l2) by (unfold ordered in Hord; lia).
      destruct (apply_two_deletes_two_lines lines l1 l2 (i + 1)
                  (j - Z.b2z b + 1) pre startToken' post pre2 endToken' post2
                  ltac:(lia) Hlt ltac:(lia) HL1 ltac:(lia) HL2
                  ltac:(clearbody a b; lia))
        as [lines' [Happ [Hline1 [Hline2 Hother]]]].
      replace (i + 1 + strlen startToken + Z.b2z a)
        with (i + 1 + strlen startToken') by (clearbody a b; lia).
      replace (j + 1 + strlen endToken)
        with (j - Z.b2z b + 1 + strlen endToken') by (clearbody a b; lia).
      rewrite Happ.
      unfold computeCursorState, inverseEditOperations.
      cbn [inverseEditOperationsFrom range fst snd columnShift fold_right app
           startLineNumber startColumn endLineNumber endColumn].
      eexists _, _. split; [reflexivity |]. cbn [bufferLines].
      split; [exact Hother |].
      split; [intros E; contradiction |].
      intros _. exists pre, post, pre2, post2.
      repeat split; try assumption.
      destruct (Z.eqb_spec l1 l2) as [? | _]; [contradiction |].
      change (strlen []) with 0.
      replace (i + 1 + 0 + 0) with (strlen pre + 1) by lia.
      replace (j - Z.b2z b + 1 + 0) with (strlen pre2 + 1)
        by (clearbody a b; lia).
      reflexivity.
Qed.

(** ** The further properties at concrete inputs *)

(** On the line slash-star, space, text, space, star-slash with the word
    selected, the two deletions take the tokens and their spaces. *)
Lemma remove_plan_deletes_tokens_witness :
  exists added,
    _createOperationsForBlockComment (RC := plainRange)
      (newBlockCommentCommand (newSelection (RC := plainRange) 1 4 1 8))
      (mkRange 1 4 1 8)
      (mkComments None (Some (str "/*")) (Some (str "*/")))
      (mkBuffer [str "/* text */"] 0) []
    = Some (newBlockCommentCommand (newSelection (RC := plainRange) 1 4 1 8),
            [] ++ added) /\
    (forall op, In op added -> snd op = []) /\
    deletedText (TM := TextBuffer_model) (mkBuffer [str "/* text */"] 0) added
    = str "/* " ++ str " */".
Proof.
  assert (Hi : lastOccurrence (str "/* text */") (str "/*") 5 0).
  { split; [reflexivity | split; [lia |]].
    intros j Hj.
    apply (noOccurrenceb_sound (str "/* text */") (str "/*") 1 5); [| lia].
    vm_compute. reflexivity. }
  assert (Hj : firstOccurrence (str "/* text */") (str "*/") 5 8).
  { split; [reflexivity | split; [lia |]].
    intros j Hj.
    apply (noOccurrenceb_sound (str "/* text */") (str "*/") 5 7); [| lia].
    vm_compute. reflexivity. }
  assert (Hopen : ~ closedBeforeSelection (str "/* text */") (str "/*")
                      (str "*/") 4 0).
  { intros [k [[Hk1 [Hk2 _]] Hk3]].
    change (strlen (str "*/")) with 2 in Hk2.
    change (strlen (str "/*")) with 2 in Hk3.
    rewrite (noOccurrenceb_sound (str "/* text */") (str "*/") 2 5) in Hk1.
    - discriminate.
    - vm_compute. reflexivity.
    - lia. }
  assert (Hord : ordered 1 4 1 8).
  { right. split; [reflexivity | lia]. }
  exact (remove_plan_deletes_tokens (RC := plainRange)
           (TM := TextBuffer_model)
           (newBlockCommentCommand (newSelection (RC := plainRange) 1 4 1 8))
           (mkRange 1 4 1 8) (mkBuffer [str "/* text */"] 0) [] None
           (str "/*") (str "*/") 0 8
           ltac:(discriminate) ltac:(discriminate) ltac:(cbn; lia)
           Hi Hj Hopen Hord).
Defined.

(** The same line and selection through a whole run: the line becomes the
    word alone, and the word is selected. *)
Lemma uncomment_selects_content_witness :
  exists buf' sel',
    executeCommand (RC := plainRange) (oneLanguage 0 (str "/*") (str "*/"))
      (mkBuffer [str "/* text */"] 0) (newSelection (RC := plainRange) 1 4 1 8)
    = Some (buf', sel') /\
    (forall n, n <> 1 -> n <> 1 ->
       lineAt (bufferLines buf') n = lineAt [str "/* text */"] n) /\
    (1 = 1 ->
     exists before mid behind,
       str "/* text */" = before ++ str "/* " ++ mid ++ str " */" ++ behind /\
       strlen before = 0 /\
       lineAt (bufferLines buf') 1 = before ++ mid ++ behind /\
       sel' = newSelection (RC := plainRange) 1 (strlen before + 1)
                           1 (strlen (before ++ mid) + 1)) /\
    (1 <> 1 ->
     exists before rest front behind,
       str "/* text */" = before ++ str "/* " ++ rest /\
       strlen before = 0 /\
       str "/* text */" = front ++ str " */" ++ behind /\
       strlen front = 7 /\
       lineAt (bufferLines buf') 1 = before ++ rest /\
       lineAt (bufferLines buf') 1 = front ++ behind /\
       sel' = newSelection (RC := plainRange) 1 (strlen before + 1)
                           1 (strlen front + 1)).
Proof.
  assert (Hi : lastOccurrence (str "/* text */") (str "/*") 5 0).
  { split; [reflexivity | split; [lia |]].
    intros j Hj.
    apply (noOccurrenceb_sound (str "/* text */") (str "/*") 1 5); [| lia].
    vm_compute. reflexivity. }
  assert (Hj : firstOccurrence (str "/* text */") (str "*/") 5 8).
  { split; [reflexivity | split; [lia |]].
    intros j Hj.
    apply (noOccurrenceb_sound (str "/* text */") (str "*/") 5 7); [| lia].
    vm_compute. reflexivity. }
  assert (Hopen : ~ closedBeforeSelection (str "/* text */") (str "/*")
                      (str "*/") 4 0).
  { intros [k [[Hk1 [Hk2 _]] Hk3]].
    change (strlen (str "*/")) with 2 in Hk2.
    change (strlen (str "/*")) with 2 in Hk3.
    rewrite (noOccurrenceb_sound (str "/* text */") (str "*/") 2 5) in Hk1.
    - discriminate.
    - vm_compute. reflexivity.
    - lia. }
  assert (Hord : ordered 1 4 1 8).
  { right. split; [reflexivity | lia]. }
  exact (uncomment_selects_content (RC := plainRange)
           (oneLanguage 0 (str "/*") (str "*/"))
           (mkBuffer [str "/* text */"] 0)
           (newSelection (RC := plainRange) 1 4 1 8)
           None (str "/*") (str "*/") 0 8
           eq_refl ltac:(discriminate) ltac:(discriminate) ltac:(cbn; lia)
           Hi Hj Hopen Hord).
Defined.

(** ** Putting a comment around a selection *)

(** X14.  Adding a comment around a selection that is not collapsed puts the
    start token and a space before its first character and a space and the
    end token behind its last one, leaves every other character of the text
    as it is, and the new selection holds exactly what was selected
    before. *)
Theorem add_wraps_selection `{RC : RangeConstructor}
    (buf : TextBuffer) (sel : Selection) (startToken endToken : JSString) :
  validRange (bufferLines buf) (selectionRange sel) = true ->
  Range_isEmpty (selectionRange sel) = false ->
  noLineBreak startToken = true -> noLineBreak endToken = true ->
  let r := selectionRange sel in
  exists buf1 sel1,
    executeAdd startToken endToken buf sel = Some (buf1, sel1) /\
    (forall n,
       n <> startLineNumber r -> n <> endLineNumber r ->
       lineAt (bufferLines buf1) n = lineAt (bufferLines buf) n) /\
    (startLineNumber r = endLineNumber r ->
     exists before mid behind,
       lineAt (bufferLines buf) (startLineNumber r)
       = before ++ mid ++ behind /\
       strlen before + 1 = startColumn r /\
       strlen (before ++ mid) + 1 = endColumn r /\
       lineAt (bufferLines buf1) (startLineNumber r)
       = before ++ (startToken ++ SPACE) ++ mid ++ (SPACE ++ endToken)
         ++ behind /\
       sel1 = newSelection
                (startLineNumber r)
                (strlen (before ++ startToken ++ SPACE) + 1)
                (startLineNumber r)
                (strlen (before ++ (startToken ++ SPACE) ++ mid) + 1)) /\
    (startLineNumber r <> endLineNumber r ->
     exists before rest front behind,
       lineAt (bufferLines buf) (startLineNumber r) = before ++ rest /\
       strlen before + 1 = startColumn r /\
       lineAt (bufferLines buf) (endLineNumber r) = front ++ behind /\
       strlen front + 1 = endColumn r /\
       lineAt (bufferLines buf1) (startLineNumber r)
       = before ++ (startToken ++ SPACE) ++ rest /\
       lineAt (bufferLines buf1) (endLineNumber r)
       = front ++ (SPACE ++ endToken) ++ behind /\
       sel1 = newSelection
                (startLineNumber r)
                (strlen (before ++ startToken ++ SPACE) + 1)
                (endLineNumber r) (strlen front + 1)).
Proof.
  destruct buf as [lines lang].
  destruct (selectionRange sel) as [l1 c1 l2 c2] eqn:Hsel.
  cbn [bufferLines startLineNumber startColumn endLineNumber endColumn].
  intros Hvalid Hne Hsl Hel.
  rewrite (round_trip_executeAdd lines startToken endToken l1 c1 l2 c2
             Hvalid Hne Hsl Hel lang sel Hsel).
  eexists _, _. split; [reflexivity |]. cbn [bufferLines].
  split; [| split].
  - intros n Hn1 Hn2.
    destruct (Z_lt_le_dec n 1) as [Hlo | Hlo].
    { rewrite !lineAt_outside;
        [reflexivity | left; exact Hlo | left; exact Hlo]. }
    destruct (Z_lt_le_dec (Z.of_nat (List.length lines)) n) as [Hhi | Hhi].
    { rewrite !lineAt_outside;
        [reflexivity | right; exact Hhi
        | right; rewrite (length_lines1 lines); exact Hhi]. }
    rewrite (lineAt_lines1 lines startToken endToken l1 c1 l2 c2 Hvalid Hne)
      by lia.
    cbv zeta.
    destruct (Z.eqb_spec n l2) as [? | _]; [contradiction |].
    destruct (Z.eqb_spec n l1) as [? | _]; [contradiction |].
    reflexivity.
  - intros E.
    destruct (round_trip_line_cases lines startToken endToken l1 c1 l2 c2
                Hvalid Hne)
      as [[_ [p [m [s [HL [Hp [Hm H]]]]]]] | [E' _]]; [| contradiction].
    exists p, m, s. rewrite !strlen_app, strlen_SPACE.
    repeat split; try assumption; try lia.
    subst l2. rewrite Z.eqb_refl. f_equal; lia.
  - intros E.
    destruct (round_trip_line_cases lines startToken endToken l1 c1 l2 c2
                Hvalid Hne)
      as [[E' _] | [_ [p [s [q [v [HL1 [Hp [HL2 [Hq [HA HB]]]]]]]]]]];
      [contradiction |].
    exists p, s, q, v. rewrite !strlen_app, strlen_SPACE.
    repeat split; try assumption; try lia.
    destruct (Z.eqb_spec l1 l2) as [? | _]; [contradiction |].
    f_equal; lia.
Qed.

(** The word of hello world, selected on its line, with the tokens of a
    markup language. *)
Lemma add_wraps_selection_witness :
  exists buf1 sel1,
    executeAdd (RC := plainRange) (str "<!--") (str "-->")
      (mkBuffer [str "hello world"] 0)
      (newSelection (RC := plainRange) 1 7 1 12)
    = Some (buf1, sel1) /\
    (forall n, n <> 1 -> n <> 1 ->
       lineAt (bufferLines buf1) n = lineAt [str "hello world"] n) /\
    (1 = 1 ->
     exists before mid behind,
       lineAt [str "hello world"] 1 = before ++ mid ++ behind /\
       strlen before + 1 = 7 /\
       strlen (before ++ mid) + 1 = 12 /\
       lineAt (bufferLines buf1) 1
       = before ++ (str "<!--" ++ SPACE) ++ mid ++ (SPACE ++ str "-->")
         ++ behind /\
       sel1 = newSelection (RC := plainRange)
                1 (strlen (before ++ str "<!--" ++ SPACE) + 1)
                1 (strlen (before ++ (str "<!--" ++ SPACE) ++ mid) + 1)) /\
    (1 <> 1 ->
     exists before rest front behind,
       lineAt [str "hello world"] 1 = before ++ rest /\
       strlen before + 1 = 7 /\
       lineAt [str "hello world"] 1 = front ++ behind /\
       strlen front + 1 = 12 /\
       lineAt (bufferLines buf1) 1 = before ++ (str "<!--" ++ SPACE) ++ rest /\
       lineAt (bufferLines buf1) 1 = front ++ (SPACE ++ str "-->") ++ behind /\
       sel1 = newSelection (RC := plainRange)
                1 (strlen (before ++ str "<!--" ++ SPACE) + 1)
                1 (strlen front + 1)).
Proof.
  exact (add_wraps_selection (RC := plainRange)
           (mkBuffer [str "hello world"] 0)
           (newSelection (RC := plainRange) 1 7 1 12)
           (str "<!--") (str "-->")
           eq_refl eq_refl eq_refl eq_refl).
Defined.
